(** * Colour-space and chroma-subsampling transforms

    A shallow embedding of [compressai/transforms/functional.py]:
    [_check_input_tensor], [rgb2ycbcr], [ycbcr2rgb], [yuv_444_to_420] and
    [yuv_420_to_444], over a small model of the Python values the functions
    receive and of the tensor engine (PyTorch) they call.

    Tensor elements are exact rationals ([Qc]): every statement about values
    below is a statement about the arithmetic the code writes down, not about
    its floating-point rounding. *)

From Stdlib Require Import QArith Qcanon Qround Field Lqa.
From stdpp Require Import base list numbers strings gmap.

Open Scope Qc_scope.

(** ** Python exceptions and results *)

Inductive exn : Type :=
| ValueError (msg : string)
| TypeError (msg : string)
| IndexError (msg : string)
| KeyError (key : string)
| AttributeError (msg : string)
| RuntimeError (msg : string)
| NotImplementedError (msg : string).

(** A call either returns a value or raises. *)
Inductive result (A : Type) : Type :=
| Return (a : A)
| Raise (e : exn).
Arguments Return {A} a.
Arguments Raise {A} e.

#[global] Instance exn_eq_dec : EqDecision exn.
Proof. solve_decision. Defined.

#[global] Instance result_ret : MRet result := @Return.
#[global] Instance result_bind : MBind result :=
  λ A B f m, match m with Return a => f a | Raise e => Raise e end.

Definition is_Return {A} (m : result A) : bool :=
  match m with Return _ => true | Raise _ => false end.

(** ** The tensor engine

    The functions of [functional.py] call a tensor engine (PyTorch) for
    every operation on tensors.  The engine is not part of the repository;
    [Torch] models the calls the functions make, after the engine's
    documented behaviour: sizes, row-major element order, [chunk], [cat],
    elementwise arithmetic with Python numbers, [avg_pool2d] and bilinear
    [interpolate]. *)

Module Torch.

(** *** Tensors *)

(** The element types the model distinguishes.  The order of the
    constructors is the order of type promotion. *)
Inductive dtype : Type := int32 | int64 | float32 | float64.

#[global] Instance dtype_eq_dec : EqDecision dtype.
Proof. solve_decision. Defined.

Definition dtype_is_floating_point (d : dtype) : bool :=
  match d with float32 | float64 => true | int32 | int64 => false end.

Definition dtype_rank (d : dtype) : nat :=
  match d with int32 => 0 | int64 => 1 | float32 => 2 | float64 => 3 end.

Definition promote_types (a b : dtype) : dtype :=
  if (dtype_rank a <? dtype_rank b)%nat then b else a.

(** A tensor: element type, sizes, and the elements in row-major order. *)
Record Tensor : Type := mkTensor {
  t_dtype : dtype;
  t_shape : list nat;
  t_data : list Qc
}.

#[global] Instance Tensor_eq_dec : EqDecision Tensor.
Proof. solve_decision. Defined.

Definition numel_of (shape : list nat) : nat := foldr Nat.mul 1%nat shape.

(** The stored elements fill the declared sizes. *)
Definition tensor_wf (t : Tensor) : Prop :=
  length (t_data t) = numel_of (t_shape t).

Definition is_floating_point (t : Tensor) : bool :=
  dtype_is_floating_point (t_dtype t).

Definition dim (t : Tensor) : nat := length (t_shape t).

(** Python-style axis: [-rank <= d < rank], negatives count from the end. *)
Definition wrap_dim (rank : nat) (d : Z) : result nat :=
  if bool_decide (- Z.of_nat rank ≤ d < Z.of_nat rank)%Z
  then Return (Z.to_nat (if bool_decide (d < 0)%Z then d + Z.of_nat rank else d)%Z)
  else Raise (IndexError "Dimension out of range").

(** [tensor.size(d)] *)
Definition size_at (t : Tensor) (d : Z) : result nat :=
  i ← wrap_dim (dim t) d;
  Return (nth i (t_shape t) 0%nat).

(** *** Engine primitives: views along one axis *)

(** A tensor is seen along axis [d] as [outer] blocks of [c * inner]
    elements; [narrow_data] keeps [len] elements from offset [start] of
    every block. *)
Fixpoint narrow_data (outer blk start len : nat) (l : list Qc) : list Qc :=
  match outer with
  | O => []
  | S o => take len (drop start l) ++ narrow_data o blk start len (drop blk l)
  end.

(** [tensor.narrow(d, start, length)] *)
Definition narrow (t : Tensor) (d start len : nat) : Tensor :=
  let outer := numel_of (take d (t_shape t)) in
  let inner := numel_of (drop (S d) (t_shape t)) in
  let c := nth d (t_shape t) 0%nat in
  {| t_dtype := t_dtype t;
     t_shape := <[d := len]> (t_shape t);
     t_data := narrow_data outer (c * inner) (start * inner) (len * inner) (t_data t) |}.

(** Modelled from the spec: the engine's channel splitting, which the
    source calls as [tensor.chunk(chunks, dim)] and which is not in the
    repository.  Pieces of [ceil(size / chunks)] along the axis, the last
    one shorter when the size is not a multiple; fewer than [chunks] pieces
    when the size is too small. *)
Definition chunk (t : Tensor) (chunks : nat) (d : Z) : result (list Tensor) :=
  if bool_decide (dim t = 0%nat) then
    Raise (RuntimeError "chunk expects at least a 1-dimensional tensor")
  else if bool_decide (chunks = 0%nat) then
    Raise (RuntimeError "chunk expects `chunks` to be greater than 0")
  else
    i ← wrap_dim (dim t) d;
    let dim_size := nth i (t_shape t) 0%nat in
    let split_size := ((dim_size + chunks - 1) / chunks)%nat in
    if bool_decide (dim_size = 0%nat) then
      Return (replicate chunks (narrow t i 0 0))
    else
      let num_splits := ((dim_size + split_size - 1) / split_size)%nat in
      Return (map (λ k, narrow t i (k * split_size)
                            (Nat.min split_size (dim_size - k * split_size)))
                  (seq 0 num_splits)).

(** Blocks of several tensors laid one after the other, [outer] times:
    each part is a block length with the elements still to be consumed. *)
Fixpoint cat_data (outer : nat) (parts : list (nat * list Qc)) : list Qc :=
  match outer with
  | O => []
  | S o => flat_map (λ p, take p.1 p.2) parts
           ++ cat_data o (map (λ p, (p.1, drop p.1 p.2)) parts)
  end.

Definition same_shape_except (d : nat) (s1 s2 : list nat) : bool :=
  bool_decide (<[d := 0%nat]> s1 = <[d := 0%nat]> s2).

(** Modelled from the spec: the engine's concatenation along an axis,
    which the source calls as [torch.cat(tensors, dim)] and which is not in
    the repository.  One-dimensional empty tensors are skipped; the others
    must agree on every axis but [dim]. *)
Definition cat (tensors : list Tensor) (d : Z) : result Tensor :=
  match tensors with
  | [] => Raise (RuntimeError "torch.cat(): expected a non-empty list of Tensors")
  | first :: _ =>
    let out_dtype := foldr (λ t, promote_types (t_dtype t)) (t_dtype first) tensors in
    match filter (λ t, t_shape t ≠ [0%nat]) tensors with
    | [] => Return {| t_dtype := out_dtype; t_shape := [0%nat]; t_data := [] |}
    | t0 :: rest =>
      i ← wrap_dim (dim t0) d;
      if forallb (λ t, same_shape_except i (t_shape t0) (t_shape t)) rest then
        let outer := numel_of (take i (t_shape t0)) in
        let inner := numel_of (drop (S i) (t_shape t0)) in
        let total := foldr (λ t, Nat.add (nth i (t_shape t) 0%nat)) 0%nat (t0 :: rest) in
        Return {| t_dtype := out_dtype;
                  t_shape := <[i := total]> (t_shape t0);
                  t_data := cat_data outer
                              (map (λ t, ((nth i (t_shape t) 0 * inner)%nat, t_data t))
                                   (t0 :: rest)) |}
      else
        Raise (RuntimeError "Sizes of tensors must match except in the cat dimension")
    end
  end.

(** *** Engine primitives: elementwise arithmetic *)

(** The element type of [tensor op python_float]. *)
Definition scalar_result_dtype (t : Tensor) : dtype :=
  if is_floating_point t then t_dtype t else float32.

Definition tensor_map (f : Qc → Qc) (t : Tensor) : Tensor :=
  {| t_dtype := scalar_result_dtype t; t_shape := t_shape t; t_data := map f (t_data t) |}.

(** Modelled from the spec: the engine's elementwise arithmetic, [a op b]
    for two tensors of one shape.  The operands in [functional.py] are
    always planes cut from one tensor, so broadcasting never occurs and is
    not modelled. *)
Definition tensor_zip (f : Qc → Qc → Qc) (a b : Tensor) : Tensor :=
  {| t_dtype := promote_types (t_dtype a) (t_dtype b);
     t_shape := t_shape a;
     t_data := zip_with f (t_data a) (t_data b) |}.

(** [k * t] *)
Definition smul (k : Qc) (t : Tensor) : Tensor := tensor_map (λ x, k * x) t.
(** [t / k] *)
Definition divs (t : Tensor) (k : Qc) : Tensor := tensor_map (λ x, x / k) t.
(** [t + k] *)
Definition adds (t : Tensor) (k : Qc) : Tensor := tensor_map (λ x, x + k) t.
(** [t - k] *)
Definition subs (t : Tensor) (k : Qc) : Tensor := tensor_map (λ x, x - k) t.
(** [a + b] *)
Definition tadd (a b : Tensor) : Tensor := tensor_zip Qcplus a b.
(** [a - b] *)
Definition tsub (a b : Tensor) : Tensor := tensor_zip Qcminus a b.

(** *** Engine primitives: pooling and resampling over the last two axes *)

Definition Qc_of_nat (n : nat) : Qc := Q2Qc (inject_Z (Z.of_nat n)).

(** Applies [f] to each of [n] consecutive planes of [sz] elements. *)
Fixpoint map_planes (n sz : nat) (f : list Qc → list Qc) (l : list Qc) : list Qc :=
  match n with
  | O => []
  | S n' => f (take sz l) ++ map_planes n' sz f (drop sz l)
  end.

(** Element [(h, w)] of a row-major plane with rows of [W] elements. *)
Definition plane_at (W : nat) (pl : list Qc) (h w : nat) : Qc :=
  nth (h * W + w) pl 0.

(** Output extent of a pooling window of [k] moved by [s]; 0 when the
    window does not fit. *)
Definition pool_out (n k s : nat) : nat :=
  if (n <? k)%nat then 0%nat else ((n - k) / s + 1)%nat.

(** Mean of the [k] by [k] window whose top-left corner is [(h0, w0)]. *)
Definition avg_window (W k : nat) (pl : list Qc) (h0 w0 : nat) : Qc :=
  fold_left Qcplus
    (flat_map (λ a, map (λ b, plane_at W pl (h0 + a) (w0 + b)) (seq 0 k)) (seq 0 k)) 0
  / Qc_of_nat (k * k).

Definition avg_pool_plane (H W k s : nat) (pl : list Qc) : list Qc :=
  flat_map (λ oh, map (λ ow, avg_window W k pl (oh * s) (ow * s)) (seq 0 (pool_out W k s)))
           (seq 0 (pool_out H k s)).

(** Modelled from the spec: the engine's 2-D local averaging, which the
    source calls as [F.avg_pool2d(input, kernel_size, stride)] and which is
    not in the repository.  No padding: input [(N,C,H,W)] or [(C,H,W)],
    every window inside the input, so an odd extent loses its last row or
    column. *)
Definition avg_pool2d (input : Tensor) (kernel_size stride : nat) : result Tensor :=
  if bool_decide (kernel_size = 0%nat ∨ stride = 0%nat) then
    Raise (RuntimeError "kernel size and stride should be greater than zero")
  else if negb (is_floating_point input) then
    Raise (RuntimeError "avg_pool2d not implemented for integer tensors")
  else
    let lead := take (dim input - 2) (t_shape input) in
    let H := nth (dim input - 2) (t_shape input) 0%nat in
    let W := nth (dim input - 1) (t_shape input) 0%nat in
    let nonempty :=
      match t_shape input with
      | [c; h; w] => bool_decide (c ≠ 0 ∧ h ≠ 0 ∧ w ≠ 0)%nat
      | [_; c; h; w] => bool_decide (c ≠ 0 ∧ h ≠ 0 ∧ w ≠ 0)%nat
      | _ => false
      end in
    if negb nonempty then
      Raise (RuntimeError "Expected 3D or 4D (batch mode) tensor with optional 0 dim batch size for input")
    else if bool_decide (pool_out H kernel_size stride = 0 ∨ pool_out W kernel_size stride = 0)%nat then
      Raise (RuntimeError "Output size is too small")
    else
      Return {| t_dtype := t_dtype input;
                t_shape := lead ++ [pool_out H kernel_size stride; pool_out W kernel_size stride];
                t_data := map_planes (numel_of lead) (H * W)
                            (avg_pool_plane H W kernel_size stride) (t_data input) |}.

Definition Qc_min (a b : Qc) : Qc := if bool_decide (a ≤ b) then a else b.
Definition Qc_max (a b : Qc) : Qc := if bool_decide (a ≤ b) then b else a.

(** Ratio between input and output coordinates. *)
Definition area_pixel_compute_scale
    (input_size output_size : nat) (align_corners : bool) (scale : Qc) : Qc :=
  if align_corners then
    if (1 <? output_size)%nat
    then Qc_of_nat (input_size - 1) / Qc_of_nat (output_size - 1)
    else 0
  else if bool_decide (0 < scale) then 1 / scale
  else Qc_of_nat input_size / Qc_of_nat output_size.

(** Input coordinate sampled by output index [dst]. *)
Definition area_pixel_compute_source_index
    (scale : Qc) (dst : nat) (align_corners : bool) : Qc :=
  if align_corners then scale * Qc_of_nat dst
  else
    let src := scale * (Qc_of_nat dst + Q2Qc 0.5) - Q2Qc 0.5 in
    if bool_decide (src < 0) then 0 else src.

(** The two neighbouring input indices and their weights:
    [(i0, i1, lambda0, lambda1)]. *)
Definition compute_source_index_and_lambda
    (ratio : Qc) (output_index input_size output_size : nat) (align_corners : bool)
    : nat * nat * Qc * Qc :=
  if bool_decide (output_size = input_size) then
    (output_index, output_index, 1, 0)
  else
    let real := area_pixel_compute_source_index ratio output_index align_corners in
    let i0 := Nat.min (Z.to_nat (Qfloor real)) (input_size - 1) in
    let lambda1 := Qc_min (Qc_max (real - Qc_of_nat i0) 0) 1 in
    let offset := if (i0 <? input_size - 1)%nat then 1%nat else 0%nat in
    (i0, (i0 + offset)%nat, 1 - lambda1, lambda1).

Definition upsample_bilinear_plane
    (H W OH OW : nat) (align_corners : bool) (scale : Qc) (pl : list Qc) : list Qc :=
  let rh := area_pixel_compute_scale H OH align_corners scale in
  let rw := area_pixel_compute_scale W OW align_corners scale in
  flat_map (λ oh,
    let '(h0, h1, h0l, h1l) := compute_source_index_and_lambda rh oh H OH align_corners in
    map (λ ow,
      let '(w0, w1, w0l, w1l) := compute_source_index_and_lambda rw ow W OW align_corners in
      h0l * (w0l * plane_at W pl h0 w0 + w1l * plane_at W pl h0 w1)
      + h1l * (w0l * plane_at W pl h1 w0 + w1l * plane_at W pl h1 w1))
      (seq 0 OW))
    (seq 0 OH).

(** Modelled from the spec: the engine's 2-D bilinear resampling, which
    the source calls as [F.interpolate(input, scale_factor=k,
    mode='bilinear', align_corners=b)] and which is not in the repository.
    Only 4-D input [(N,C,H,W)]; the output is [(N,C,k*H,k*W)]; without
    aligned corners the samples sit at pixel centres. *)
Definition interpolate_bilinear
    (input : Tensor) (scale_factor : nat) (align_corners : bool) : result Tensor :=
  match t_shape input with
  | [N; C; H; W] =>
    let OH := (H * scale_factor)%nat in
    let OW := (W * scale_factor)%nat in
    if negb (is_floating_point input) then
      Raise (RuntimeError "upsample_bilinear2d not implemented for integer tensors")
    else if bool_decide (H = 0 ∨ W = 0 ∨ OH = 0 ∨ OW = 0)%nat then
      Raise (RuntimeError "Input and output sizes should be greater than 0")
    else if bool_decide (C = 0)%nat then
      Raise (RuntimeError "Non-empty 4D data tensor expected")
    else
      Return {| t_dtype := t_dtype input;
                t_shape := [N; C; OH; OW];
                t_data := map_planes (N * C) (H * W)
                            (upsample_bilinear_plane H W OH OW align_corners
                               (Qc_of_nat scale_factor))
                            (t_data input) |}
  | _ => Raise (NotImplementedError "bilinear mode needs 4D input")
  end.

End Torch.
Export Torch.

(** ** Python objects passed to the functions *)

#[local] Set Warnings "-register-all".
Inductive pyobj : Type :=
| PyTensor (t : Tensor)
| PyFloat (x : Qc)
| PyNone
| PyTuple (items : list pyobj).

(** [isinstance(o, torch.Tensor)] *)
Definition isinstance_Tensor (o : pyobj) : bool :=
  match o with PyTensor _ => true | _ => false end.

(** ** Python protocols used by the functions *)

(** [a or b] on conditions that may raise: [b] is evaluated only when
    [a] is false. *)
Definition lazy_or (a b : result bool) : result bool :=
  x ← a; if (x : bool) then Return true else b.

(** Sub-tensor [k] along the first axis. *)
Definition select0 (t : Tensor) (k : nat) : Tensor :=
  let inner := numel_of (tail (t_shape t)) in
  {| t_dtype := t_dtype t;
     t_shape := tail (t_shape t);
     t_data := take inner (drop (k * inner) (t_data t)) |}.

(** [len(o)] *)
Definition py_len (o : pyobj) : result nat :=
  match o with
  | PyTuple items => Return (length items)
  | PyTensor t =>
    match t_shape t with
    | [] => Raise (TypeError "len() of a 0-d tensor")
    | n :: _ => Return n
    end
  | _ => Raise (TypeError "object has no len()")
  end.

(** The items obtained by iterating over [o]. *)
Definition py_iter (o : pyobj) : result (list pyobj) :=
  match o with
  | PyTuple items => Return items
  | PyTensor t =>
    match t_shape t with
    | [] => Raise (TypeError "iteration over a 0-d tensor")
    | n :: _ => Return (map (λ k, PyTensor (select0 t k)) (seq 0 n))
    end
  | _ => Raise (TypeError "cannot unpack non-iterable object")
  end.

(** [a, b, c = items] *)
Definition unpack3 {A} (items : list A) : result (A * A * A) :=
  match items with
  | [a; b; c] => Return (a, b, c)
  | _ =>
    if (length items <? 3)%nat
    then Raise (ValueError "not enough values to unpack (expected 3)")
    else Raise (ValueError "too many values to unpack (expected 3)")
  end.

(** [d[key]] *)
Definition getitem {V} (d : gmap string V) (key : string) : result V :=
  match d !! key with
  | Some v => Return v
  | None => Raise (KeyError key)
  end.

(** Method calls and engine calls on an object that must be a tensor. *)
Definition as_Tensor (o : pyobj) : result Tensor :=
  match o with
  | PyTensor t => Return t
  | _ => Raise (AttributeError "object is not a Tensor")
  end.

Definition as_Tensor_arg (o : pyobj) : result Tensor :=
  match o with
  | PyTensor t => Return t
  | _ => Raise (TypeError "argument must be Tensor")
  end.

Fixpoint as_Tensor_args (items : list pyobj) : result (list Tensor) :=
  match items with
  | [] => Return []
  | o :: rest => t ← as_Tensor_arg o; ts ← as_Tensor_args rest; Return (t :: ts)
  end.

(** ** functional.py *)

Definition YCBCR_WEIGHTS : gmap string (Qc * Qc * Qc) :=
  {[ "ITU-R_BT.709" := (Q2Qc 0.2126, Q2Qc 0.7152, Q2Qc 0.0722) ]}.

Definition _check_input_tensor (tensor : pyobj) : result () :=
  bad ← lazy_or (Return (negb (isinstance_Tensor tensor)))
        (lazy_or (t ← as_Tensor tensor; Return (negb (is_floating_point t)))
        (lazy_or (t ← as_Tensor tensor; Return (negb (bool_decide (dim t ∈ [3; 4]%nat))))
                 (t ← as_Tensor tensor; n ← size_at t (-3);
                  Return (negb (bool_decide (n = 3%nat))))));
  if (bad : bool)
  then Raise (ValueError "Expected a 4D tensor with shape (Nx3xHxW) as input")
  else Return ().

Definition rgb2ycbcr (rgb : pyobj) : result Tensor :=
  _ ← _check_input_tensor rgb;
  t ← as_Tensor rgb;
  planes ← chunk t 3 (-3);
  '(r, g, b) ← unpack3 planes;
  '(Kr, Kg, Kb) ← getitem YCBCR_WEIGHTS "ITU-R_BT.709";
  let y := tadd (tadd (smul Kr r) (smul Kg g)) (smul Kb b) in
  let cb := adds (divs (smul (Q2Qc 0.5) (tsub b y)) (1 - Kb)) (Q2Qc 0.5) in
  let cr := adds (divs (smul (Q2Qc 0.5) (tsub r y)) (1 - Kr)) (Q2Qc 0.5) in
  cat [y; cb; cr] (-3).

Definition ycbcr2rgb (ycbcr : pyobj) : result Tensor :=
  _ ← _check_input_tensor ycbcr;
  t ← as_Tensor ycbcr;
  planes ← chunk t 3 (-3);
  '(y, cb, cr) ← unpack3 planes;
  '(Kr, Kg, Kb) ← getitem YCBCR_WEIGHTS "ITU-R_BT.709";
  let r := tadd y (smul (2 - 2 * Kr) (subs cr (Q2Qc 0.5))) in
  let b := tadd y (smul (2 - 2 * Kb) (subs cb (Q2Qc 0.5))) in
  let g := divs (tsub (tsub y (smul Kr r)) (smul Kb b)) Kg in
  cat [r; g; b] (-3).

Definition _downsample (tensor : pyobj) : result Tensor :=
  t ← as_Tensor_arg tensor;
  avg_pool2d t 2 2.

Definition yuv_444_to_420 (yuv : pyobj) : result pyobj :=
  '(y, u, v) ←
    (if isinstance_Tensor yuv then
       t ← as_Tensor yuv;
       planes ← chunk t 3 1;
       unpack3 (PyTensor <$> planes)
     else
       items ← py_iter yuv;
       unpack3 items);
  u' ← _downsample u;
  v' ← _downsample v;
  Return (PyTuple [y; PyTensor u'; PyTensor v']).

Definition _upsample (tensor : pyobj) : result Tensor :=
  t ← as_Tensor tensor;
  interpolate_bilinear t 2 false.

(** [return_tuple] is [None] when the call leaves the argument out; the
    parameter then takes its default, [False]. *)
Definition yuv_420_to_444 (yuv : pyobj) (return_tuple : option bool) : result pyobj :=
  let return_tuple := default false return_tuple in
  bad ← lazy_or (n ← py_len yuv; Return (negb (bool_decide (n = 3%nat))))
                (items ← py_iter yuv;
                 Return (existsb (λ c, negb (isinstance_Tensor c)) items));
  if (bad : bool) then Raise (ValueError "Expected a tuple of 3 torch tensors")
  else
    items ← py_iter yuv;
    '(y, u, v) ← unpack3 items;
    u' ← _upsample u;
    v' ← _upsample v;
    if return_tuple then Return (PyTuple [y; PyTensor u'; PyTensor v'])
    else
      ts ← as_Tensor_args [y; PyTensor u'; PyTensor v'];
      out ← cat ts 1;
      Return (PyTensor out).

(** ** functional.py over a store of tensor objects

    Python passes tensors by reference and keeps [YCBCR_WEIGHTS] in a
    module-level name.  To state what a call does to the caller's tensors
    and to that table, the five functions are written a second time in
    store-passing style: the state holds the tensor objects and the global
    table, a Python value refers to tensors by location, and every engine
    call reads its operands from the store and puts its result in a new
    object. *)

Module Heap.

(** *** State and computations *)

Definition loc : Type := positive.

Record state : Type := mkState {
  tensors : gmap loc Tensor;
  weights_table : gmap string (Qc * Qc * Qc)
}.

(** A computation returns or raises, and leaves a state either way. *)
Definition M (A : Type) : Type := state → result A * state.

#[global] Instance M_ret : MRet M := λ A a σ, (Return a, σ).
#[global] Instance M_bind : MBind M :=
  λ A B f m σ,
    match m σ with
    | (Return a, σ') => f a σ'
    | (Raise e, σ') => (Raise e, σ')
    end.

Definition raise {A} (e : exn) : M A := λ σ, (Raise e, σ).

(** A step that does not touch the state. *)
Definition lift {A} (r : result A) : M A := λ σ, (r, σ).

(** Reads a tensor object. *)
Definition load (l : loc) : M Tensor :=
  λ σ, match tensors σ !! l with
       | Some t => (Return t, σ)
       | None => (Raise (RuntimeError "no tensor object at this location"), σ)
       end.

(** Creates a tensor object at a location not in use. *)
Definition alloc (t : Tensor) : M loc :=
  λ σ, let l := fresh (dom (tensors σ)) in
       (Return l, {| tensors := <[l := t]> (tensors σ);
                     weights_table := weights_table σ |}).

(** Reads the module-level name [YCBCR_WEIGHTS]. *)
Definition read_YCBCR_WEIGHTS : M (gmap string (Qc * Qc * Qc)) :=
  λ σ, (Return (weights_table σ), σ).

Fixpoint load_all (ls : list loc) : M (list Tensor) :=
  match ls with
  | [] => mret []
  | l :: ls => t ← load l; ts ← load_all ls; mret (t :: ts)
  end.

Fixpoint alloc_all (ts : list Tensor) : M (list loc) :=
  match ts with
  | [] => mret []
  | t :: ts => l ← alloc t; ls ← alloc_all ts; mret (l :: ls)
  end.

(** *** Engine calls on tensor objects *)

Definition is_floating_point (l : loc) : M bool :=
  t ← load l; mret (Torch.is_floating_point t).

Definition dim (l : loc) : M nat :=
  t ← load l; mret (Torch.dim t).

Definition size_at (l : loc) (d : Z) : M nat :=
  t ← load l; lift (Torch.size_at t d).

Definition chunk (l : loc) (chunks : nat) (d : Z) : M (list loc) :=
  t ← load l; ts ← lift (Torch.chunk t chunks d); alloc_all ts.

Definition cat (ls : list loc) (d : Z) : M loc :=
  ts ← load_all ls; out ← lift (Torch.cat ts d); alloc out.

Definition smul (k : Qc) (l : loc) : M loc := t ← load l; alloc (Torch.smul k t).
Definition divs (l : loc) (k : Qc) : M loc := t ← load l; alloc (Torch.divs t k).
Definition adds (l : loc) (k : Qc) : M loc := t ← load l; alloc (Torch.adds t k).
Definition subs (l : loc) (k : Qc) : M loc := t ← load l; alloc (Torch.subs t k).
Definition tadd (a b : loc) : M loc :=
  ta ← load a; tb ← load b; alloc (Torch.tadd ta tb).
Definition tsub (a b : loc) : M loc :=
  ta ← load a; tb ← load b; alloc (Torch.tsub ta tb).

Definition avg_pool2d (l : loc) (kernel_size stride : nat) : M loc :=
  t ← load l; out ← lift (Torch.avg_pool2d t kernel_size stride); alloc out.

Definition interpolate_bilinear (l : loc) (scale_factor : nat) (align_corners : bool)
    : M loc :=
  t ← load l; out ← lift (Torch.interpolate_bilinear t scale_factor align_corners);
  alloc out.

(** *** Python values and protocols *)

Inductive pyref : Type :=
| RTensor (l : loc)
| RFloat (x : Qc)
| RNone
| RTuple (items : list pyref).

Definition isinstance_Tensor (o : pyref) : bool :=
  match o with RTensor _ => true | _ => false end.

Definition lazy_or (a b : M bool) : M bool :=
  x ← a; if (x : bool) then mret true else b.

Definition py_len (o : pyref) : M nat :=
  match o with
  | RTuple items => mret (length items)
  | RTensor l =>
    t ← load l;
    match t_shape t with
    | [] => raise (TypeError "len() of a 0-d tensor")
    | n :: _ => mret n
    end
  | _ => raise (TypeError "object has no len()")
  end.

Definition py_iter (o : pyref) : M (list pyref) :=
  match o with
  | RTuple items => mret items
  | RTensor l =>
    t ← load l;
    match t_shape t with
    | [] => raise (TypeError "iteration over a 0-d tensor")
    | n :: _ => ls ← alloc_all (map (select0 t) (seq 0 n)); mret (RTensor <$> ls)
    end
  | _ => raise (TypeError "cannot unpack non-iterable object")
  end.

Definition as_Tensor (o : pyref) : M loc :=
  match o with
  | RTensor l => mret l
  | _ => raise (AttributeError "object is not a Tensor")
  end.

Definition as_Tensor_arg (o : pyref) : M loc :=
  match o with
  | RTensor l => mret l
  | _ => raise (TypeError "argument must be Tensor")
  end.

Fixpoint as_Tensor_args (items : list pyref) : M (list loc) :=
  match items with
  | [] => mret []
  | o :: rest => l ← as_Tensor_arg o; ls ← as_Tensor_args rest; mret (l :: ls)
  end.

(** *** functional.py *)

Definition _check_input_tensor (tensor : pyref) : M () :=
  bad ← lazy_or (mret (negb (isinstance_Tensor tensor)))
        (lazy_or (t ← as_Tensor tensor; f ← is_floating_point t; mret (negb f))
        (lazy_or (t ← as_Tensor tensor; n ← dim t;
                  mret (negb (bool_decide (n ∈ [3; 4]%nat))))
                 (t ← as_Tensor tensor; n ← size_at t (-3);
                  mret (negb (bool_decide (n = 3%nat))))));
  if (bad : bool)
  then raise (ValueError "Expected a 4D tensor with shape (Nx3xHxW) as input")
  else mret ().

Definition rgb2ycbcr (rgb : pyref) : M loc :=
  _ ← _check_input_tensor rgb;
  t ← as_Tensor rgb;
  planes ← chunk t 3 (-3);
  '(r, g, b) ← lift (unpack3 planes);
  table ← read_YCBCR_WEIGHTS;
  '(Kr, Kg, Kb) ← lift (getitem table "ITU-R_BT.709");
  kr_r ← smul Kr r; kg_g ← smul Kg g; s ← tadd kr_r kg_g; kb_b ← smul Kb b;
  y ← tadd s kb_b;
  b_y ← tsub b y; hb ← smul (Q2Qc 0.5) b_y; qb ← divs hb (1 - Kb);
  cb ← adds qb (Q2Qc 0.5);
  r_y ← tsub r y; hr ← smul (Q2Qc 0.5) r_y; qr ← divs hr (1 - Kr);
  cr ← adds qr (Q2Qc 0.5);
  cat [y; cb; cr] (-3).

Definition ycbcr2rgb (ycbcr : pyref) : M loc :=
  _ ← _check_input_tensor ycbcr;
  t ← as_Tensor ycbcr;
  planes ← chunk t 3 (-3);
  '(y, cb, cr) ← lift (unpack3 planes);
  table ← read_YCBCR_WEIGHTS;
  '(Kr, Kg, Kb) ← lift (getitem table "ITU-R_BT.709");
  cr_h ← subs cr (Q2Qc 0.5); dr ← smul (2 - 2 * Kr) cr_h; r ← tadd y dr;
  cb_h ← subs cb (Q2Qc 0.5); db ← smul (2 - 2 * Kb) cb_h; b ← tadd y db;
  kr_r ← smul Kr r; y_r ← tsub y kr_r; kb_b ← smul Kb b; y_r_b ← tsub y_r kb_b;
  g ← divs y_r_b Kg;
  cat [r; g; b] (-3).

Definition _downsample (tensor : pyref) : M loc :=
  t ← as_Tensor_arg tensor;
  avg_pool2d t 2 2.

Definition yuv_444_to_420 (yuv : pyref) : M pyref :=
  '(y, u, v) ←
    (if isinstance_Tensor yuv then
       t ← as_Tensor yuv;
       planes ← chunk t 3 1;
       lift (unpack3 (RTensor <$> planes))
     else
       items ← py_iter yuv;
       lift (unpack3 items));
  u' ← _downsample u;
  v' ← _downsample v;
  mret (RTuple [y; RTensor u'; RTensor v']).

Definition _upsample (tensor : pyref) : M loc :=
  t ← as_Tensor tensor;
  interpolate_bilinear t 2 false.

Definition yuv_420_to_444 (yuv : pyref) (return_tuple : option bool) : M pyref :=
  let return_tuple := default false return_tuple in
  bad ← lazy_or (n ← py_len yuv; mret (negb (bool_decide (n = 3%nat))))
                (items ← py_iter yuv;
                 mret (existsb (λ c, negb (isinstance_Tensor c)) items));
  if (bad : bool) then raise (ValueError "Expected a tuple of 3 torch tensors")
  else
    items ← py_iter yuv;
    '(y, u, v) ← lift (unpack3 items);
    u' ← _upsample u;
    v' ← _upsample v;
    if return_tuple then mret (RTuple [y; RTensor u'; RTensor v'])
    else
      ts ← as_Tensor_args [y; RTensor u'; RTensor v'];
      out ← cat ts 1;
      mret (RTensor out).

(** *** What a reference stands for *)

(** The value a Python value denotes in a store; [None] when it refers
    to a location that holds no tensor. *)
Fixpoint deref (σ : state) (o : pyref) : option pyobj :=
  match o with
  | RTensor l => PyTensor <$> tensors σ !! l
  | RFloat x => Some (PyFloat x)
  | RNone => Some PyNone
  | RTuple items => PyTuple <$> mapM (deref σ) items
  end.

(** The store of the second state keeps every tensor object of the first
    as it is, and the global table is the same. *)
Definition extends (σ σ' : state) : Prop :=
  tensors σ ⊆ tensors σ' ∧ weights_table σ' = weights_table σ.

End Heap.

(** ** Vocabulary of the statements *)

(** The error of the input validator (the spec's [InvalidShape]). *)
Definition InvalidShape : exn :=
  ValueError "Expected a 4D tensor with shape (Nx3xHxW) as input".

(** The error of the triple check of [yuv_420_to_444] (the spec's
    [InvalidTriple]). *)
Definition InvalidTriple : exn :=
  ValueError "Expected a tuple of 3 torch tensors".

(** Shapes [(3,H,W)] and [(N,3,H,W)], as the batch axes followed by the
    channel axis and the two spatial axes. *)
Definition image_shape (lead : list nat) (H W : nat) : list nat := lead ++ [3%nat; H; W].

(** A valid image tensor: floating point, rank 3 or 4, channel axis 3,
    and as many elements as its sizes say. *)
Definition valid_image (t : Tensor) (lead : list nat) (H W : nat) : Prop :=
  tensor_wf t ∧ is_floating_point t = true
  ∧ (length lead ≤ 1)%nat ∧ t_shape t = image_shape lead H W.

(** A single plane [(1,H,W)] or [(N,1,H,W)]. *)
Definition plane_shape (lead : list nat) (H W : nat) : list nat := lead ++ [1%nat; H; W].

(** Row-major offset of a multi-index. *)
Definition flat_index (shape idx : list nat) : nat :=
  fold_left (λ acc p, (acc * p.1 + p.2)%nat) (zip shape idx) 0%nat.

(** Every index is below the size of its axis. *)
Definition in_bounds (shape idx : list nat) : Prop := Forall2 lt idx shape.

(** The element at a multi-index. *)
Definition tensor_at (t : Tensor) (idx : list nat) : Qc :=
  nth (flat_index (t_shape t) idx) (t_data t) 0.

(** The weights stored under ["ITU-R_BT.709"]. *)
Definition Kr : Qc := Q2Qc 0.2126.
Definition Kg : Qc := Q2Qc 0.7152.
Definition Kb : Qc := Q2Qc 0.0722.

(** The per-pixel formulas of the forward transform. *)
Definition luma (R G B : Qc) : Qc := Kr * R + Kg * G + Kb * B.
Definition chroma_blue (R G B : Qc) : Qc :=
  Q2Qc 0.5 * (B - luma R G B) / (1 - Kb) + Q2Qc 0.5.
Definition chroma_red (R G B : Qc) : Qc :=
  Q2Qc 0.5 * (R - luma R G B) / (1 - Kr) + Q2Qc 0.5.

(** The element lists of the planes computed by [rgb2ycbcr] from the
    element lists of the R, G and B planes. *)
Definition y_data (r g b : list Qc) : list Qc :=
  zip_with Qcplus (zip_with Qcplus ((λ x, Kr * x) <$> r) ((λ x, Kg * x) <$> g))
           ((λ x, Kb * x) <$> b).
Definition cb_data (r g b : list Qc) : list Qc :=
  (λ x, x + Q2Qc 0.5) <$>
    ((λ x, x / (1 - Kb)) <$> ((λ x, Q2Qc 0.5 * x) <$> zip_with Qcminus b (y_data r g b))).
Definition cr_data (r g b : list Qc) : list Qc :=
  (λ x, x + Q2Qc 0.5) <$>
    ((λ x, x / (1 - Kr)) <$> ((λ x, Q2Qc 0.5 * x) <$> zip_with Qcminus r (y_data r g b))).

(** The element lists of the planes computed by [ycbcr2rgb] from the
    element lists of the Y, Cb and Cr planes. *)
Definition r_data (y cb cr : list Qc) : list Qc :=
  zip_with Qcplus y ((λ x, (2 - 2 * Kr) * x) <$> ((λ x, x - Q2Qc 0.5) <$> cr)).
Definition b_data (y cb cr : list Qc) : list Qc :=
  zip_with Qcplus y ((λ x, (2 - 2 * Kb) * x) <$> ((λ x, x - Q2Qc 0.5) <$> cb)).
Definition g_data (y cb cr : list Qc) : list Qc :=
  (λ x, x / Kg) <$>
    zip_with Qcminus (zip_with Qcminus y ((λ x, Kr * x) <$> r_data y cb cr))
                     ((λ x, Kb * x) <$> b_data y cb cr).

(** The elements of channel [k] of an image tensor, and the image tensor
    made of three planes. *)
Definition channel (t : Tensor) (lead : list nat) (H W k : nat) : list Qc :=
  narrow_data (numel_of lead) (3 * (H * W)) (k * (H * W)) (1 * (H * W)) (t_data t).

Definition of_channels (d : dtype) (lead : list nat) (H W : nat) (a b c : list Qc) : Tensor :=
  {| t_dtype := d; t_shape := image_shape lead H W;
     t_data := cat_data (numel_of lead) [((H * W)%nat, a); ((H * W)%nat, b); ((H * W)%nat, c)] |}.

(** Plane [k] of a packed image tensor, as a tensor of its own. *)
Definition plane_of (t : Tensor) (lead : list nat) (H W k : nat) : Tensor :=
  {| t_dtype := t_dtype t; t_shape := plane_shape lead H W;
     t_data := channel t lead H W k |}.

(** [u'] holds the means of the disjoint 2 by 2 blocks of [u]: [u] has
    spatial sizes [2*H] and [2*W] after the axes [L], [u'] has [H] and [W],
    and element [(i, j)] of a plane of [u'] is the mean of the elements
    [(2i, 2j)], [(2i, 2j+1)], [(2i+1, 2j)], [(2i+1, 2j+1)] of that plane
    of [u]. *)
Definition block_mean (u u' : Tensor) (L : list nat) (H W : nat) : Prop :=
  t_shape u' = L ++ [H; W] ∧ t_dtype u' = t_dtype u ∧ tensor_wf u'
  ∧ ∀ I i j, in_bounds L I → (i < H)%nat → (j < W)%nat →
      tensor_at u' (I ++ [i; j])
      = (tensor_at u (I ++ [2 * i; 2 * j]%nat)
         + tensor_at u (I ++ [2 * i; 2 * j + 1]%nat)
         + tensor_at u (I ++ [2 * i + 1; 2 * j]%nat)
         + tensor_at u (I ++ [2 * i + 1; 2 * j + 1]%nat)) / Q2Qc 4.

(** A tensor the 2 by 2 pooling applies to: floating point, complete,
    [(C,2H,2W)] or [(N,C,2H,2W)], no axis of size zero after the batch. *)
Definition poolable (u : Tensor) (lead : list nat) (C H W : nat) : Prop :=
  tensor_wf u ∧ is_floating_point u = true ∧ (length lead ≤ 1)%nat
  ∧ t_shape u = (lead ++ [C]) ++ [2 * H; 2 * W]%nat
  ∧ C ≠ 0%nat ∧ H ≠ 0%nat ∧ W ≠ 0%nat.

(** A chroma plane the bilinear upsampling applies to: floating point,
    complete, [(N,C,h,w)] with no empty channel or spatial axis. *)
Definition upsamplable (u : Tensor) (N C h w : nat) : Prop :=
  tensor_wf u ∧ is_floating_point u = true
  ∧ t_shape u = [N; C; h; w] ∧ C ≠ 0%nat ∧ h ≠ 0%nat ∧ w ≠ 0%nat.

(** The closed interval from 0 to 1. *)
Definition unit_interval (x : Qc) : Prop := 0 ≤ x ≤ 1.

(** The uniform tensor of shape [(1,3,4,4)] with R = G = B = 1. *)
Definition uniform_ones (d : dtype) : Tensor :=
  {| t_dtype := d; t_shape := [1; 3; 4; 4]%nat; t_data := replicate 48 1 |}.

(** A computation that keeps every tensor object of the state it starts
    from, and the global table, whatever it returns or raises. *)
Definition preserving {A} (m : Heap.M A) : Prop :=
  ∀ σ, Heap.extends σ (m σ).2.

(** The tensor object at a location. *)
Definition tensor_is (σ : Heap.state) (l : Heap.loc) (t : Tensor) : Prop :=
  Heap.tensors σ !! l = Some t.

(** The value a Python value stands for. *)
Definition denotes (σ : Heap.state) (o : Heap.pyref) (v : pyobj) : Prop :=
  Heap.deref σ o = Some v.

(** A store-passing computation started in [σ] does what the pure
    computation [p] does: it raises the same exception, or returns a value
    related by [R], in the final state, to the value [p] returns; and it
    keeps what [σ] holds. *)
Definition refines {A B} (R : Heap.state → A → B → Prop)
    (σ : Heap.state) (m : Heap.M A) (p : result B) : Prop :=
  Heap.extends σ (m σ).2
  ∧ match (m σ).1 with
    | Return a => ∃ b, p = Return b ∧ R (m σ).2 a b
    | Raise e => p = Raise e
    end.

(** What a caller observes of a call: the exception, or the value
    returned, read in the final state. *)
Definition outcome_of_tensor (x : result Heap.loc * Heap.state) : option (result Tensor) :=
  match x.1 with
  | Return l => Return <$> Heap.tensors x.2 !! l
  | Raise e => Some (Raise e)
  end.

Definition outcome_of_value (x : result Heap.pyref * Heap.state) : option (result pyobj) :=
  match x.1 with
  | Return o => Return <$> Heap.deref x.2 o
  | Raise e => Some (Raise e)
  end.

(** The state in which the module has been loaded: the global table is
    the one the module defines. *)
Definition module_loaded (σ : Heap.state) : Prop :=
  Heap.weights_table σ = YCBCR_WEIGHTS.

(** ** Concrete inputs *)

(** One image [(1,3,1,2)]: two pixels, elements between 0 and 1. *)
Definition example_image : Tensor :=
  {| t_dtype := float32; t_shape := [1; 3; 1; 2]%nat;
     t_data := [Q2Qc 0.25; Q2Qc 0.5; Q2Qc 0.75; 1; 0; Q2Qc 0.125] |}.

(** A packed 4:4:4 frame [(1,3,2,2)] and its three planes [(1,1,2,2)]. *)
Definition example_frame : Tensor :=
  {| t_dtype := float32; t_shape := [1; 3; 2; 2]%nat;
     t_data := Qc_of_nat <$> seq 0 12 |}.

Definition example_plane (start : nat) : Tensor :=
  {| t_dtype := float32; t_shape := [1; 1; 2; 2]%nat;
     t_data := Qc_of_nat <$> seq start 4 |}.

(** A chroma plane [(1,1,1,1)] of a 4:2:0 frame. *)
Definition example_chroma (x : Qc) : Tensor :=
  {| t_dtype := float32; t_shape := [1; 1; 1; 1]%nat; t_data := [x] |}.

(** A frame [(1,3,8,8)]. *)
Definition example_frame8 : Tensor :=
  {| t_dtype := float32; t_shape := [1; 3; 8; 8]%nat;
     t_data := Qc_of_nat <$> seq 0 192 |}.

(** A row of four samples, [(1,1,1,4)]. *)
Definition example_row : Tensor :=
  {| t_dtype := float32; t_shape := [1; 1; 1; 4]%nat;
     t_data := Qc_of_nat <$> [0; 4; 8; 12]%nat |}.

(** A computation that leaves the state exactly as it found it. *)
Definition readonly {A} (m : Heap.M A) : Prop :=
  ∀ σ, (m σ).2 = σ.

(** A stack of planes the pooling is asked to reduce, of any spatial
    sizes: floating point, complete, [(C,H,W)] or [(N,C,H,W)] with at least
    one channel. *)
Definition plane_stack (u : Tensor) (lead : list nat) (C H W : nat) : Prop :=
  tensor_wf u ∧ is_floating_point u = true ∧ (length lead ≤ 1)%nat
  ∧ t_shape u = (lead ++ [C]) ++ [H; W] ∧ C ≠ 0%nat.

(** A plane [(1,1,3,3)] holding [start], [start + 1], ... *)
Definition example_plane33 (start : nat) : Tensor :=
  {| t_dtype := float32; t_shape := [1; 1; 3; 3]%nat;
     t_data := Qc_of_nat <$> seq start 9 |}.

(** An image without a batch axis, [(3,6,2)], and a plane without one,
    [(1,2,2)]. *)
Definition example_image_unbatched : Tensor :=
  {| t_dtype := float32; t_shape := [3; 6; 2]%nat;
     t_data := Qc_of_nat <$> seq 0 36 |}.

Definition example_plane_unbatched (start : nat) : Tensor :=
  {| t_dtype := float32; t_shape := [1; 2; 2]%nat;
     t_data := Qc_of_nat <$> seq start 4 |}.

(** A tensor object created between two states: its location holds
    nothing in the first and a tensor in the second. *)
Definition new_object (σ σ' : Heap.state) (l : Heap.loc) : Prop :=
  Heap.tensors σ !! l = None ∧ is_Some (Heap.tensors σ' !! l).

(** A computation whose result, whenever it returns one, is a tensor
    object that the call created. *)
Definition returns_new (m : Heap.M Heap.loc) : Prop :=
  ∀ σ l, (m σ).1 = Return l → new_object σ (m σ).2 l.

(** The same for a computation that returns a Python value: the value is
    one tensor, an object that the call created. *)
Definition returns_new_tensor (m : Heap.M Heap.pyref) : Prop :=
  ∀ σ r, (m σ).1 = Return r → ∃ l, r = Heap.RTensor l ∧ new_object σ (m σ).2 l.

(** A store with three planes [(1,1,2,2)] at locations 1, 2 and 3, and
    the tuple of the three references. *)
Definition example_store : Heap.state :=
  {| Heap.tensors := {[ 1%positive := example_plane 0; 2%positive := example_plane 4;
                        3%positive := example_plane 8 ]};
     Heap.weights_table := YCBCR_WEIGHTS |}.

Definition example_refs : Heap.pyref :=
  Heap.RTuple [Heap.RTensor 1; Heap.RTensor 2; Heap.RTensor 3]%positive.

(** Along an axis of [n] samples upsampled by 2, output index [o] lies
    nearest to input index [o / 2]; the next nearest is its neighbour on the
    side of [o], kept inside the axis at both ends. *)
Definition near_index (o : nat) : nat := (o / 2)%nat.
Definition far_index (n o : nat) : nat :=
  if Nat.even o then (o / 2 - 1)%nat else Nat.min (o / 2 + 1) (n - 1).

(** [u'] is [u] upsampled by 2 along both spatial axes with the weights
    of bilinear interpolation at pixel centres: [u] is [(N,C,h,w)], [u'] is
    [(N,C,2h,2w)], and each element of [u'] is 9/16 of the nearest element
    of [u], 3/16 of each of the two next nearest, and 1/16 of the diagonal
    one. *)
Definition bilinear_2x (u u' : Tensor) (N C h w : nat) : Prop :=
  t_shape u' = [N; C] ++ [(2 * h)%nat; (2 * w)%nat] ∧ t_dtype u' = t_dtype u ∧ tensor_wf u'
  ∧ ∀ I i j, in_bounds [N; C] I → (i < 2 * h)%nat → (j < 2 * w)%nat →
      tensor_at u' (I ++ [i; j])
      = (Q2Qc 9 * tensor_at u (I ++ [near_index i; near_index j])
         + Q2Qc 3 * tensor_at u (I ++ [near_index i; far_index w j])
         + Q2Qc 3 * tensor_at u (I ++ [far_index h i; near_index j])
         + tensor_at u (I ++ [far_index h i; far_index w j])) / Q2Qc 16.

(** * Properties *)

(** ** Lists cut into blocks *)

Lemma narrow_data_length outer blk start len l :
  length l = (outer * blk)%nat → (start + len ≤ blk)%nat →
  length (narrow_data outer blk start len l) = (outer * len)%nat.
Proof.
  revert l. induction outer as [|o IH]; intros l Hl Hb; simpl; [done|].
  rewrite length_app, length_take, length_drop, IH; [|rewrite length_drop|]; simpl in *; lia.
Qed.

Lemma cat_data3_length outer n (a b c : list Qc) :
  length a = (outer * n)%nat → length b = (outer * n)%nat → length c = (outer * n)%nat →
  length (cat_data outer [(n, a); (n, b); (n, c)]) = (outer * (3 * n))%nat.
Proof.
  revert a b c. induction outer as [|o IH]; intros a b c Ha Hb Hc; simpl; [done|].
  rewrite !length_app, !length_take. simpl.
  rewrite IH; rewrite ?length_drop; simpl in *; lia.
Qed.

(** Cutting the three planes out of a concatenation gives them back. *)
Lemma narrow_cat_data3 outer n (a b c : list Qc) :
  length a = (outer * n)%nat → length b = (outer * n)%nat → length c = (outer * n)%nat →
  narrow_data outer (3 * n) (0 * n) (1 * n) (cat_data outer [(n, a); (n, b); (n, c)]) = a
  ∧ narrow_data outer (3 * n) (1 * n) (1 * n) (cat_data outer [(n, a); (n, b); (n, c)]) = b
  ∧ narrow_data outer (3 * n) (2 * n) (1 * n) (cat_data outer [(n, a); (n, b); (n, c)]) = c.
Proof.
  revert a b c. induction outer as [|o IH]; intros a b c Ha Hb Hc.
  { destruct a, b, c; done. }
  simpl in Ha, Hb, Hc.
  destruct (IH (drop n a) (drop n b) (drop n c)) as (IHa & IHb & IHc);
    [rewrite length_drop; lia..|].
  cbn [narrow_data cat_data flat_map map fst snd].
  rewrite !app_nil_r.
  assert (Hta : length (take n a) = n) by (rewrite length_take; lia).
  assert (Htb : length (take n b) = n) by (rewrite length_take; lia).
  assert (Htc : length (take n c) = n) by (rewrite length_take; lia).
  set (rest := cat_data o _) in *.
  assert (Hdrop : drop (3 * n) ((take n a ++ take n b ++ take n c) ++ rest) = rest).
  { rewrite drop_app_length'; [done|]. rewrite !length_app. lia. }
  rewrite Hdrop, IHa, IHb, IHc.
  replace (0 * n)%nat with 0%nat by lia.
  replace (1 * n)%nat with n by lia.
  replace (2 * n)%nat with (n + n)%nat by lia.
  rewrite <- !(assoc_L (++)).
  split_and!.
  - rewrite drop_0, take_app_length'; [|done]. apply take_drop.
  - rewrite drop_app_length'; [|done].
    rewrite take_app_length'; [|done]. apply take_drop.
  - rewrite <- drop_drop, drop_app_length'; [|done].
    rewrite drop_app_length'; [|done].
    rewrite take_app_length'; [|done]. apply take_drop.
Qed.


(** Concatenating the three planes of a tensor gives its data back. *)
Lemma cat_narrow_data3 outer n (l : list Qc) :
  length l = (outer * (3 * n))%nat →
  cat_data outer
    [(n, narrow_data outer (3 * n) (0 * n) (1 * n) l);
     (n, narrow_data outer (3 * n) (1 * n) (1 * n) l);
     (n, narrow_data outer (3 * n) (2 * n) (1 * n) l)] = l.
Proof.
  revert l. induction outer as [|o IH]; intros l Hl.
  { destruct l; done. }
  simpl in Hl.
  cbn [narrow_data cat_data flat_map map fst snd].
  replace (0 * n)%nat with 0%nat in * by lia.
  replace (1 * n)%nat with n in * by lia.
  replace (2 * n)%nat with (n + n)%nat in * by lia.
  rewrite !app_nil_r.
  assert (Hlen : ∀ k, (k + n ≤ 3 * n)%nat → length (take n (drop k l)) = n).
  { intros k Hk. rewrite length_take, length_drop. lia. }
  rewrite !take_app_length' by (symmetry; apply Hlen; lia).
  rewrite !drop_app_length' by (symmetry; apply Hlen; lia).
  rewrite drop_0.
  rewrite IH by (rewrite length_drop; lia).
  rewrite <- (drop_drop l n n), (take_take_drop (drop n l) n n), take_take_drop.
  replace (n + (n + n))%nat with (3 * n)%nat by lia.
  apply take_drop.
Qed.


(** ** The validator and the channel planes of a valid image *)

Lemma numel_of_app s1 s2 : numel_of (s1 ++ s2) = (numel_of s1 * numel_of s2)%nat.
Proof. induction s1 as [|x s1 IH]; simpl; [lia|]. rewrite IH. lia. Qed.

Lemma wrap_dim_channel (lead : list nat) :
  (length lead ≤ 1)%nat → wrap_dim (length lead + 3) (-3) = Return (length lead).
Proof. destruct lead as [|? [|? ?]]; simpl; intros; [done..|lia]. Qed.

Lemma check_input_tensor_valid t lead H W :
  valid_image t lead H W → _check_input_tensor (PyTensor t) = Return ().
Proof.
  intros (_ & Hf & Hl & Hs). unfold _check_input_tensor, size_at, dim.
  cbn. rewrite Hf, Hs. 
  destruct lead as [|? [|? ?]]; simpl in *; [done..|lia].
Qed.

Lemma chunk_channel t lead H W :
  (length lead ≤ 1)%nat → t_shape t = image_shape lead H W →
  chunk t 3 (-3) = Return [narrow t (length lead) 0 1; narrow t (length lead) 1 1;
                           narrow t (length lead) 2 1].
Proof.
  intros Hl Hs. unfold chunk, dim. rewrite Hs.
  destruct lead as [|? [|? ?]]; simpl in *; [done..|lia].
Qed.

Lemma narrow_channel t lead H W k :
  t_shape t = image_shape lead H W →
  narrow t (length lead) k 1 =
  {| t_dtype := t_dtype t; t_shape := plane_shape lead H W;
     t_data := narrow_data (numel_of lead) (3 * (H * W)) (k * (H * W)) (1 * (H * W)) (t_data t) |}.
Proof.
  intros Hs. unfold narrow. rewrite Hs. unfold image_shape, plane_shape.
  rewrite take_app_length, insert_app_r_alt, Nat.sub_diag by lia.
  rewrite (nth_middle lead _ 3%nat 0%nat).
  replace (S (length lead)) with (length (lead ++ [3%nat])) by (rewrite length_app; simpl; lia).
  change (lead ++ [3%nat; H; W]) with (lead ++ [3%nat] ++ [H; W]).
  rewrite (assoc_L (++) lead [3%nat] [H; W]), drop_app_length.
  simpl. by rewrite Nat.mul_1_r.
Qed.


Lemma weights_lookup :
  getitem YCBCR_WEIGHTS "ITU-R_BT.709" = Return (Kr, Kg, Kb).
Proof. reflexivity. Qed.

Lemma promote_types_idemp d : promote_types d d = d.
Proof. by destruct d. Qed.

Lemma plane_shape_not_empty1 lead H W : plane_shape lead H W ≠ [0%nat].
Proof. destruct lead as [|? [|? ?]]; done. Qed.

(** Concatenating three planes of one shape along the channel axis. *)
Lemma cat_planes a b c lead H W :
  (length lead ≤ 1)%nat →
  t_shape a = plane_shape lead H W → t_shape b = plane_shape lead H W →
  t_shape c = plane_shape lead H W →
  cat [a; b; c] (-3) =
  Return {| t_dtype := promote_types (t_dtype a) (promote_types (t_dtype b)
                         (promote_types (t_dtype c) (t_dtype a)));
            t_shape := image_shape lead H W;
            t_data := cat_data (numel_of lead)
                        [((H * W)%nat, t_data a); ((H * W)%nat, t_data b);
                         ((H * W)%nat, t_data c)] |}.
Proof.
  intros Hl Ha Hb Hc. unfold cat.
  rewrite !filter_cons, Ha, Hb, Hc, filter_nil.
  destruct (decide (plane_shape lead H W ≠ [0%nat])) as [_|Hn];
    [|destruct Hn; apply plane_shape_not_empty1].
  unfold dim. rewrite Ha. unfold plane_shape.
  destruct lead as [|N [|? ?]]; simpl in Hl; [| |lia].
  - change (wrap_dim _ _) with (Return (A:=nat) 0%nat).
    cbn -[cat_data Nat.mul]. rewrite Ha, Hb, Hc. unfold same_shape_except.
    rewrite bool_decide_eq_true_2 by done.
    cbn -[cat_data Nat.mul]. by rewrite !Nat.mul_1_l, !Nat.mul_1_r.
  - change (wrap_dim _ _) with (Return (A:=nat) 1%nat).
    cbn -[cat_data Nat.mul]. rewrite Ha, Hb, Hc. unfold same_shape_except.
    rewrite bool_decide_eq_true_2 by done.
    cbn -[cat_data Nat.mul]. by rewrite !Nat.mul_1_l, !Nat.mul_1_r.
Qed.


(** The three channel planes of an image tensor. *)
Lemma plane_wf t lead H W k :
  valid_image t lead H W → (k < 3)%nat →
  length (narrow_data (numel_of lead) (3 * (H * W)) (k * (H * W)) (1 * (H * W)) (t_data t))
  = (numel_of lead * (H * W))%nat.
Proof.
  intros (Hwf & _ & _ & Hs) Hk. unfold tensor_wf in Hwf.
  rewrite Hs in Hwf. unfold image_shape in Hwf. rewrite numel_of_app in Hwf. simpl in Hwf.
  rewrite narrow_data_length; [lia| |nia].
  rewrite Hwf. lia.
Qed.

Lemma float_scalar_dtype t : is_floating_point t = true → scalar_result_dtype t = t_dtype t.
Proof. unfold scalar_result_dtype. by intros ->. Qed.

Lemma tensor_map_dtype f a d :
  dtype_is_floating_point d = true → t_dtype a = d → t_dtype (tensor_map f a) = d.
Proof.
  intros Hd Ha. unfold tensor_map, scalar_result_dtype, is_floating_point. simpl.
  by rewrite Ha, Hd.
Qed.

Lemma tensor_zip_dtype f a b d :
  t_dtype a = d → t_dtype b = d → t_dtype (tensor_zip f a b) = d.
Proof. intros Ha Hb. unfold tensor_zip. simpl. rewrite Ha, Hb. apply promote_types_idemp. Qed.

(** Element type of an arithmetic expression over tensors of one floating
    element type. *)
Ltac solve_dtype :=
  unfold smul, divs, adds, subs, tadd, tsub;
  repeat first [ assumption | reflexivity
               | apply tensor_zip_dtype | apply tensor_map_dtype ].

(** [rgb2ycbcr] on a valid image: the result of the arithmetic on the
    three planes, laid out along the channel axis. *)
Lemma rgb2ycbcr_valid t lead H W :
  valid_image t lead H W →
  let r := narrow t (length lead) 0 1 in
  let g := narrow t (length lead) 1 1 in
  let b := narrow t (length lead) 2 1 in
  let y := tadd (tadd (smul Kr r) (smul Kg g)) (smul Kb b) in
  let cb := adds (divs (smul (Q2Qc 0.5) (tsub b y)) (1 - Kb)) (Q2Qc 0.5) in
  let cr := adds (divs (smul (Q2Qc 0.5) (tsub r y)) (1 - Kr)) (Q2Qc 0.5) in
  rgb2ycbcr (PyTensor t) =
  Return {| t_dtype := t_dtype t; t_shape := t_shape t;
            t_data := cat_data (numel_of lead)
                        [((H * W)%nat, t_data y); ((H * W)%nat, t_data cb);
                         ((H * W)%nat, t_data cr)] |}.
Proof.
  intros Hv. pose proof Hv as (Hwf & Hf & Hl & Hs). intros r g b y cb cr.
  unfold rgb2ycbcr. rewrite (check_input_tensor_valid _ _ _ _ Hv).
  cbn [mbind result_bind as_Tensor].
  rewrite (chunk_channel _ _ _ _ Hl Hs).
  cbn [mbind result_bind unpack3]. rewrite weights_lookup. cbn [mbind result_bind].
  fold r g b. fold y. fold cb cr.
  assert (Hd : ∀ k, t_dtype (narrow t (length lead) k 1) = t_dtype t) by done.
  assert (Hsh : ∀ k, t_shape (narrow t (length lead) k 1) = plane_shape lead H W).
  { intros k. by rewrite (narrow_channel _ _ _ _ _ Hs). }
  assert (Hfl : ∀ k, is_floating_point (narrow t (length lead) k 1) = true) by done.
  rewrite (cat_planes y cb cr lead H W Hl); [|apply Hsh..].
  rewrite <- Hs. f_equal. f_equal.
  assert (Hy : t_dtype y = t_dtype t) by (subst y; solve_dtype).
  assert (Hcb : t_dtype cb = t_dtype t) by (subst cb; solve_dtype).
  assert (Hcr : t_dtype cr = t_dtype t) by (subst cr; solve_dtype).
  rewrite Hy, Hcb, Hcr. by rewrite !promote_types_idemp.
Qed.


(** [ycbcr2rgb] on a valid image, in the same form. *)
Lemma ycbcr2rgb_valid t lead H W :
  valid_image t lead H W →
  let y := narrow t (length lead) 0 1 in
  let cb := narrow t (length lead) 1 1 in
  let cr := narrow t (length lead) 2 1 in
  let r := tadd y (smul (2 - 2 * Kr) (subs cr (Q2Qc 0.5))) in
  let b := tadd y (smul (2 - 2 * Kb) (subs cb (Q2Qc 0.5))) in
  let g := divs (tsub (tsub y (smul Kr r)) (smul Kb b)) Kg in
  ycbcr2rgb (PyTensor t) =
  Return {| t_dtype := t_dtype t; t_shape := t_shape t;
            t_data := cat_data (numel_of lead)
                        [((H * W)%nat, t_data r); ((H * W)%nat, t_data g);
                         ((H * W)%nat, t_data b)] |}.
Proof.
  intros Hv. pose proof Hv as (Hwf & Hf & Hl & Hs). intros y cb cr r b g.
  unfold ycbcr2rgb. rewrite (check_input_tensor_valid _ _ _ _ Hv).
  cbn [mbind result_bind as_Tensor].
  rewrite (chunk_channel _ _ _ _ Hl Hs).
  cbn [mbind result_bind unpack3]. rewrite weights_lookup. cbn [mbind result_bind].
  fold y cb cr. fold r b. fold g.
  assert (Hd : ∀ k, t_dtype (narrow t (length lead) k 1) = t_dtype t) by done.
  assert (Hsh : ∀ k, t_shape (narrow t (length lead) k 1) = plane_shape lead H W).
  { intros k. by rewrite (narrow_channel _ _ _ _ _ Hs). }
  rewrite (cat_planes r g b lead H W Hl); [|apply Hsh..].
  rewrite <- Hs. f_equal. f_equal.
  assert (Hr : t_dtype r = t_dtype t) by (subst r; solve_dtype).
  assert (Hb : t_dtype b = t_dtype t) by (subst b; solve_dtype).
  assert (Hg : t_dtype g = t_dtype t) by (subst g; solve_dtype).
  rewrite Hr, Hb, Hg. by rewrite !promote_types_idemp.
Qed.

(** ** The algebra of the two transforms, pixel by pixel *)

Lemma Kg_nonzero : Kg ≠ 0.
Proof. done. Qed.

Lemma one_minus_Kb_nonzero : 1 - Kb ≠ 0.
Proof. done. Qed.

Lemma one_minus_Kr_nonzero : 1 - Kr ≠ 0.
Proof. done. Qed.

Lemma half_plus_half : Q2Qc 0.5 + Q2Qc 0.5 = 1.
Proof. by apply Qc_is_canon. Qed.

Lemma weights_sum : Kr + Kg + Kb = 1.
Proof. by apply Qc_is_canon. Qed.

Lemma half_eq : Q2Qc 0.5 = 1 / (1 + 1).
Proof. by apply Qc_is_canon. Qed.

(** The three inverse formulas undo the three forward formulas, for any
    weights with [kg <> 0], [kr <> 1] and [kb <> 1]. *)
Lemma inverse_red (kr Y R : Qc) :
  1 - kr ≠ 0 →
  Y + (2 - 2 * kr) * (Q2Qc 0.5 * (R - Y) / (1 - kr) + Q2Qc 0.5 - Q2Qc 0.5) = R.
Proof. intros Hk. rewrite half_eq. field. split; [done|exact Hk]. Qed.

Lemma inverse_green (kr kg kb R G B : Qc) :
  kg ≠ 0 → (kr * R + kg * G + kb * B - kr * R - kb * B) / kg = G.
Proof. intros Hk. field. exact Hk. Qed.

(** Induction over three lists of one length. *)
Lemma list_ind3 {A} (P : list A → list A → list A → Prop) :
  P [] [] [] →
  (∀ x y z l1 l2 l3, P l1 l2 l3 → P (x :: l1) (y :: l2) (z :: l3)) →
  ∀ l1 l2 l3, length l1 = length l2 → length l2 = length l3 → P l1 l2 l3.
Proof.
  intros Hnil Hcons l1.
  induction l1 as [|x l1 IH]; intros [|y l2] [|z l3] H12 H23; try done.
  apply Hcons, IH; simpl in *; lia.
Qed.

Lemma forward_data_length r g b :
  length r = length g → length g = length b →
  length (y_data r g b) = length r ∧ length (cb_data r g b) = length r
  ∧ length (cr_data r g b) = length r.
Proof.
  intros Hrg Hgb. unfold cb_data, cr_data, y_data.
  repeat rewrite ?length_fmap, ?length_zip_with. lia.
Qed.

(** The inverse arithmetic undoes the forward arithmetic on the planes. *)
Lemma roundtrip_data r g b :
  length r = length g → length g = length b →
  let y := y_data r g b in
  let cb := cb_data r g b in
  let cr := cr_data r g b in
  r_data y cb cr = r ∧ g_data y cb cr = g ∧ b_data y cb cr = b.
Proof.
  revert r g b. refine (list_ind3 _ _ _); [done|].
  intros R G B r g b (IHr & IHg & IHb).
  unfold r_data, g_data, b_data, cb_data, cr_data, y_data in *. cbn.
  rewrite !inverse_red by done.
  rewrite inverse_green by done.
  split_and!; f_equal; done.
Qed.


(** ** Both transforms in terms of channels *)

Lemma numel_image_shape lead H W :
  numel_of (image_shape lead H W) = (numel_of lead * (3 * (H * W)))%nat.
Proof. unfold image_shape. rewrite numel_of_app. simpl. lia. Qed.

Lemma channel_length t lead H W k :
  valid_image t lead H W → (k < 3)%nat →
  length (channel t lead H W k) = (numel_of lead * (H * W))%nat.
Proof. apply plane_wf. Qed.

Lemma rgb2ycbcr_channels t lead H W :
  valid_image t lead H W →
  let r := channel t lead H W 0 in
  let g := channel t lead H W 1 in
  let b := channel t lead H W 2 in
  rgb2ycbcr (PyTensor t) =
  Return (of_channels (t_dtype t) lead H W (y_data r g b) (cb_data r g b) (cr_data r g b)).
Proof.
  intros Hv. pose proof Hv as (_ & _ & _ & Hs). cbn zeta.
  rewrite (rgb2ycbcr_valid _ _ _ _ Hv). cbn zeta.
  rewrite !(narrow_channel _ _ _ _ _ Hs). unfold of_channels. by rewrite Hs.
Qed.

Lemma ycbcr2rgb_channels t lead H W :
  valid_image t lead H W →
  let y := channel t lead H W 0 in
  let cb := channel t lead H W 1 in
  let cr := channel t lead H W 2 in
  ycbcr2rgb (PyTensor t) =
  Return (of_channels (t_dtype t) lead H W (r_data y cb cr) (g_data y cb cr) (b_data y cb cr)).
Proof.
  intros Hv. pose proof Hv as (_ & _ & _ & Hs). cbn zeta.
  rewrite (ycbcr2rgb_valid _ _ _ _ Hv). cbn zeta.
  rewrite !(narrow_channel _ _ _ _ _ Hs). unfold of_channels. by rewrite Hs.
Qed.

Lemma of_channels_valid d lead H W a b c :
  dtype_is_floating_point d = true → (length lead ≤ 1)%nat →
  length a = (numel_of lead * (H * W))%nat →
  length b = (numel_of lead * (H * W))%nat →
  length c = (numel_of lead * (H * W))%nat →
  valid_image (of_channels d lead H W a b c) lead H W.
Proof.
  intros Hd Hl Ha Hb Hc. split_and!; try done.
  unfold tensor_wf, of_channels. simpl.
  rewrite numel_image_shape. by apply cat_data3_length.
Qed.

Lemma channel_of_channels d lead H W a b c :
  length a = (numel_of lead * (H * W))%nat →
  length b = (numel_of lead * (H * W))%nat →
  length c = (numel_of lead * (H * W))%nat →
  channel (of_channels d lead H W a b c) lead H W 0 = a
  ∧ channel (of_channels d lead H W a b c) lead H W 1 = b
  ∧ channel (of_channels d lead H W a b c) lead H W 2 = c.
Proof. intros Ha Hb Hc. by apply narrow_cat_data3. Qed.

Lemma of_channels_channel t lead H W :
  valid_image t lead H W →
  of_channels (t_dtype t) lead H W (channel t lead H W 0) (channel t lead H W 1)
              (channel t lead H W 2) = t.
Proof.
  intros (Hwf & _ & _ & Hs). unfold of_channels, channel.
  rewrite cat_narrow_data3.
  - rewrite <- Hs. by destruct t.
  - unfold tensor_wf in Hwf. by rewrite Hwf, Hs, numel_image_shape.
Qed.


Lemma forward_luma (kr kg kb Y R B : Qc) :
  kg ≠ 0 → kr * R + kg * ((Y - kr * R - kb * B) / kg) + kb * B = Y.
Proof. intros Hk. field. exact Hk. Qed.

Lemma forward_chroma (k Y C : Qc) :
  1 - k ≠ 0 →
  Q2Qc 0.5 * (Y + (2 - 2 * k) * (C - Q2Qc 0.5) - Y) / (1 - k) + Q2Qc 0.5 = C.
Proof. intros Hk. rewrite half_eq. field. split; [done|exact Hk]. Qed.

Lemma inverse_data_length y cb cr :
  length y = length cb → length cb = length cr →
  length (r_data y cb cr) = length y ∧ length (g_data y cb cr) = length y
  ∧ length (b_data y cb cr) = length y.
Proof.
  intros H1 H2. unfold g_data, r_data, b_data.
  repeat rewrite ?length_fmap, ?length_zip_with. lia.
Qed.

(** The forward arithmetic undoes the inverse arithmetic on the planes. *)
Lemma roundtrip_data_rev y cb cr :
  length y = length cb → length cb = length cr →
  let r := r_data y cb cr in
  let g := g_data y cb cr in
  let b := b_data y cb cr in
  y_data r g b = y ∧ cb_data r g b = cb ∧ cr_data r g b = cr.
Proof.
  revert y cb cr. refine (list_ind3 _ _ _); [done|].
  intros Y Cb Cr y cb cr (IHy & IHcb & IHcr).
  unfold r_data, g_data, b_data, cb_data, cr_data, y_data in *. cbn.
  rewrite !forward_luma by done.
  rewrite !forward_chroma by done.
  split_and!; f_equal; done.
Qed.

(** ** C1: the two colour transforms are inverse to each other *)

(** C1. For every valid image tensor [t] (floating point, shape [(3,H,W)]
    or [(N,3,H,W)]), [rgb2ycbcr] returns a tensor on which [ycbcr2rgb]
    returns [t] itself, and [ycbcr2rgb] returns a tensor on which
    [rgb2ycbcr] returns [t] itself: under exact rational arithmetic the two
    transforms are inverse to each other, element for element, with nothing
    clamped or quantised. *)
Theorem rgb2ycbcr_ycbcr2rgb_inverse t lead H W :
  valid_image t lead H W →
  (∃ ycbcr, rgb2ycbcr (PyTensor t) = Return ycbcr
            ∧ ycbcr2rgb (PyTensor ycbcr) = Return t)
  ∧ (∃ rgb, ycbcr2rgb (PyTensor t) = Return rgb
            ∧ rgb2ycbcr (PyTensor rgb) = Return t).
Proof.
  intros Hv. pose proof Hv as (Hwf & Hf & Hl & Hs).
  pose proof (channel_length t lead H W 0 Hv) as H0.
  pose proof (channel_length t lead H W 1 Hv) as H1.
  pose proof (channel_length t lead H W 2 Hv) as H2.
  specialize (H0 ltac:(lia)). specialize (H1 ltac:(lia)). specialize (H2 ltac:(lia)).
  set (p0 := channel t lead H W 0) in *.
  set (p1 := channel t lead H W 1) in *.
  set (p2 := channel t lead H W 2) in *.
  split.
  - eexists. split; [by apply rgb2ycbcr_channels|]. fold p0 p1 p2.
    destruct (forward_data_length p0 p1 p2) as (Ly & Lcb & Lcr); [lia..|].
    destruct (channel_of_channels (t_dtype t) lead H W
                (y_data p0 p1 p2) (cb_data p0 p1 p2) (cr_data p0 p1 p2))
      as (E0 & E1 & E2); [lia..|].
    rewrite (ycbcr2rgb_channels _ lead H W); [|apply of_channels_valid; [done|done|lia..]].
    cbn zeta. rewrite E0, E1, E2.
    destruct (roundtrip_data p0 p1 p2) as (-> & -> & ->); [lia..|].
    f_equal. change (t_dtype (of_channels _ _ _ _ _ _ _)) with (t_dtype t).
    subst p0 p1 p2. by apply of_channels_channel.
  - eexists. split; [by apply ycbcr2rgb_channels|]. fold p0 p1 p2.
    destruct (inverse_data_length p0 p1 p2) as (Lr & Lg & Lb); [lia..|].
    destruct (channel_of_channels (t_dtype t) lead H W
                (r_data p0 p1 p2) (g_data p0 p1 p2) (b_data p0 p1 p2))
      as (E0 & E1 & E2); [lia..|].
    rewrite (rgb2ycbcr_channels _ lead H W); [|apply of_channels_valid; [done|done|lia..]].
    cbn zeta. rewrite E0, E1, E2.
    destruct (roundtrip_data_rev p0 p1 p2) as (-> & -> & ->); [lia..|].
    f_equal. change (t_dtype (of_channels _ _ _ _ _ _ _)) with (t_dtype t).
    subst p0 p1 p2. by apply of_channels_channel.
Qed.


(** ** Elements of the channels by index *)

Lemma lookup_narrow_data outer blk start len (l : list Qc) o p :
  length l = (outer * blk)%nat → (start + len ≤ blk)%nat →
  (o < outer)%nat → (p < len)%nat →
  narrow_data outer blk start len l !! (o * len + p)%nat = l !! (o * blk + start + p)%nat.
Proof.
  revert l o. induction outer as [|n IH]; intros l o Hl Hb Ho Hp; [lia|].
  simpl in Hl. cbn [narrow_data].
  assert (Ht : length (take len (drop start l)) = len).
  { rewrite length_take, length_drop. lia. }
  destruct o as [|o].
  - rewrite lookup_app_l by (rewrite Ht; simpl; lia).
    simpl. rewrite lookup_take_lt, lookup_drop by lia. done.
  - rewrite lookup_app_r by (rewrite Ht; simpl; lia).
    rewrite Ht. replace (S o * len + p - len)%nat with (o * len + p)%nat by (simpl; lia).
    rewrite IH; [|rewrite length_drop; lia|lia..].
    rewrite lookup_drop. f_equal. simpl. lia.
Qed.

Lemma forward_data_lookup r g b j R G B :
  r !! j = Some R → g !! j = Some G → b !! j = Some B →
  y_data r g b !! j = Some (luma R G B)
  ∧ cb_data r g b !! j = Some (chroma_blue R G B)
  ∧ cr_data r g b !! j = Some (chroma_red R G B).
Proof.
  intros Hr Hg Hb. unfold cb_data, cr_data, y_data.
  repeat rewrite ?list_lookup_fmap, ?lookup_zip_with.
  rewrite Hr, Hg, Hb. done.
Qed.

(** Offsets of the elements of an image tensor. *)
Lemma flat_index_image lead li H W k h w :
  length li = length lead → (length lead ≤ 1)%nat →
  flat_index (image_shape lead H W) (li ++ [k; h; w])
  = (flat_index lead li * (3 * (H * W)) + k * (H * W) + (h * W + w))%nat.
Proof.
  intros Hli Hl. destruct lead as [|N [|N2 lead]], li as [|n [|n2 li]]; simpl in *; try lia.
  - unfold flat_index. simpl. lia.
  - unfold flat_index. simpl. lia.
Qed.

Lemma in_bounds_image lead li H W k h w :
  in_bounds (image_shape lead H W) (li ++ [k; h; w]) → (length lead ≤ 1)%nat →
  length li = length lead ∧ (flat_index lead li < numel_of lead)%nat
  ∧ (k < 3)%nat ∧ (h < H)%nat ∧ (w < W)%nat.
Proof.
  unfold in_bounds, image_shape. intros Hb Hl.
  pose proof (Forall2_length _ _ _ Hb) as Hlen. rewrite !length_app in Hlen. simpl in Hlen.
  destruct lead as [|N [|N2 lead]], li as [|n [|n2 li]]; simpl in *; try lia.
  - repeat match goal with H : Forall2 _ (_ :: _) (_ :: _) |- _ => inversion H; clear H; subst end.
    unfold flat_index. simpl. lia.
  - repeat match goal with H : Forall2 _ (_ :: _) (_ :: _) |- _ => inversion H; clear H; subst end.
    unfold flat_index. simpl. lia.
Qed.

(** An element of an image tensor is an element of one of its channels. *)
Lemma tensor_at_channel t lead H W li k h w :
  valid_image t lead H W →
  length li = length lead → (flat_index lead li < numel_of lead)%nat →
  (k < 3)%nat → (h < H)%nat → (w < W)%nat →
  channel t lead H W k !! (flat_index lead li * (H * W) + (h * W + w))%nat
  = Some (tensor_at t (li ++ [k; h; w])).
Proof.
  intros (Hwf & _ & Hl & Hs) Hli Ho Hk Hh Hw.
  unfold tensor_at, channel. rewrite Hs, (flat_index_image _ _ _ _ _ _ _ Hli Hl).
  unfold tensor_wf in Hwf. rewrite Hs, numel_image_shape in Hwf.
  replace (flat_index lead li * (H * W))%nat
    with (flat_index lead li * (1 * (H * W)))%nat by lia.
  assert (Hp : (h * W + w < H * W)%nat).
  { assert ((h + 1) * W ≤ H * W)%nat by (apply Nat.mul_le_mono_r; lia). lia. }
  assert (Hc : (k * (H * W) + H * W ≤ 3 * (H * W))%nat).
  { assert ((k + 1) * (H * W) ≤ 3 * (H * W))%nat by (apply Nat.mul_le_mono_r; lia). lia. }
  assert (Ho' : ((flat_index lead li + 1) * (3 * (H * W)) ≤ numel_of lead * (3 * (H * W)))%nat)
    by (apply Nat.mul_le_mono_r; lia).
  rewrite lookup_narrow_data; [|done|lia|done|lia].
  rewrite nth_lookup.
  destruct (t_data t !! _) eqn:E; [done|].
  apply lookup_ge_None in E. lia.
Qed.

(** ** C2: the forward transform, element by element *)

(** C2. For every valid image tensor [t] (floating point, rank 3 or 4,
    channel axis of length 3), [rgb2ycbcr] returns a tensor of exactly the
    shape of [t] (and of its element type, with as many elements as the
    shape says) whose channels 0, 1 and 2 hold, at every batch index and
    pixel, [Y = Kr*R + Kg*G + Kb*B], [Cb = 0.5*(B - Y)/(1 - Kb) + 0.5] and
    [Cr = 0.5*(R - Y)/(1 - Kr) + 0.5] of the input's channels R, G, B at
    that place, with [(Kr, Kg, Kb) = (0.2126, 0.7152, 0.0722)]. *)
Theorem rgb2ycbcr_planes t lead H W :
  valid_image t lead H W →
  (Kr, Kg, Kb) = (Q2Qc 0.2126, Q2Qc 0.7152, Q2Qc 0.0722)
  ∧ ∃ out, rgb2ycbcr (PyTensor t) = Return out
      ∧ t_shape out = t_shape t ∧ t_dtype out = t_dtype t ∧ tensor_wf out
      ∧ ∀ li h w, in_bounds (t_shape t) (li ++ [0%nat; h; w]) →
          let R := tensor_at t (li ++ [0%nat; h; w]) in
          let G := tensor_at t (li ++ [1%nat; h; w]) in
          let B := tensor_at t (li ++ [2%nat; h; w]) in
          let Y := Kr * R + Kg * G + Kb * B in
          tensor_at out (li ++ [0%nat; h; w]) = Y
          ∧ tensor_at out (li ++ [1%nat; h; w]) = Q2Qc 0.5 * (B - Y) / (1 - Kb) + Q2Qc 0.5
          ∧ tensor_at out (li ++ [2%nat; h; w]) = Q2Qc 0.5 * (R - Y) / (1 - Kr) + Q2Qc 0.5.
Proof.
  intros Hv. split; [done|]. pose proof Hv as (Hwf & Hf & Hl & Hs).
  pose proof (λ k, channel_length t lead H W k Hv) as Hlen.
  pose proof (Hlen 0%nat ltac:(lia)) as H0.
  pose proof (Hlen 1%nat ltac:(lia)) as H1.
  pose proof (Hlen 2%nat ltac:(lia)) as H2. clear Hlen.
  set (r := channel t lead H W 0) in *.
  set (g := channel t lead H W 1) in *.
  set (b := channel t lead H W 2) in *.
  destruct (forward_data_length r g b) as (Ly & Lcb & Lcr); [lia..|].
  assert (Hvo : valid_image (of_channels (t_dtype t) lead H W
                  (y_data r g b) (cb_data r g b) (cr_data r g b)) lead H W).
  { apply of_channels_valid; [done|done|lia..]. }
  eexists. split; [by apply rgb2ycbcr_channels|]. fold r g b.
  split_and!; [by rewrite Hs|done|apply Hvo|].
  intros li h w Hb. rewrite Hs in Hb.
  destruct (in_bounds_image _ _ _ _ _ _ _ Hb Hl) as (Hli & Ho & _ & Hh & Hw).
  set (j := (flat_index lead li * (H * W) + (h * W + w))%nat).
  pose proof (tensor_at_channel t lead H W li 0 h w Hv Hli Ho ltac:(lia) Hh Hw) as ER.
  pose proof (tensor_at_channel t lead H W li 1 h w Hv Hli Ho ltac:(lia) Hh Hw) as EG.
  pose proof (tensor_at_channel t lead H W li 2 h w Hv Hli Ho ltac:(lia) Hh Hw) as EB.
  fold r g b j in ER, EG, EB.
  destruct (forward_data_lookup r g b j _ _ _ ER EG EB) as (EY & ECb & ECr).
  pose proof (tensor_at_channel _ lead H W li 0 h w Hvo Hli Ho ltac:(lia) Hh Hw) as OY.
  pose proof (tensor_at_channel _ lead H W li 1 h w Hvo Hli Ho ltac:(lia) Hh Hw) as OCb.
  pose proof (tensor_at_channel _ lead H W li 2 h w Hvo Hli Ho ltac:(lia) Hh Hw) as OCr.
  destruct (channel_of_channels (t_dtype t) lead H W
              (y_data r g b) (cb_data r g b) (cr_data r g b)) as (E0 & E1 & E2); [lia..|].
  rewrite E0 in OY. rewrite E1 in OCb. rewrite E2 in OCr. fold j in OY, OCb, OCr.
  unfold luma, chroma_blue, chroma_red, luma in *.
  cbn zeta. split_and!; congruence.
Qed.


(** ** Row-major offsets *)

Lemma flat_index_app s1 s2 i1 i2 :
  length i1 = length s1 →
  flat_index (s1 ++ s2) (i1 ++ i2)
  = fold_left (λ acc p, (acc * p.1 + p.2)%nat) (zip s2 i2) (flat_index s1 i1).
Proof.
  intros Hlen. unfold flat_index.
  rewrite zip_with_app by done. by rewrite fold_left_app.
Qed.

Lemma flat_index_plane L I H W h w :
  length I = length L →
  flat_index (L ++ [H; W]) (I ++ [h; w]) = (flat_index L I * (H * W) + (h * W + w))%nat.
Proof. intros Hlen. rewrite flat_index_app by done. simpl. lia. Qed.

Lemma fold_index_bound s i acc :
  Forall2 lt i s →
  (fold_left (λ acc p, (acc * p.1 + p.2)%nat) (zip s i) acc + 1 ≤ (acc + 1) * numel_of s)%nat.
Proof.
  intros Hb. revert acc. induction Hb as [|x n i s Hx Hb IH]; intros acc; simpl; [lia|].
  etrans; [apply IH|].
  replace ((acc + 1) * (n * numel_of s))%nat with (((acc + 1) * n) * numel_of s)%nat by lia.
  apply Nat.mul_le_mono_r. nia.
Qed.

Lemma flat_index_lt s i : in_bounds s i → (flat_index s i < numel_of s)%nat.
Proof. intros Hb. pose proof (fold_index_bound s i 0 Hb). unfold flat_index. lia. Qed.

(** ** Planes and grids *)

Lemma lookup_take_drop (l : list Qc) off sz q :
  (q < sz)%nat → take sz (drop off l) !! q = l !! (off + q)%nat.
Proof. intros Hq. by rewrite lookup_take_lt, lookup_drop. Qed.

Lemma map_planes_length n sz m f l :
  (∀ x, length (f x) = m) → length (map_planes n sz f l) = (n * m)%nat.
Proof.
  intros Hf. revert l. induction n as [|n IH]; intros l; simpl; [done|].
  by rewrite length_app, Hf, IH.
Qed.

Lemma lookup_map_planes n sz m f l p q :
  (∀ x, length (f x) = m) → (p < n)%nat → (q < m)%nat →
  map_planes n sz f l !! (p * m + q)%nat = f (take sz (drop (p * sz) l)) !! q.
Proof.
  intros Hf. revert l p. induction n as [|n IH]; intros l p Hp Hq; [lia|].
  cbn [map_planes]. destruct p as [|p].
  - rewrite lookup_app_l by (rewrite Hf; simpl; lia). done.
  - rewrite lookup_app_r by (rewrite Hf; simpl; lia). rewrite Hf.
    replace (S p * m + q - m)%nat with (p * m + q)%nat by (simpl; lia).
    rewrite IH by lia. by rewrite drop_drop.
Qed.

Lemma grid_length {A} (g : nat → nat → A) n m :
  length (flat_map (λ i, map (g i) (seq 0 m)) (seq 0 n)) = (n * m)%nat.
Proof.
  generalize 0%nat at 2. induction n as [|n IH]; intros s; simpl; [done|].
  by rewrite length_app, length_map, length_seq, IH.
Qed.

Lemma lookup_grid {A} (g : nat → nat → A) n m i j :
  (i < n)%nat → (j < m)%nat →
  flat_map (λ i, map (g i) (seq 0 m)) (seq 0 n) !! (i * m + j)%nat = Some (g i j).
Proof.
  intros Hi Hj.
  assert (Hgen : ∀ s, flat_map (λ i, map (g i) (seq 0 m)) (seq s n) !! (i * m + j)%nat
                      = Some (g (s + i)%nat j)); [|by rewrite Hgen].
  revert i Hi. induction n as [|n IH]; intros i Hi s; [lia|].
  cbn [seq flat_map]. destruct i as [|i].
  - rewrite lookup_app_l by (rewrite length_map, length_seq; simpl; lia).
    simpl. rewrite list_lookup_fmap, lookup_seq_lt by done. simpl. by rewrite Nat.add_0_r.
  - rewrite lookup_app_r by (rewrite length_map, length_seq; simpl; lia).
    rewrite length_map, length_seq.
    replace (S i * m + j - m)%nat with (i * m + j)%nat by (simpl; lia).
    rewrite IH by lia. do 2 f_equal. lia.
Qed.


(** ** The 2 by 2 average pooling *)

Lemma pool_out_even H : H ≠ 0%nat → pool_out (2 * H) 2 2 = H.
Proof.
  intros HH. unfold pool_out.
  destruct (Nat.ltb_spec (2 * H) 2) as [Hlt|Hge]; [lia|].
  replace (2 * H - 2)%nat with ((H - 1) * 2)%nat by lia.
  rewrite Nat.div_mul by done. lia.
Qed.

Lemma avg_pool_plane_length H W k s pl :
  length (avg_pool_plane H W k s pl) = (pool_out H k s * pool_out W k s)%nat.
Proof. unfold avg_pool_plane. apply grid_length. Qed.

Lemma nth_take_drop (l : list Qc) off sz q :
  (q < sz)%nat → nth q (take sz (drop off l)) 0 = nth (off + q) l 0.
Proof. intros Hq. by rewrite !nth_lookup, lookup_take_drop. Qed.

Lemma avg_window_2 W pl h0 w0 :
  avg_window W 2 pl h0 w0
  = (plane_at W pl h0 w0 + plane_at W pl h0 (w0 + 1)
     + plane_at W pl (h0 + 1) w0 + plane_at W pl (h0 + 1) (w0 + 1)) / Q2Qc 4.
Proof.
  unfold avg_window. cbn [seq flat_map map app fold_left].
  rewrite !Nat.add_0_r.
  replace (Qc_of_nat (2 * 2)) with (Q2Qc 4) by (by apply Qc_is_canon).
  f_equal. ring.
Qed.

Lemma avg_pool2d_even u lead C H W :
  poolable u lead C H W →
  ∃ u', avg_pool2d u 2 2 = Return u' ∧ block_mean u u' (lead ++ [C]) H W.
Proof.
  intros (Hwf & Hf & Hl & Hs & HC & HH & HW).
  assert (Hdim : dim u = (length lead + 3)%nat).
  { unfold dim. rewrite Hs, !length_app. simpl. lia. }
  assert (Hlead : take (dim u - 2) (t_shape u) = lead ++ [C]).
  { rewrite Hs, Hdim. rewrite take_app_length'; [done|]. rewrite length_app. simpl. lia. }
  assert (HnH : nth (dim u - 2) (t_shape u) 0%nat = (2 * H)%nat).
  { rewrite Hs, Hdim. destruct lead as [|? [|? ?]]; simpl in *; try done; lia. }
  assert (HnW : nth (dim u - 1) (t_shape u) 0%nat = (2 * W)%nat).
  { rewrite Hs, Hdim. destruct lead as [|? [|? ?]]; simpl in *; try done; lia. }
  unfold avg_pool2d.
  rewrite bool_decide_eq_false_2 by lia.
  rewrite Hf. cbn [negb].
  rewrite Hlead, HnH, HnW, !pool_out_even by done.
  replace (match t_shape u with
           | [c; h; w] => bool_decide (c ≠ 0 ∧ h ≠ 0 ∧ w ≠ 0)%nat
           | [_; c; h; w] => bool_decide (c ≠ 0 ∧ h ≠ 0 ∧ w ≠ 0)%nat
           | _ => false
           end) with true.
  2:{ rewrite Hs. destruct lead as [|? [|? ?]]; simpl in *; try lia;
        symmetry; apply bool_decide_eq_true_2; lia. }
  cbn [negb]. rewrite bool_decide_eq_false_2 by lia.
  eexists. split; [done|].
  unfold tensor_wf in Hwf. rewrite Hs, numel_of_app in Hwf.
  change (numel_of [(2 * H)%nat; (2 * W)%nat]) with (2 * H * (2 * W * 1))%nat in Hwf.
  assert (Hlenf : ∀ x, length (avg_pool_plane (2 * H) (2 * W) 2 2 x) = (H * W)%nat).
  { intros x. by rewrite avg_pool_plane_length, !pool_out_even. }
  split_and!; [done|done| |].
  - unfold tensor_wf. cbn [t_data t_shape].
    rewrite (map_planes_length _ _ (H * W)) by done.
    rewrite !numel_of_app. simpl. lia.
  - intros I i j HI Hi Hj.
    pose proof (Forall2_length _ _ _ HI) as HlenI.
    pose proof (flat_index_lt _ _ HI) as Hp.
    set (p := flat_index (lead ++ [C]) I) in *.
    assert (Hq : (i * W + j < H * W)%nat).
    { assert ((i + 1) * W ≤ H * W)%nat by (apply Nat.mul_le_mono_r; lia). lia. }
    unfold tensor_at at 1. cbn [t_data t_shape].
    rewrite flat_index_plane by done. fold p.
    rewrite nth_lookup, (lookup_map_planes _ _ (H * W)) by done.
    unfold avg_pool_plane. rewrite !pool_out_even by done.
    rewrite lookup_grid by done. cbn [default from_option id].
    rewrite avg_window_2. unfold plane_at, tensor_at.
    rewrite Hs, !flat_index_plane by done. fold p.
    assert (Hrow : ∀ a b, (a < 2)%nat → (b < 2)%nat →
              ((i * 2 + a) * (2 * W) + (j * 2 + b) < 2 * H * (2 * W))%nat).
    { intros a b Ha Hb.
      assert ((i * 2 + a + 1) * (2 * W) ≤ 2 * H * (2 * W))%nat
        by (apply Nat.mul_le_mono_r; lia). lia. }
    rewrite !nth_take_drop.
    + do 2 f_equal; [do 2 f_equal|]; f_equal; lia.
    + pose proof (Hrow 1 1)%nat. lia.
    + pose proof (Hrow 1 0)%nat. lia.
    + pose proof (Hrow 0 1)%nat. lia.
    + pose proof (Hrow 0 0)%nat. lia.
Qed.


(** ** C4: 4:4:4 to 4:2:0 *)

Lemma chunk_packed t N H W :
  t_shape t = image_shape [N] H W →
  chunk t 3 1 = Return [plane_of t [N] H W 0; plane_of t [N] H W 1; plane_of t [N] H W 2].
Proof.
  intros Hs. unfold plane_of, channel.
  rewrite <- !(narrow_channel t [N] H W _ Hs).
  unfold chunk, dim. rewrite Hs. done.
Qed.

Lemma plane_of_poolable t lead H W k :
  valid_image t lead (2 * H) (2 * W) → (k < 3)%nat → H ≠ 0%nat → W ≠ 0%nat →
  poolable (plane_of t lead (2 * H) (2 * W) k) lead 1 H W.
Proof.
  intros Hv Hk HH HW. pose proof Hv as (Hwf & Hf & Hl & Hs).
  split_and!; try done.
  - unfold tensor_wf, plane_of. cbn [t_data t_shape].
    rewrite (channel_length _ _ _ _ _ Hv Hk).
    unfold plane_shape. rewrite numel_of_app. simpl. lia.
  - unfold plane_of, plane_shape. cbn [t_shape]. by rewrite <- (assoc_L (++)).
Qed.

(** The elements of plane [k] are the elements of channel [k]. *)
Lemma plane_of_at t lead H W li k h w :
  valid_image t lead H W → in_bounds (t_shape t) (li ++ [k; h; w]) →
  tensor_at (plane_of t lead H W k) (li ++ [0%nat; h; w]) = tensor_at t (li ++ [k; h; w]).
Proof.
  intros Hv Hb. pose proof Hv as (Hwf & Hf & Hl & Hs). rewrite Hs in Hb.
  destruct (in_bounds_image _ _ _ _ _ _ _ Hb Hl) as (Hli & Ho & Hk & Hh & Hw).
  pose proof (tensor_at_channel t lead H W li k h w Hv Hli Ho Hk Hh Hw) as E.
  unfold tensor_at at 1, plane_of, plane_shape. cbn [t_data t_shape].
  rewrite flat_index_app by done. cbn [zip_with fold_left fst snd].
  rewrite nth_lookup.
  replace (((flat_index lead li * 1 + 0) * H + h) * W + w)%nat
    with (flat_index lead li * (H * W) + (h * W + w))%nat by lia.
  by rewrite E.
Qed.

Lemma yuv_444_to_420_triple y u v lead C H W :
  poolable u lead C H W → poolable v lead C H W →
  ∃ u' v', yuv_444_to_420 (PyTuple [y; PyTensor u; PyTensor v])
           = Return (PyTuple [y; PyTensor u'; PyTensor v'])
           ∧ block_mean u u' (lead ++ [C]) H W ∧ block_mean v v' (lead ++ [C]) H W.
Proof.
  intros Hu Hv.
  destruct (avg_pool2d_even u lead C H W Hu) as (u' & Eu & Bu).
  destruct (avg_pool2d_even v lead C H W Hv) as (v' & Ev & Bv).
  exists u', v'. split; [|done].
  unfold yuv_444_to_420, _downsample. cbn. by rewrite Eu, Ev.
Qed.

Lemma yuv_444_to_420_packed t N H W :
  valid_image t [N] (2 * H) (2 * W) → H ≠ 0%nat → W ≠ 0%nat →
  ∃ U' V', yuv_444_to_420 (PyTensor t)
           = Return (PyTuple [PyTensor (plane_of t [N] (2 * H) (2 * W) 0);
                              PyTensor U'; PyTensor V'])
           ∧ block_mean (plane_of t [N] (2 * H) (2 * W) 1) U' [N; 1%nat] H W
           ∧ block_mean (plane_of t [N] (2 * H) (2 * W) 2) V' [N; 1%nat] H W.
Proof.
  intros Hv HH HW. pose proof Hv as (Hwf & Hf & Hl & Hs).
  destruct (yuv_444_to_420_triple (PyTensor (plane_of t [N] (2 * H) (2 * W) 0))
              (plane_of t [N] (2 * H) (2 * W) 1) (plane_of t [N] (2 * H) (2 * W) 2)
              [N] 1 H W) as (U' & V' & E & BU & BV);
    [apply plane_of_poolable; done || lia..|].
  exists U', V'. split; [|done]. rewrite <- E.
  unfold yuv_444_to_420. cbn [isinstance_Tensor as_Tensor mbind result_bind].
  rewrite (chunk_packed _ _ _ _ Hs). done.
Qed.

(** C4. On a packed tensor [(N,3,2H,2W)] and on an explicit triple
    [(Y,U,V)] whose chroma planes are [(C,2H,2W)] or [(N,C,2H,2W)]
    (floating point, no empty axis), [yuv_444_to_420] returns a triple.
    Its first element is the luma plane as it came in: the object [Y]
    itself for a triple, plane 0 of the packed tensor otherwise.  Its
    second and third elements have spatial sizes [H] and [W], and each of
    their elements [(i, j)] is the arithmetic mean of the 2 by 2 block
    [(2i..2i+1, 2j..2j+1)] of the same plane of U, respectively V; the
    blocks of two different output elements share no input element. *)
Theorem yuv_444_to_420_block_means :
  (∀ t N H W,
     valid_image t [N] (2 * H) (2 * W) → H ≠ 0%nat → W ≠ 0%nat →
     let Y := plane_of t [N] (2 * H) (2 * W) 0 in
     let U := plane_of t [N] (2 * H) (2 * W) 1 in
     let V := plane_of t [N] (2 * H) (2 * W) 2 in
     (∀ k n h w, in_bounds (t_shape t) [n; k; h; w] →
        tensor_at (plane_of t [N] (2 * H) (2 * W) k) [n; 0%nat; h; w]
        = tensor_at t [n; k; h; w])
     ∧ ∃ U' V', yuv_444_to_420 (PyTensor t)
                = Return (PyTuple [PyTensor Y; PyTensor U'; PyTensor V'])
                ∧ block_mean U U' [N; 1%nat] H W ∧ block_mean V V' [N; 1%nat] H W)
  ∧ (∀ Y U V lead C H W,
       poolable U lead C H W → poolable V lead C H W →
       ∃ U' V', yuv_444_to_420 (PyTuple [Y; PyTensor U; PyTensor V])
                = Return (PyTuple [Y; PyTensor U'; PyTensor V'])
                ∧ block_mean U U' (lead ++ [C]) H W ∧ block_mean V V' (lead ++ [C]) H W)
  ∧ (∀ i j i' j' a b a' b' : nat,
       (a < 2)%nat → (b < 2)%nat → (a' < 2)%nat → (b' < 2)%nat →
       (2 * i + a = 2 * i' + a')%nat → (2 * j + b = 2 * j' + b')%nat →
       i = i' ∧ j = j').
Proof.
  split; [|split; [apply yuv_444_to_420_triple|lia]].
  intros t N H W Hv HH HW Y U V. split.
  - intros k n h w Hb. by apply (plane_of_at t [N] _ _ [n]).
  - by apply yuv_444_to_420_packed.
Qed.

(** ** C5: the triple check of [yuv_420_to_444] *)

Lemma wrap_dim_not_ValueError rank d msg : wrap_dim rank d ≠ Raise (ValueError msg).
Proof. unfold wrap_dim. by case_bool_decide. Qed.

Lemma interpolate_bilinear_not_ValueError t k b msg :
  interpolate_bilinear t k b ≠ Raise (ValueError msg).
Proof.
  unfold interpolate_bilinear.
  destruct (t_shape t) as [|? [|? [|? [|? [|? ?]]]]]; try done.
  destruct (is_floating_point t); cbn [negb]; [|done].
  by repeat case_bool_decide.
Qed.

Lemma cat_not_ValueError ts d msg : cat ts d ≠ Raise (ValueError msg).
Proof.
  unfold cat. destruct ts as [|t ts]; [done|].
  destruct (filter _ _) as [|t0 rest]; [done|].
  unfold wrap_dim. case_bool_decide; [|done]. cbn [mbind result_bind].
  by destruct (forallb _ _).
Qed.

Lemma existsb_not_tensor (items : list pyobj) :
  existsb (λ c, negb (isinstance_Tensor c)) items = true
  ↔ ∃ c, c ∈ items ∧ isinstance_Tensor c = false.
Proof.
  rewrite existsb_exists. split.
  - intros (c & Hin & Hc). exists c. rewrite list_elem_of_In.
    split; [done|]. by destruct (isinstance_Tensor c).
  - intros (c & Hin & Hc). exists c. rewrite <- list_elem_of_In.
    split; [done|]. by rewrite Hc.
Qed.

(** C5. On a collection [items], [yuv_420_to_444] raises [InvalidTriple]
    (the [ValueError] "Expected a tuple of 3 torch tensors") exactly when
    [items] does not have three elements or one of its elements is not a
    tensor; so it does on two and on four elements, and on three elements one
    of which is a plain number.  When it raises, it returns no value. *)
Theorem yuv_420_to_444_invalid_triple (items : list pyobj) (return_tuple : option bool) :
  (yuv_420_to_444 (PyTuple items) return_tuple = Raise InvalidTriple
   ↔ length items ≠ 3%nat ∨ ∃ c, c ∈ items ∧ isinstance_Tensor c = false)
  ∧ (length items = 2%nat ∨ length items = 4%nat →
     yuv_420_to_444 (PyTuple items) return_tuple = Raise InvalidTriple)
  ∧ (∀ x, length items = 3%nat → PyFloat x ∈ items →
     yuv_420_to_444 (PyTuple items) return_tuple = Raise InvalidTriple)
  ∧ (yuv_420_to_444 (PyTuple items) return_tuple = Raise InvalidTriple →
     is_Return (yuv_420_to_444 (PyTuple items) return_tuple) = false).
Proof.
  assert (Hiff : yuv_420_to_444 (PyTuple items) return_tuple = Raise InvalidTriple
     ↔ length items ≠ 3%nat ∨ ∃ c, c ∈ items ∧ isinstance_Tensor c = false).
  { unfold yuv_420_to_444, lazy_or. cbn zeta.
    cbn [py_len py_iter mbind result_bind mret result_ret].
    destruct (decide (length items = 3%nat)) as [Hlen|Hlen].
    - rewrite bool_decide_eq_true_2 by done. cbn [negb].
      destruct (existsb _ items) eqn:Hex.
      + split; [|done]. intros _. right. by apply existsb_not_tensor.
      + split.
        * intros Hraise. exfalso.
          destruct items as [|y [|u [|v [|? ?]]]]; try done.
          cbn in Hex. apply orb_false_elim in Hex as [Hy Hex].
          apply orb_false_elim in Hex as [Hu Hex].
          apply orb_false_elim in Hex as [Hv _].
          destruct y as [ty| | |], u as [tu| | |], v as [tv| | |]; try done.
          cbn [unpack3 mbind result_bind _upsample as_Tensor] in Hraise.
          destruct (interpolate_bilinear tu 2 false) as [u'|e] eqn:Eu.
          2:{ cbn in Hraise. injection Hraise as ->.
              by apply interpolate_bilinear_not_ValueError in Eu. }
          cbn [mbind result_bind] in Hraise.
          destruct (interpolate_bilinear tv 2 false) as [v'|e] eqn:Ev.
          2:{ cbn in Hraise. injection Hraise as ->.
              by apply interpolate_bilinear_not_ValueError in Ev. }
          cbn [mbind result_bind] in Hraise.
          destruct (default false return_tuple); [done|].
          cbn [as_Tensor_args as_Tensor_arg mbind result_bind] in Hraise.
          destruct (cat [ty; u'; v'] 1) as [out|e] eqn:Ec; [done|].
          cbn [mbind result_bind] in Hraise. injection Hraise as ->.
          by apply cat_not_ValueError in Ec.
        * intros [?|Hc]; [done|]. apply existsb_not_tensor in Hc. congruence.
    - rewrite bool_decide_eq_false_2 by done. cbn [negb]. split; [by left|done]. }
  split_and!; [done| | |by intros ->].
  - intros Hlen. apply Hiff. left. lia.
  - intros x Hlen Hin. apply Hiff. right. by exists (PyFloat x).
Qed.


(** ** The bilinear upsampling *)

Lemma flat_map_const_length {A B} (f : A → list B) m l :
  (∀ x, length (f x) = m) → length (flat_map f l) = (length l * m)%nat.
Proof.
  intros Hf. induction l as [|x l IH]; simpl; [done|].
  by rewrite length_app, Hf, IH.
Qed.

Lemma upsample_bilinear_plane_length H W OH OW b scale pl :
  length (upsample_bilinear_plane H W OH OW b scale pl) = (OH * OW)%nat.
Proof.
  unfold upsample_bilinear_plane.
  rewrite (flat_map_const_length _ OW); [by rewrite length_seq|].
  intros oh. destruct (compute_source_index_and_lambda _ oh H OH b) as [[[? ?] ?] ?].
  by rewrite length_map, length_seq.
Qed.

Lemma interpolate_bilinear_shape u N C h w :
  upsamplable u N C h w →
  ∃ u', interpolate_bilinear u 2 false = Return u'
        ∧ t_shape u' = [N; C; (2 * h)%nat; (2 * w)%nat]
        ∧ t_dtype u' = t_dtype u ∧ tensor_wf u'.
Proof.
  intros (Hwf & Hf & Hs & HC & Hh & Hw).
  unfold interpolate_bilinear. rewrite Hs, Hf. cbn [negb].
  rewrite !bool_decide_eq_false_2 by lia.
  eexists. split; [done|]. cbn [t_shape t_dtype t_data].
  replace (h * 2)%nat with (2 * h)%nat by lia.
  replace (w * 2)%nat with (2 * w)%nat by lia.
  split_and!; try done.
  unfold tensor_wf. cbn [t_shape t_data].
  rewrite (map_planes_length _ _ (2 * h * (2 * w))).
  - simpl. lia.
  - intros x. apply upsample_bilinear_plane_length.
Qed.

(** Concatenating three planes [(N,1,H,W)] along axis 1. *)
Lemma cat_planes_axis1 a b c N H W :
  t_shape a = plane_shape [N] H W → t_shape b = plane_shape [N] H W →
  t_shape c = plane_shape [N] H W →
  cat [a; b; c] 1 =
  Return (of_channels (promote_types (t_dtype a) (promote_types (t_dtype b)
                         (promote_types (t_dtype c) (t_dtype a))))
                      [N] H W (t_data a) (t_data b) (t_data c)).
Proof.
  intros Ha Hb Hc. unfold of_channels.
  rewrite <- (cat_planes a b c [N] H W); [|simpl; lia|done..].
  unfold cat. rewrite !filter_cons, Ha, Hb, Hc, filter_nil.
  destruct (decide (plane_shape [N] H W ≠ [0%nat])) as [_|Hn];
    [|destruct Hn; apply plane_shape_not_empty1].
  unfold dim. rewrite Ha. done.
Qed.


(** ** C6: the two result forms of [yuv_420_to_444] *)

(** C6. For a triple [(Y, U, V)] of tensors in the 4:2:0 layout, [Y] of
    shape [(N,1,2h,2w)] and the chroma planes of shape [(N,1,h,w)]
    (floating point, no empty axis), with [U'] and [V'] the planes
    [_upsample] returns on [U] and [V]: with [return_tuple = true] the
    result is the three-element tuple [(Y, U', V')], its first element the
    object [Y] itself; with [return_tuple = false], and when the argument
    is left out (the parameter's default), the result is one tensor of shape [(N,3,2h,2w)],
    channel axis of length 3, whose channels 0, 1 and 2 hold the elements
    of [Y], [U'] and [V']. *)
Theorem yuv_420_to_444_results Y U V N h w :
  tensor_wf Y → t_shape Y = [N; 1%nat; (2 * h)%nat; (2 * w)%nat] →
  upsamplable U N 1 h w → upsamplable V N 1 h w →
  ∃ U' V',
    _upsample (PyTensor U) = Return U' ∧ _upsample (PyTensor V) = Return V'
    ∧ yuv_420_to_444 (PyTuple [PyTensor Y; PyTensor U; PyTensor V]) (Some true)
      = Return (PyTuple [PyTensor Y; PyTensor U'; PyTensor V'])
    ∧ ∃ out,
        yuv_420_to_444 (PyTuple [PyTensor Y; PyTensor U; PyTensor V]) (Some false)
        = Return (PyTensor out)
        ∧ yuv_420_to_444 (PyTuple [PyTensor Y; PyTensor U; PyTensor V]) None
          = Return (PyTensor out)
        ∧ t_shape out = [N; 3%nat; (2 * h)%nat; (2 * w)%nat]
        ∧ size_at out 1 = Return 3%nat
        ∧ tensor_wf out
        ∧ channel out [N] (2 * h) (2 * w) 0 = t_data Y
        ∧ channel out [N] (2 * h) (2 * w) 1 = t_data U'
        ∧ channel out [N] (2 * h) (2 * w) 2 = t_data V'.
Proof.
  intros HwfY HsY HU HV.
  destruct (interpolate_bilinear_shape U N 1 h w HU) as (U' & EU & HsU & HdU & HwfU).
  destruct (interpolate_bilinear_shape V N 1 h w HV) as (V' & EV & HsV & HdV & HwfV).
  exists U', V'.
  assert (Hrun : ∀ b, yuv_420_to_444 (PyTuple [PyTensor Y; PyTensor U; PyTensor V]) b
            = if default false b
              then Return (PyTuple [PyTensor Y; PyTensor U'; PyTensor V'])
              else out ← cat [Y; U'; V'] 1; Return (PyTensor out)).
  { intros b. unfold yuv_420_to_444, _upsample. cbn. rewrite EU. cbn. rewrite EV. done. }
  split_and!; [done|done|by rewrite Hrun|].
  rewrite !Hrun. cbn [default from_option id].
  rewrite (cat_planes_axis1 Y U' V' N (2 * h) (2 * w)) by done.
  eexists. split; [done|]. split; [done|].
  unfold tensor_wf in HwfY, HwfU, HwfV. rewrite HsY in HwfY. rewrite HsU in HwfU.
  rewrite HsV in HwfV.
  assert (Hn : numel_of [N; 1%nat; (2 * h)%nat; (2 * w)%nat]
               = (numel_of [N] * (2 * h * (2 * w)))%nat) by (simpl; lia).
  rewrite Hn in HwfY, HwfU, HwfV.
  split_and!; [done|done| |by apply channel_of_channels..].
  unfold tensor_wf, of_channels. cbn [t_data t_shape].
  rewrite numel_image_shape. by apply cat_data3_length.
Qed.


(** ** C7: resolutions through 4:2:0 and back *)

Lemma block_mean_upsamplable u u' N H W :
  is_floating_point u = true → H ≠ 0%nat → W ≠ 0%nat →
  block_mean u u' [N; 1%nat] H W → upsamplable u' N 1 H W.
Proof.
  intros Hf HH HW (Hs & Hd & Hwf & _). split_and!; try done.
  unfold is_floating_point in *. by rewrite Hd.
Qed.

(** C7. For every valid tensor of shape [(N,3,8,8)], [yuv_444_to_420]
    returns a triple whose chroma planes have shape [(N,1,4,4)] (the luma
    plane keeps [(N,1,8,8)]); on that triple [yuv_420_to_444] returns
    chroma planes of shape [(N,1,8,8)], each the bilinear interpolation
    with scale factor 2 (corners not aligned) of the [(N,1,4,4)] plane, and,
    as one tensor, the original shape [(N,3,8,8)]. *)
Theorem resolution_444_420_444 t N :
  valid_image t [N] 8 8 →
  ∃ Y U V,
    yuv_444_to_420 (PyTensor t) = Return (PyTuple [PyTensor Y; PyTensor U; PyTensor V])
    ∧ t_shape Y = [N; 1; 8; 8]%nat
    ∧ t_shape U = [N; 1; 4; 4]%nat ∧ t_shape V = [N; 1; 4; 4]%nat
    ∧ ∃ U' V' out,
        interpolate_bilinear U 2 false = Return U'
        ∧ interpolate_bilinear V 2 false = Return V'
        ∧ yuv_420_to_444 (PyTuple [PyTensor Y; PyTensor U; PyTensor V]) (Some true)
          = Return (PyTuple [PyTensor Y; PyTensor U'; PyTensor V'])
        ∧ t_shape U' = [N; 1; 8; 8]%nat ∧ t_shape V' = [N; 1; 8; 8]%nat
        ∧ yuv_420_to_444 (PyTuple [PyTensor Y; PyTensor U; PyTensor V]) None
          = Return (PyTensor out)
        ∧ t_shape out = t_shape t.
Proof.
  intros Hv. pose proof Hv as (Hwf & Hf & Hl & Hs).
  destruct (yuv_444_to_420_packed t N 4 4 Hv) as (U & V & E & BU & BV); [done..|].
  change (2 * 4)%nat with 8%nat in *.
  exists (plane_of t [N] 8 8 0), U, V.
  assert (HU : upsamplable U N 1 4 4)
    by (apply (block_mean_upsamplable (plane_of t [N] 8 8 1)); [exact Hf|done|done|exact BU]).
  assert (HV : upsamplable V N 1 4 4)
    by (apply (block_mean_upsamplable (plane_of t [N] 8 8 2)); [exact Hf|done|done|exact BV]).
  destruct BU as (HsU & _), BV as (HsV & _).
  split_and!; [done..|].
  destruct (interpolate_bilinear_shape U N 1 4 4 HU) as (U' & EU & HsU' & HdU & HwfU).
  destruct (interpolate_bilinear_shape V N 1 4 4 HV) as (V' & EV & HsV' & HdV & HwfV).
  change (2 * 4)%nat with 8%nat in *.
  assert (Hrun : ∀ b, yuv_420_to_444 (PyTuple [PyTensor (plane_of t [N] 8 8 0);
                                               PyTensor U; PyTensor V]) b
            = if default false b
              then Return (PyTuple [PyTensor (plane_of t [N] 8 8 0);
                                    PyTensor U'; PyTensor V'])
              else out ← cat [plane_of t [N] 8 8 0; U'; V'] 1; Return (PyTensor out)).
  { intros b. unfold yuv_420_to_444, _upsample. cbn. rewrite EU. cbn. rewrite EV. done. }
  eexists U', V', _. split_and!; [done|done|by rewrite Hrun|done|done| |].
  - rewrite Hrun. cbn [default from_option id].
    rewrite (cat_planes_axis1 _ U' V' N 8 8) by done. done.
  - by rewrite Hs.
Qed.


(** ** C9: the range of the forward transform *)

(** Moves an order statement on [Qc] to [Q], where [lra] decides it. *)
Ltac Qc_to_Q :=
  unfold Qcle, Qclt, Qcdiv, Qcminus, Qcopp, Qcplus, Qcmult in *; cbn [this Q2Qc] in *;
  repeat match goal with
         | H : context [Qred _] |- _ => rewrite Qred_correct in H
         | |- context [Qred _] => rewrite Qred_correct
         end.

Lemma inv_one_minus_Kb : / (1 - Kb) = Q2Qc (5000 # 4639).
Proof. by apply Qc_is_canon. Qed.

Lemma inv_one_minus_Kr : / (1 - Kr) = Q2Qc (5000 # 3937).
Proof. by apply Qc_is_canon. Qed.

Lemma pixel_range (R G B : Qc) :
  0 ≤ R ≤ 1 → 0 ≤ G ≤ 1 → 0 ≤ B ≤ 1 →
  0 ≤ luma R G B ≤ 1
  ∧ - Q2Qc 0.5 ≤ Q2Qc 0.5 * (B - luma R G B) / (1 - Kb) ≤ Q2Qc 0.5
  ∧ - Q2Qc 0.5 ≤ Q2Qc 0.5 * (R - luma R G B) / (1 - Kr) ≤ Q2Qc 0.5
  ∧ 0 ≤ chroma_blue R G B ≤ 1
  ∧ 0 ≤ chroma_red R G B ≤ 1.
Proof.
  intros [HR0 HR1] [HG0 HG1] [HB0 HB1].
  unfold chroma_blue, chroma_red, luma.
  unfold Qcdiv. rewrite inv_one_minus_Kb, inv_one_minus_Kr. unfold Kr, Kg, Kb.
  destruct R as [r Hr], G as [g Hg], B as [b Hb].
  Qc_to_Q.
  repeat split; lra.
Qed.

Lemma Forall_narrow_data (P : Qc → Prop) outer blk start len l :
  Forall P l → Forall P (narrow_data outer blk start len l).
Proof.
  revert l. induction outer as [|o IH]; intros l Hl; simpl; [done|].
  apply Forall_app. split.
  - by apply Forall_take, Forall_drop.
  - by apply IH, Forall_drop.
Qed.

Lemma Forall_cat_data3 (P : Qc → Prop) outer n a b c :
  Forall P a → Forall P b → Forall P c →
  Forall P (cat_data outer [(n, a); (n, b); (n, c)]).
Proof.
  revert a b c. induction outer as [|o IH]; intros a b c Ha Hb Hc; [done|].
  cbn [cat_data flat_map map fst snd]. rewrite app_nil_r.
  repeat (apply Forall_app; split); try by apply Forall_take.
  by apply IH; apply Forall_drop.
Qed.

Lemma forward_data_range r g b :
  length r = length g → length g = length b →
  Forall unit_interval r → Forall unit_interval g → Forall unit_interval b →
  Forall unit_interval (y_data r g b) ∧ Forall unit_interval (cb_data r g b)
  ∧ Forall unit_interval (cr_data r g b).
Proof.
  revert r g b. refine (list_ind3 _ _ _); [done|].
  intros R G B r g b IH Hr Hg Hb.
  apply Forall_cons in Hr as [HR Hr], Hg as [HG Hg], Hb as [HB Hb].
  destruct (IH Hr Hg Hb) as (IHy & IHcb & IHcr).
  destruct (pixel_range R G B HR HG HB) as (Hy & _ & _ & Hcb & Hcr).
  split_and!; apply Forall_cons; done.
Qed.

(** C9. For every valid image tensor all of whose elements lie in
    [[0, 1]], every element of the tensor [rgb2ycbcr] returns lies in
    [[0, 1]].  Pixel by pixel: for R, G, B in [[0, 1]], Y lies in [[0, 1]]
    (the weights are non-negative and sum to 1), and [0.5*(B - Y)/(1 - Kb)]
    and [0.5*(R - Y)/(1 - Kr)] lie in [[-0.5, 0.5]]. *)
Theorem rgb2ycbcr_unit_range t lead H W :
  valid_image t lead H W → Forall unit_interval (t_data t) →
  (∃ out, rgb2ycbcr (PyTensor t) = Return out ∧ Forall unit_interval (t_data out))
  ∧ (0 ≤ Kr ∧ 0 ≤ Kg ∧ 0 ≤ Kb ∧ Kr + Kg + Kb = 1)
  ∧ ∀ R G B, unit_interval R → unit_interval G → unit_interval B →
      let Y := Kr * R + Kg * G + Kb * B in
      unit_interval Y
      ∧ - Q2Qc 0.5 ≤ Q2Qc 0.5 * (B - Y) / (1 - Kb) ≤ Q2Qc 0.5
      ∧ - Q2Qc 0.5 ≤ Q2Qc 0.5 * (R - Y) / (1 - Kr) ≤ Q2Qc 0.5.
Proof.
  intros Hv Hunit. split_and!.
  - eexists. split; [by apply rgb2ycbcr_channels|].
    unfold of_channels. cbn [t_data].
    pose proof (channel_length t lead H W 0 Hv ltac:(lia)) as H0.
    pose proof (channel_length t lead H W 1 Hv ltac:(lia)) as H1.
    pose proof (channel_length t lead H W 2 Hv ltac:(lia)) as H2.
    destruct (forward_data_range (channel t lead H W 0) (channel t lead H W 1)
                (channel t lead H W 2)) as (Hy & Hcb & Hcr);
      [lia|lia|by apply Forall_narrow_data..|].
    by apply Forall_cat_data3.
  - done.
  - done.
  - done.
  - by apply weights_sum.
  - intros R G B HR HG HB Y.
    destruct (pixel_range R G B HR HG HB) as (Hy & Hb & Hr & _). done.
Qed.


(** ** C8: the weights and the uniform white image *)

Lemma uniform_pixel (x : Qc) :
  luma x x x = x ∧ chroma_blue x x x = Q2Qc 0.5 ∧ chroma_red x x x = Q2Qc 0.5.
Proof.
  assert (Hl : luma x x x = x).
  { unfold luma. rewrite <- !Qcmult_plus_distr_l, weights_sum. ring. }
  unfold chroma_blue, chroma_red. rewrite Hl.
  replace (x - x) with 0 by ring.
  unfold Qcdiv. rewrite Qcmult_0_r, !Qcmult_0_l. split_and!; [done|ring..].
Qed.

(** C8. The weights stored under ["ITU-R_BT.709"] are
    [(0.2126, 0.7152, 0.0722)]; they satisfy [Kg = 1 - Kr - Kb], hence
    [Kr + Kg + Kb = 1].  Consequently a pixel with R = G = B has Y equal to
    that value and Cb = Cr = 0.5, and on the uniform tensor of shape
    [(1,3,4,4)] with R = G = B = 1 everywhere [rgb2ycbcr] returns the tensor
    of that shape whose 16 Y elements are 1 and whose 16 Cb and 16 Cr
    elements are 0.5. *)
Theorem weights_and_uniform_white :
  getitem YCBCR_WEIGHTS "ITU-R_BT.709" = Return (Kr, Kg, Kb)
  ∧ (Kr, Kg, Kb) = (Q2Qc 0.2126, Q2Qc 0.7152, Q2Qc 0.0722)
  ∧ Kg = 1 - Kr - Kb
  ∧ Kr + Kg + Kb = 1
  ∧ (∀ x, luma x x x = x ∧ chroma_blue x x x = Q2Qc 0.5 ∧ chroma_red x x x = Q2Qc 0.5)
  ∧ (∀ d, dtype_is_floating_point d = true →
       rgb2ycbcr (PyTensor (uniform_ones d))
       = Return {| t_dtype := d; t_shape := [1; 3; 4; 4]%nat;
                   t_data := replicate 16 1 ++ replicate 16 (Q2Qc 0.5)
                             ++ replicate 16 (Q2Qc 0.5) |}).
Proof.
  split_and!; [done|done|by apply Qc_is_canon|apply weights_sum|apply uniform_pixel|].
  intros d Hd.
  assert (Hv : valid_image (uniform_ones d) [1%nat] 4 4).
  { by split_and!. }
  rewrite (rgb2ycbcr_channels _ _ _ _ Hv). cbn zeta. f_equal.
  unfold of_channels. cbn [t_dtype uniform_ones]. f_equal.
  assert (Hch : ∀ k, (k < 3)%nat → channel (uniform_ones d) [1%nat] 4 4 k = replicate 16 1).
  { intros k Hk. do 3 (destruct k as [|k]; [done|]). lia. }
  rewrite !Hch by lia.
  assert (Hy : y_data (replicate 16 1) (replicate 16 1) (replicate 16 1) = replicate 16 1).
  { unfold y_data. cbn. destruct (uniform_pixel 1) as (Hl & _). unfold luma in Hl.
    by rewrite !Hl. }
  assert (Hcb : cb_data (replicate 16 1) (replicate 16 1) (replicate 16 1)
                = replicate 16 (Q2Qc 0.5)).
  { unfold cb_data. rewrite Hy. cbn.
    destruct (uniform_pixel 1) as (Hl & Hb & _). unfold chroma_blue in Hb.
    rewrite Hl in Hb. by rewrite !Hb. }
  assert (Hcr : cr_data (replicate 16 1) (replicate 16 1) (replicate 16 1)
                = replicate 16 (Q2Qc 0.5)).
  { unfold cr_data. rewrite Hy. cbn.
    destruct (uniform_pixel 1) as (Hl & _ & Hr). unfold chroma_red in Hr.
    rewrite Hl in Hr. by rewrite !Hr. }
  rewrite Hy, Hcb, Hcr. done.
Qed.


(** ** The store-passing functions keep the caller's objects *)

Lemma extends_refl σ : Heap.extends σ σ.
Proof. by split. Qed.

Lemma extends_trans σ1 σ2 σ3 :
  Heap.extends σ1 σ2 → Heap.extends σ2 σ3 → Heap.extends σ1 σ3.
Proof. intros [H1 E1] [H2 E2]. split; [by etrans|congruence]. Qed.

Lemma fresh_loc_unused (m : gmap Heap.loc Tensor) : m !! fresh (dom m) = None.
Proof. apply (not_elem_of_dom (D:=gset positive)). apply is_fresh. Qed.

Lemma alloc_extends t σ : Heap.extends σ (Heap.alloc t σ).2.
Proof. split; [|done]. apply insert_subseteq, fresh_loc_unused. Qed.

Lemma preserving_ret {A} (a : A) : preserving (mret a).
Proof. intros σ. apply extends_refl. Qed.

Lemma preserving_raise {A} e : preserving (Heap.raise (A:=A) e).
Proof. intros σ. apply extends_refl. Qed.

Lemma preserving_lift {A} (r : result A) : preserving (Heap.lift r).
Proof. intros σ. apply extends_refl. Qed.

Lemma preserving_load l : preserving (Heap.load l).
Proof. intros σ. unfold Heap.load. destruct (_ !! l); apply extends_refl. Qed.

Lemma preserving_alloc t : preserving (Heap.alloc t).
Proof. intros σ. apply alloc_extends. Qed.

Lemma preserving_read : preserving Heap.read_YCBCR_WEIGHTS.
Proof. intros σ. apply extends_refl. Qed.

Lemma preserving_bind {A B} (m : Heap.M A) (f : A → Heap.M B) :
  preserving m → (∀ a, preserving (f a)) → preserving (m ≫= f).
Proof.
  intros Hm Hf σ. unfold mbind, Heap.M_bind.
  specialize (Hm σ). destruct (m σ) as [[a|e] σ']; [|done].
  eapply extends_trans; [exact Hm|apply Hf].
Qed.

Create HintDb preserving.
#[local] Hint Resolve preserving_ret preserving_raise preserving_lift preserving_load
  preserving_alloc preserving_read : preserving.

(** Decomposes a computation along its binds and case distinctions. *)
Ltac preserving_step :=
  match goal with
  | |- preserving (_ ≫= _) => apply preserving_bind; [|intros ?]
  | |- preserving (match ?x with _ => _ end) => destruct x
  | |- preserving (if ?b then _ else _) => destruct b
  | |- preserving (let '_ := ?x in _) => destruct x
  | |- preserving _ => solve [auto with preserving]
  end.

Lemma preserving_load_all ls : preserving (Heap.load_all ls).
Proof. induction ls; cbn [Heap.load_all]; repeat preserving_step. Qed.

Lemma preserving_alloc_all ts : preserving (Heap.alloc_all ts).
Proof. induction ts; cbn [Heap.alloc_all]; repeat preserving_step. Qed.

#[local] Hint Resolve preserving_load_all preserving_alloc_all : preserving.

Lemma preserving_as_Tensor_args items : preserving (Heap.as_Tensor_args items).
Proof.
  induction items; cbn [Heap.as_Tensor_args]; unfold Heap.as_Tensor_arg;
    repeat preserving_step.
Qed.

#[local] Hint Resolve preserving_as_Tensor_args : preserving.

Ltac preserving_unfold :=
  unfold Heap._check_input_tensor, Heap.rgb2ycbcr, Heap.ycbcr2rgb, Heap.yuv_444_to_420,
    Heap.yuv_420_to_444, Heap._downsample, Heap._upsample, Heap.lazy_or,
    Heap.py_len, Heap.py_iter, Heap.as_Tensor, Heap.as_Tensor_arg,
    Heap.is_floating_point, Heap.dim, Heap.size_at, Heap.chunk, Heap.cat,
    Heap.smul, Heap.divs, Heap.adds, Heap.subs, Heap.tadd, Heap.tsub,
    Heap.avg_pool2d, Heap.interpolate_bilinear.

Lemma preserving_check_input_tensor o : preserving (Heap._check_input_tensor o).
Proof. preserving_unfold. repeat preserving_step. Qed.

#[local] Hint Resolve preserving_check_input_tensor : preserving.

Lemma preserving_rgb2ycbcr o : preserving (Heap.rgb2ycbcr o).
Proof. preserving_unfold. repeat preserving_step. Qed.

Lemma preserving_ycbcr2rgb o : preserving (Heap.ycbcr2rgb o).
Proof. preserving_unfold. repeat preserving_step. Qed.

Lemma preserving_yuv_444_to_420 o : preserving (Heap.yuv_444_to_420 o).
Proof. preserving_unfold. repeat preserving_step. Qed.

Lemma preserving_yuv_420_to_444 o b : preserving (Heap.yuv_420_to_444 o b).
Proof. preserving_unfold. repeat preserving_step. Qed.


(** ** The store-passing functions compute what the pure functions compute *)

Lemma tensor_is_mono σ σ' l t : Heap.extends σ σ' → tensor_is σ l t → tensor_is σ' l t.
Proof. intros [Hsub _] Hl. by eapply lookup_weaken. Qed.

Lemma module_loaded_mono σ σ' : Heap.extends σ σ' → module_loaded σ → module_loaded σ'.
Proof. intros [_ Hw] Hl. unfold module_loaded in *. congruence. Qed.

Lemma tensors_are_mono σ σ' ls ts :
  Heap.extends σ σ' → Forall2 (tensor_is σ) ls ts → Forall2 (tensor_is σ') ls ts.
Proof.
  intros Hext H. eapply Forall2_impl; [exact H|]. intros l t. by apply tensor_is_mono.
Qed.

(** Induction on Python values, through the items of tuples. *)
Lemma pyref_nested_ind (P : Heap.pyref → Prop) :
  (∀ l, P (Heap.RTensor l)) → (∀ x, P (Heap.RFloat x)) → P Heap.RNone →
  (∀ items, Forall P items → P (Heap.RTuple items)) →
  ∀ o, P o.
Proof.
  intros Htensor Hfloat Hnone Htuple. fix IH 1.
  intros [l|x| |items]; [apply Htensor|apply Hfloat|apply Hnone|].
  apply Htuple. induction items as [|o items IHitems]; constructor;
    [apply IH|apply IHitems].
Qed.

Lemma denotes_mono σ σ' o v : Heap.extends σ σ' → denotes σ o v → denotes σ' o v.
Proof.
  intros Hext. unfold denotes. revert v.
  induction o as [l|x| |items IH] using pyref_nested_ind; intros v; cbn [Heap.deref]; try done.
  - destruct (Heap.tensors σ !! l) as [t|] eqn:E; [|done].
    by rewrite (tensor_is_mono _ _ _ _ Hext E).
  - destruct (mapM (Heap.deref σ) items) as [vs|] eqn:E; [|done].
    intros [= <-]. 
    assert (Hm : mapM (Heap.deref σ') items = Some vs); [|by rewrite Hm].
    apply mapM_Some in E. apply mapM_Some.
    revert IH. induction E as [|o v' items vs Hov E IHE]; intros IH; [done|].
    apply Forall_cons in IH as [IHo IH]. constructor; [by apply IHo|by apply IHE].
Qed.

Lemma refines_ret {A B} (R : Heap.state → A → B → Prop) σ a b :
  R σ a b → refines R σ (mret a) (Return b).
Proof. intros HR. split; [apply extends_refl|]. by exists b. Qed.

Lemma refines_raise {A B} (R : Heap.state → A → B → Prop) σ e :
  refines R σ (Heap.raise e) (Raise e).
Proof. split; [apply extends_refl|done]. Qed.

Lemma refines_lift {A} σ (r : result A) :
  refines (λ _ a b, a = b) σ (Heap.lift r) r.
Proof.
  split; [apply extends_refl|]. unfold Heap.lift. cbn [fst snd].
  destruct r as [a|e]; [exists a; done|done].
Qed.

Lemma refines_bind {A B A' B'} (R : Heap.state → A → B → Prop)
    (R' : Heap.state → A' → B' → Prop) σ m p f g :
  refines R σ m p →
  (∀ σ' a b, Heap.extends σ σ' → p = Return b → R σ' a b → refines R' σ' (f a) (g b)) →
  refines R' σ (m ≫= f) (p ≫= g).
Proof.
  intros [Hext Hm] Hf. unfold refines.
  assert (Hrun : (m ≫= f) σ = match m σ with
                              | (Return a, σ') => f a σ'
                              | (Raise e, σ') => (Raise e, σ')
                              end) by done.
  rewrite Hrun. clear Hrun.
  destruct (m σ) as [[a|e] σ1]; cbn [fst snd] in *.
  - destruct Hm as (b & -> & HR).
    destruct (Hf σ1 a b Hext eq_refl HR) as [Hext' Hfa].
    split; [by eapply extends_trans|]. exact Hfa.
  - subst p. split; [done|done].
Qed.

(** The same, for a step whose value the pure function computes in place. *)
Lemma refines_bind_pure {A B A' B'} (R : Heap.state → A → B → Prop)
    (R' : Heap.state → A' → B' → Prop) σ m b f q :
  refines R σ m (Return b) →
  (∀ σ' a, Heap.extends σ σ' → R σ' a b → refines R' σ' (f a) q) →
  refines R' σ (m ≫= f) q.
Proof.
  intros Hm Hf. change q with (Return b ≫= λ _, q).
  eapply refines_bind; [exact Hm|]. intros σ' a b' Hext [= <-] HR. by apply Hf.
Qed.

Lemma refines_weaken {A B} (R R' : Heap.state → A → B → Prop) σ m p :
  refines R σ m p → (∀ σ' a b, R σ' a b → R' σ' a b) → refines R' σ m p.
Proof.
  intros [Hext Hm] HR. split; [done|].
  destruct ((m σ).1); [|done]. destruct Hm as (b & -> & Hb). exists b. auto.
Qed.

Lemma refines_load σ l t :
  tensor_is σ l t → refines (λ _ a b, a = b) σ (Heap.load l) (Return t).
Proof.
  intros Hl. unfold refines, Heap.load. rewrite Hl. cbn.
  split; [apply extends_refl|]. by exists t.
Qed.

Lemma refines_alloc σ t : refines tensor_is σ (Heap.alloc t) (Return t).
Proof.
  split; [apply alloc_extends|]. cbn. exists t. split; [done|].
  unfold tensor_is. cbn. apply lookup_insert_eq.
Qed.

Lemma refines_read σ :
  module_loaded σ → refines (λ _ a b, a = b) σ Heap.read_YCBCR_WEIGHTS (Return YCBCR_WEIGHTS).
Proof. intros Hm. split; [apply extends_refl|]. cbn. by exists YCBCR_WEIGHTS. Qed.

Lemma refines_alloc_all σ ts :
  refines (λ σ', Forall2 (tensor_is σ')) σ (Heap.alloc_all ts) (Return ts).
Proof.
  revert σ. induction ts as [|t ts IH]; intros σ; cbn [Heap.alloc_all].
  { by apply refines_ret. }
  eapply refines_bind_pure; [apply refines_alloc|]. intros σ1 l Hext1 Hl.
  eapply refines_bind_pure; [apply IH|]. intros σ2 ls Hext2 Hls.
  apply refines_ret. constructor; [by eapply tensor_is_mono|done].
Qed.

Lemma refines_load_all σ ls ts :
  Forall2 (tensor_is σ) ls ts →
  refines (λ _ a b, a = b) σ (Heap.load_all ls) (Return ts).
Proof.
  intros Hls. revert σ ls Hls. induction ts as [|t ts IH]; intros σ ls Hls.
  { apply Forall2_nil_inv_r in Hls as ->. by apply refines_ret. }
  apply Forall2_cons_inv_r in Hls as (l & ls' & Hl & Hls & ->). cbn [Heap.load_all].
  eapply refines_bind_pure; [by apply refines_load|]. intros σ1 t' Hext1 ->.
  eapply refines_bind_pure; [by eapply IH, tensors_are_mono|]. intros σ2 ts' Hext2 ->.
  by apply refines_ret.
Qed.

Lemma denotes_all_mono σ σ' items vs :
  Heap.extends σ σ' → Forall2 (denotes σ) items vs → Forall2 (denotes σ') items vs.
Proof.
  intros Hext H. eapply Forall2_impl; [exact H|]. intros o v. by apply denotes_mono.
Qed.

(** Carries what is known of a state to a state that extends it. *)
Ltac transport E :=
  repeat match goal with
  | H : tensor_is ?s _ _ |- _ =>
    match type of E with Heap.extends s _ => apply (tensor_is_mono _ _ _ _ E) in H end
  | H : Forall2 (tensor_is ?s) _ _ |- _ =>
    match type of E with Heap.extends s _ => apply (tensors_are_mono _ _ _ _ E) in H end
  | H : denotes ?s _ _ |- _ =>
    match type of E with Heap.extends s _ => apply (denotes_mono _ _ _ _ E) in H end
  | H : Forall2 (denotes ?s) _ _ |- _ =>
    match type of E with Heap.extends s _ => apply (denotes_all_mono _ _ _ _ E) in H end
  | H : module_loaded ?s |- _ =>
    match type of E with Heap.extends s _ => apply (module_loaded_mono _ _ E) in H end
  end; clear E.

(** *** Engine calls *)

Lemma refines_unary (f : Tensor → Tensor) σ l t :
  tensor_is σ l t → refines tensor_is σ (t' ← Heap.load l; Heap.alloc (f t')) (Return (f t)).
Proof.
  intros Hl. eapply refines_bind_pure; [by apply refines_load|].
  intros σ1 t' _ ->. apply refines_alloc.
Qed.

Lemma refines_binary (f : Tensor → Tensor → Tensor) σ a b ta tb :
  tensor_is σ a ta → tensor_is σ b tb →
  refines tensor_is σ (x ← Heap.load a; y ← Heap.load b; Heap.alloc (f x y))
          (Return (f ta tb)).
Proof.
  intros Ha Hb. eapply refines_bind_pure; [by apply refines_load|].
  intros σ1 x E ->. transport E.
  eapply refines_bind_pure; [by apply refines_load|].
  intros σ2 y _ ->. apply refines_alloc.
Qed.

Lemma result_bind_ret {A} (p : result A) : p ≫= Return = p.
Proof. by destruct p. Qed.

Lemma refines_engine (f : Tensor → result Tensor) σ l t :
  tensor_is σ l t →
  refines tensor_is σ (t' ← Heap.load l; out ← Heap.lift (f t'); Heap.alloc out) (f t).
Proof.
  intros Hl. eapply refines_bind_pure; [by apply refines_load|].
  intros σ1 t' _ ->. rewrite <- (result_bind_ret (f t)) at 2.
  eapply refines_bind; [apply refines_lift|].
  intros σ2 out out' _ _ ->. apply refines_alloc.
Qed.

Lemma refines_chunk σ l t chunks d :
  tensor_is σ l t →
  refines (λ σ', Forall2 (tensor_is σ')) σ (Heap.chunk l chunks d) (Torch.chunk t chunks d).
Proof.
  intros Hl. unfold Heap.chunk.
  eapply refines_bind_pure; [by apply refines_load|].
  intros σ1 t' _ ->. rewrite <- (result_bind_ret (chunk t chunks d)) at 2.
  eapply refines_bind; [apply refines_lift|].
  intros σ2 ts ts' _ _ ->. apply refines_alloc_all.
Qed.

Lemma refines_cat σ ls ts d :
  Forall2 (tensor_is σ) ls ts → refines tensor_is σ (Heap.cat ls d) (Torch.cat ts d).
Proof.
  intros Hls. unfold Heap.cat.
  eapply refines_bind_pure; [by apply refines_load_all|].
  intros σ1 ts' _ ->. rewrite <- (result_bind_ret (cat ts d)) at 2.
  eapply refines_bind; [apply refines_lift|].
  intros σ2 out out' _ _ ->. apply refines_alloc.
Qed.

Lemma refines_is_floating_point σ l t :
  tensor_is σ l t →
  refines (λ _ a b, a = b) σ (Heap.is_floating_point l) (Return (is_floating_point t)).
Proof.
  intros Hl. unfold Heap.is_floating_point.
  eapply refines_bind_pure; [by apply refines_load|]. intros σ1 t' _ ->.
  by apply refines_ret.
Qed.

Lemma refines_dim σ l t :
  tensor_is σ l t → refines (λ _ a b, a = b) σ (Heap.dim l) (Return (dim t)).
Proof.
  intros Hl. unfold Heap.dim.
  eapply refines_bind_pure; [by apply refines_load|]. intros σ1 t' _ ->.
  by apply refines_ret.
Qed.

Lemma refines_size_at σ l t d :
  tensor_is σ l t → refines (λ _ a b, a = b) σ (Heap.size_at l d) (size_at t d).
Proof.
  intros Hl. unfold Heap.size_at.
  eapply refines_bind_pure; [by apply refines_load|]. intros σ1 t' _ ->.
  apply refines_lift.
Qed.

(** *** Python protocols *)

Lemma refines_as_Tensor σ o v :
  denotes σ o v → refines tensor_is σ (Heap.as_Tensor o) (as_Tensor v).
Proof.
  unfold denotes. destruct o as [l|x| |items]; cbn [Heap.deref Heap.as_Tensor].
  - destruct (Heap.tensors σ !! l) as [t|] eqn:E; [|done]. intros [= <-].
    by apply refines_ret.
  - intros [= <-]. apply refines_raise.
  - intros [= <-]. apply refines_raise.
  - destruct (mapM _ items); [|done]. intros [= <-]. apply refines_raise.
Qed.

Lemma refines_as_Tensor_arg σ o v :
  denotes σ o v → refines tensor_is σ (Heap.as_Tensor_arg o) (as_Tensor_arg v).
Proof.
  unfold denotes. destruct o as [l|x| |items]; cbn [Heap.deref Heap.as_Tensor_arg].
  - destruct (Heap.tensors σ !! l) as [t|] eqn:E; [|done]. intros [= <-].
    by apply refines_ret.
  - intros [= <-]. apply refines_raise.
  - intros [= <-]. apply refines_raise.
  - destruct (mapM _ items); [|done]. intros [= <-]. apply refines_raise.
Qed.

Lemma denotes_isinstance σ o v :
  denotes σ o v → Heap.isinstance_Tensor o = isinstance_Tensor v.
Proof.
  unfold denotes. destruct o as [l|x| |items]; cbn [Heap.deref].
  - destruct (_ !! l); [|done]. by intros [= <-].
  - by intros [= <-].
  - by intros [= <-].
  - destruct (mapM _ items); [|done]. by intros [= <-].
Qed.

Lemma refines_lazy_or σ (a b : Heap.M bool) (pa pb : result bool) :
  refines (λ _ x y, x = y) σ a pa →
  (∀ σ', Heap.extends σ σ' → refines (λ _ x y, x = y) σ' b pb) →
  refines (λ _ x y, x = y) σ (Heap.lazy_or a b) (lazy_or pa pb).
Proof.
  intros Ha Hb. unfold Heap.lazy_or, lazy_or.
  eapply refines_bind; [exact Ha|]. intros σ1 x y E _ ->.
  destruct y; [by apply refines_ret|by apply Hb].
Qed.

Lemma refines_check_input_tensor σ o v :
  denotes σ o v →
  refines (λ _ _ _, True) σ (Heap._check_input_tensor o) (_check_input_tensor v).
Proof.
  intros Ho. unfold Heap._check_input_tensor, _check_input_tensor.
  eapply refines_bind.
  - apply refines_lazy_or.
    { rewrite (denotes_isinstance _ _ _ Ho). by apply refines_ret. }
    intros σ1 E1. transport E1. apply refines_lazy_or.
    { eapply refines_bind; [by apply refines_as_Tensor|]. intros σ2 l t E2 _ Hl.
      eapply refines_bind_pure; [by apply refines_is_floating_point|].
      intros σ3 f _ ->. by apply refines_ret. }
    intros σ2 E2. transport E2. apply refines_lazy_or.
    { eapply refines_bind; [by apply refines_as_Tensor|]. intros σ3 l t E3 _ Hl.
      eapply refines_bind_pure; [by apply refines_dim|].
      intros σ4 n _ ->. by apply refines_ret. }
    intros σ3 E3. transport E3.
    eapply refines_bind; [by apply refines_as_Tensor|]. intros σ4 l t E4 _ Hl.
    eapply refines_bind; [by apply refines_size_at|].
    intros σ5 n n' _ _ ->. by apply refines_ret.
  - intros σ1 bad bad' _ _ ->. destruct bad'; [apply refines_raise|by apply refines_ret].
Qed.


(** *** The five functions *)

Lemma refines_unpack3 {A B} (R : Heap.state → A → B → Prop) σ (ls : list A) (ts : list B) :
  Forall2 (R σ) ls ts →
  refines (λ σ' '(a, b, c) '(ta, tb, tc), R σ' a ta ∧ R σ' b tb ∧ R σ' c tc)
          σ (Heap.lift (unpack3 ls)) (unpack3 ts).
Proof.
  intros Hls. pose proof (Forall2_length _ _ _ Hls) as Hlen.
  split; [apply extends_refl|]. unfold Heap.lift. cbn [fst snd].
  destruct Hls as [|a ta ? ? Ha [|b tb ? ? Hb [|c tc ? ? Hc [|d td ls' ts' Hd Hls]]]];
    cbn; try done.
  by exists (ta, tb, tc).
Qed.

(** One arithmetic step on tensor objects against its value. *)
Ltac arith_step :=
  first
    [ eapply refines_bind_pure;
      [unfold Heap.smul, Heap.divs, Heap.adds, Heap.subs; eapply refines_unary; eassumption|]
    | eapply refines_bind_pure;
      [unfold Heap.tadd, Heap.tsub; eapply refines_binary; eassumption|] ];
  let σ' := fresh "σ" in
  let x := fresh "x" in
  let E := fresh "E" in
  let Hx := fresh "Hx" in
  intros σ' x E Hx; transport E.

Lemma refines_rgb2ycbcr σ o v :
  module_loaded σ → denotes σ o v →
  refines tensor_is σ (Heap.rgb2ycbcr o) (rgb2ycbcr v).
Proof.
  intros Hm Ho. unfold Heap.rgb2ycbcr, rgb2ycbcr.
  eapply refines_bind; [by apply refines_check_input_tensor|].
  intros σ1 [] [] E1 _ _. transport E1.
  eapply refines_bind; [by apply refines_as_Tensor|].
  intros σ2 l t E2 _ Hl. transport E2.
  eapply refines_bind; [by apply refines_chunk|].
  intros σ3 ls ts E3 _ Hls. transport E3.
  eapply refines_bind; [by apply (refines_unpack3 tensor_is)|].
  intros σ4 [[r g] b] [[tr tg] tb] E4 _ (Hr & Hg & Hb). transport E4.
  eapply refines_bind_pure; [by apply refines_read|].
  intros σ5 table E5 ->. transport E5.
  eapply refines_bind; [apply refines_lift|].
  intros σ6 [[kr kg] kb] ? E6 _ <-. transport E6.
  do 13 arith_step.
  apply refines_cat. repeat constructor; eassumption.
Qed.

Lemma refines_ycbcr2rgb σ o v :
  module_loaded σ → denotes σ o v →
  refines tensor_is σ (Heap.ycbcr2rgb o) (ycbcr2rgb v).
Proof.
  intros Hm Ho. unfold Heap.ycbcr2rgb, ycbcr2rgb.
  eapply refines_bind; [by apply refines_check_input_tensor|].
  intros σ1 [] [] E1 _ _. transport E1.
  eapply refines_bind; [by apply refines_as_Tensor|].
  intros σ2 l t E2 _ Hl. transport E2.
  eapply refines_bind; [by apply refines_chunk|].
  intros σ3 ls ts E3 _ Hls. transport E3.
  eapply refines_bind; [by apply (refines_unpack3 tensor_is)|].
  intros σ4 [[y cb] cr] [[ty tcb] tcr] E4 _ (Hy & Hcb & Hcr). transport E4.
  eapply refines_bind_pure; [by apply refines_read|].
  intros σ5 table E5 ->. transport E5.
  eapply refines_bind; [apply refines_lift|].
  intros σ6 [[kr kg] kb] ? E6 _ <-. transport E6.
  do 11 arith_step.
  apply refines_cat. repeat constructor; eassumption.
Qed.

Lemma denotes_tensor σ l t : tensor_is σ l t → denotes σ (Heap.RTensor l) (PyTensor t).
Proof. unfold tensor_is, denotes. cbn. by intros ->. Qed.

Lemma denotes_tuple σ items vs :
  Forall2 (denotes σ) items vs → denotes σ (Heap.RTuple items) (PyTuple vs).
Proof.
  intros H. unfold denotes. cbn [Heap.deref].
  assert (Hm : mapM (Heap.deref σ) items = Some vs) by (by apply mapM_Some).
  by rewrite Hm.
Qed.

Lemma denotes_tensors σ ls ts :
  Forall2 (tensor_is σ) ls ts →
  Forall2 (denotes σ) (Heap.RTensor <$> ls) (PyTensor <$> ts).
Proof.
  intros H. apply Forall2_fmap. eapply Forall2_impl; [exact H|].
  intros l t. apply denotes_tensor.
Qed.

Lemma refines_py_iter σ o v :
  denotes σ o v →
  refines (λ σ', Forall2 (denotes σ')) σ (Heap.py_iter o) (py_iter v).
Proof.
  unfold denotes. destruct o as [l|x| |items]; cbn [Heap.deref Heap.py_iter].
  - destruct (Heap.tensors σ !! l) as [t|] eqn:E; [|done]. intros [= <-].
    cbn [py_iter].
    eapply refines_bind_pure; [by apply refines_load|]. intros σ1 t' E1 ->.
    destruct (t_shape t) as [|n s] eqn:Hs; [apply refines_raise|].
    eapply refines_bind_pure; [apply refines_alloc_all|]. intros σ2 ls E2 Hls.
    apply refines_ret.
    replace (map (λ k, PyTensor (select0 t k)) (seq 0 n))
      with (PyTensor <$> map (select0 t) (seq 0 n)) by (by rewrite <- list_fmap_compose).
    by apply denotes_tensors.
  - intros [= <-]. apply refines_raise.
  - intros [= <-]. apply refines_raise.
  - destruct (mapM _ items) as [vs|] eqn:E; [|done]. intros [= <-].
    apply refines_ret. by apply mapM_Some.
Qed.

Lemma refines_py_len σ o v :
  denotes σ o v → refines (λ _ a b, a = b) σ (Heap.py_len o) (py_len v).
Proof.
  unfold denotes. destruct o as [l|x| |items]; cbn [Heap.deref Heap.py_len].
  - destruct (Heap.tensors σ !! l) as [t|] eqn:E; [|done]. intros [= <-].
    cbn [py_len].
    eapply refines_bind_pure; [by apply refines_load|]. intros σ1 t' E1 ->.
    destruct (t_shape t) as [|n s]; [apply refines_raise|by apply refines_ret].
  - intros [= <-]. apply refines_raise.
  - intros [= <-]. apply refines_raise.
  - destruct (mapM _ items) as [vs|] eqn:E; [|done]. intros [= <-].
    apply refines_ret. apply mapM_Some in E. cbn. by eapply Forall2_length.
Qed.

Lemma refines_downsample σ o v :
  denotes σ o v → refines tensor_is σ (Heap._downsample o) (_downsample v).
Proof.
  intros Ho. unfold Heap._downsample, _downsample.
  eapply refines_bind; [by apply refines_as_Tensor_arg|].
  intros σ1 l t E1 _ Hl. by apply (refines_engine (λ t, avg_pool2d t 2 2)).
Qed.

Lemma refines_upsample σ o v :
  denotes σ o v → refines tensor_is σ (Heap._upsample o) (_upsample v).
Proof.
  intros Ho. unfold Heap._upsample, _upsample.
  eapply refines_bind; [by apply refines_as_Tensor|].
  intros σ1 l t E1 _ Hl. by apply (refines_engine (λ t, interpolate_bilinear t 2 false)).
Qed.

Lemma refines_yuv_444_to_420 σ o v :
  denotes σ o v → refines denotes σ (Heap.yuv_444_to_420 o) (yuv_444_to_420 v).
Proof.
  intros Ho. unfold Heap.yuv_444_to_420, yuv_444_to_420.
  rewrite (denotes_isinstance _ _ _ Ho).
  eapply refines_bind.
  { destruct (isinstance_Tensor v).
    - eapply refines_bind; [by apply refines_as_Tensor|].
      intros σ1 l t E1 _ Hl. transport E1.
      eapply refines_bind; [by apply refines_chunk|].
      intros σ2 ls ts E2 _ Hls. apply (refines_unpack3 denotes). by apply denotes_tensors.
    - eapply refines_bind; [by apply refines_py_iter|].
      intros σ1 items vs E1 _ Hitems. by apply (refines_unpack3 denotes). }
  intros σ1 [[y u] w] [[vy vu] vw] E1 _ (Hy & Hu & Hw). transport E1.
  eapply refines_bind; [by apply refines_downsample|].
  intros σ2 u' tu' E2 _ Hu'. transport E2.
  eapply refines_bind; [by apply refines_downsample|].
  intros σ3 w' tw' E3 _ Hw'. transport E3.
  apply refines_ret. apply denotes_tuple.
  repeat constructor; [done|by apply denotes_tensor..].
Qed.

Lemma existsb_not_tensor_denotes σ items vs :
  Forall2 (denotes σ) items vs →
  existsb (λ c, negb (Heap.isinstance_Tensor c)) items
  = existsb (λ c, negb (isinstance_Tensor c)) vs.
Proof.
  induction 1 as [|o v items vs Ho _ IH]; [done|]. cbn.
  by rewrite (denotes_isinstance _ _ _ Ho), IH.
Qed.

Lemma refines_as_Tensor_args σ items vs :
  Forall2 (denotes σ) items vs →
  refines (λ σ', Forall2 (tensor_is σ')) σ (Heap.as_Tensor_args items) (as_Tensor_args vs).
Proof.
  intros H. revert σ items H. induction vs as [|v vs IH]; intros σ items H.
  { apply Forall2_nil_inv_r in H as ->. by apply refines_ret. }
  apply Forall2_cons_inv_r in H as (o & items' & Ho & H & ->).
  cbn [Heap.as_Tensor_args as_Tensor_args].
  eapply refines_bind; [by apply refines_as_Tensor_arg|].
  intros σ1 l t E1 _ Hl. transport E1.
  eapply refines_bind; [by apply IH|].
  intros σ2 ls ts E2 _ Hls. transport E2.
  apply refines_ret. cbn beta. by constructor.
Qed.

Lemma refines_yuv_420_to_444 σ o v b :
  denotes σ o v → refines denotes σ (Heap.yuv_420_to_444 o b) (yuv_420_to_444 v b).
Proof.
  intros Ho. unfold Heap.yuv_420_to_444, yuv_420_to_444. cbn zeta.
  eapply refines_bind.
  { apply refines_lazy_or.
    - eapply refines_bind; [by apply refines_py_len|].
      intros σ1 n n' _ _ ->. by apply refines_ret.
    - intros σ1 E1. transport E1.
      eapply refines_bind; [by apply refines_py_iter|].
      intros σ2 items vs _ _ Hitems. apply refines_ret.
      by apply (existsb_not_tensor_denotes σ2). }
  intros σ1 bad bad' E1 _ ->. transport E1.
  destruct bad'; [apply refines_raise|].
  eapply refines_bind; [by apply refines_py_iter|].
  intros σ2 items vs E2 _ Hitems. transport E2.
  eapply refines_bind; [by apply (refines_unpack3 denotes)|].
  intros σ3 [[y u] w] [[vy vu] vw] E3 _ (Hy & Hu & Hw). transport E3.
  eapply refines_bind; [by apply refines_upsample|].
  intros σ4 u' tu' E4 _ Hu'. transport E4.
  eapply refines_bind; [by apply refines_upsample|].
  intros σ5 w' tw' E5 _ Hw'. transport E5.
  destruct (default false b).
  - apply refines_ret. apply denotes_tuple.
    repeat constructor; [done|by apply denotes_tensor..].
  - eapply refines_bind.
    { apply refines_as_Tensor_args. repeat constructor; [done|by apply denotes_tensor..]. }
    intros σ6 ls ts E6 _ Hls. transport E6.
    eapply refines_bind; [by apply refines_cat|].
    intros σ7 out tout E7 _ Hout. apply refines_ret. by apply denotes_tensor.
Qed.


(** ** C3: the input validator *)

Lemma check_input_tensor_cases (o : pyobj) :
  _check_input_tensor o =
    match o with
    | PyTensor t =>
      if is_floating_point t
         && bool_decide (dim t = 3%nat ∨ dim t = 4%nat)
         && bool_decide (t_shape t !! (dim t - 3)%nat = Some 3%nat)
      then Return () else Raise InvalidShape
    | _ => Raise InvalidShape
    end.
Proof.
  destruct o as [t| | |]; try done.
  unfold _check_input_tensor, size_at. cbn.
  destruct (is_floating_point t); [|done]. cbn.
  destruct (decide (dim t = 3%nat ∨ dim t = 4%nat)) as [Hd|Hd].
  - rewrite (bool_decide_eq_true_2 (_ ∨ _)) by done.
    rewrite (bool_decide_eq_true_2 (_ ∈ _)) by (destruct Hd as [-> | ->]; set_solver).
    cbn. unfold dim in *.
    destruct (t_shape t) as [|a [|b [|c [|d [|e s]]]]]; simpl in Hd; try lia; cbn.
    + change (wrap_dim 3 (-3)) with (Return (A:=nat) 0%nat). cbn.
      destruct (decide (a = 3%nat)) as [->|Hne]; [done|].
      rewrite !bool_decide_eq_false_2; [done|congruence|done].
    + change (wrap_dim 4 (-3)) with (Return (A:=nat) 1%nat). cbn.
      destruct (decide (b = 3%nat)) as [->|Hne]; [done|].
      rewrite !bool_decide_eq_false_2; [done|congruence|done].
  - rewrite (bool_decide_eq_false_2 (_ ∨ _)) by done.
    rewrite (bool_decide_eq_false_2 (_ ∈ _)); [done|].
    rewrite !elem_of_cons, elem_of_nil. tauto.
Qed.

Lemma readonly_ret {A} (a : A) : readonly (mret a).
Proof. done. Qed.

Lemma readonly_raise {A} e : readonly (Heap.raise (A:=A) e).
Proof. done. Qed.

Lemma readonly_lift {A} (r : result A) : readonly (Heap.lift r).
Proof. done. Qed.

Lemma readonly_load l : readonly (Heap.load l).
Proof. intros σ. unfold Heap.load. by destruct (_ !! l). Qed.

Lemma readonly_bind {A B} (m : Heap.M A) (f : A → Heap.M B) :
  readonly m → (∀ a, readonly (f a)) → readonly (m ≫= f).
Proof.
  intros Hm Hf σ. unfold mbind, Heap.M_bind.
  specialize (Hm σ). destruct (m σ) as [[a|e] σ']; cbn in *; subst; [apply Hf|done].
Qed.

Create HintDb readonly.
#[local] Hint Resolve readonly_ret readonly_raise readonly_lift readonly_load : readonly.

Ltac readonly_step :=
  match goal with
  | |- readonly (_ ≫= _) => apply readonly_bind; [|intros ?]
  | |- readonly (match ?x with _ => _ end) => destruct x
  | |- readonly (if ?b then _ else _) => destruct b
  | |- readonly _ => solve [auto with readonly]
  end.

(** The validator only reads. *)
Lemma readonly_check_input_tensor o : readonly (Heap._check_input_tensor o).
Proof.
  unfold Heap._check_input_tensor, Heap.lazy_or, Heap.as_Tensor,
    Heap.is_floating_point, Heap.dim, Heap.size_at.
  repeat readonly_step.
Qed.

(** C3. [_check_input_tensor] returns (silently, with no value) exactly
    when its argument is a tensor, of a floating-point element type, of rank
    3 or 4, whose third-from-last axis has size 3.  In every other case, in
    particular for a tensor of an integer type, of channel size 2 or 4, or
    of rank 2 or 5, it raises the one error [InvalidShape], a [ValueError]
    whose message names the expected shape.  It has no other effect: over
    a store of tensor objects the validator leaves the state it is called in
    exactly as it was, and returns or raises as stated. *)
Theorem check_input_tensor_spec (o : pyobj) :
  (_check_input_tensor o = Return () ↔
     ∃ t, o = PyTensor t ∧ is_floating_point t = true
          ∧ (dim t = 3%nat ∨ dim t = 4%nat)
          ∧ t_shape t !! (dim t - 3)%nat = Some 3%nat)
  ∧ (_check_input_tensor o ≠ Return () → _check_input_tensor o = Raise InvalidShape)
  ∧ InvalidShape = ValueError "Expected a 4D tensor with shape (Nx3xHxW) as input"
  ∧ (∀ t, o = PyTensor t → is_floating_point t = false →
          _check_input_tensor o = Raise InvalidShape)
  ∧ (∀ t c, o = PyTensor t → (dim t = 3%nat ∨ dim t = 4%nat) →
            t_shape t !! (dim t - 3)%nat = Some c → (c = 2%nat ∨ c = 4%nat) →
            _check_input_tensor o = Raise InvalidShape)
  ∧ (∀ t, o = PyTensor t → (dim t = 2%nat ∨ dim t = 5%nat) →
          _check_input_tensor o = Raise InvalidShape)
  ∧ (∀ r σ, (Heap._check_input_tensor r σ).2 = σ
            ∧ (denotes σ r o → (Heap._check_input_tensor r σ).1 = _check_input_tensor o)).
Proof.
  assert (Hheap : ∀ r σ, (Heap._check_input_tensor r σ).2 = σ
            ∧ (denotes σ r o → (Heap._check_input_tensor r σ).1 = _check_input_tensor o)).
  { intros r σ. split; [apply readonly_check_input_tensor|].
    intros Hr. destruct (refines_check_input_tensor σ r o Hr) as [_ H].
    destruct ((Heap._check_input_tensor r σ).1) as [[]|e]; [|done].
    by destruct H as ([] & -> & _). }
  split_and!; [..|exact Hheap]; rewrite ?check_input_tensor_cases.
  - split.
    + destruct o as [t| | |]; try done.
      destruct (is_floating_point t) eqn:Hf; [|done]. cbn.
      repeat case_bool_decide; try done. intros _. by exists t.
    + intros (t & -> & Hf & Hd & Hc). rewrite Hf. cbn.
      by rewrite !bool_decide_eq_true_2.
  - destruct o as [t| | |]; try done.
    destruct (is_floating_point t); [|done]. cbn.
    repeat case_bool_decide; done.
  - done.
  - by intros t -> ->.
  - intros t c -> Hd Hc Hc'. rewrite Hc.
    rewrite (bool_decide_eq_false_2 (Some _ = _)); [by rewrite andb_false_r|].
    intros [= ->]. lia.
  - intros t -> Hd.
    rewrite (bool_decide_eq_false_2 (_ ∨ _)); [by rewrite andb_false_r|]. lia.
Qed.


(** ** C10: no mutation, and outcomes that depend on the input values only *)

Lemma refines_outcome_of_tensor σ m p :
  refines tensor_is σ m p → outcome_of_tensor (m σ) = Some p.
Proof.
  intros [_ H]. unfold outcome_of_tensor.
  destruct ((m σ).1) as [l|e]; [|by subst].
  destruct H as (t & -> & Hl). unfold tensor_is in Hl. by rewrite Hl.
Qed.

Lemma refines_outcome_of_value σ m p :
  refines denotes σ m p → outcome_of_value (m σ) = Some p.
Proof.
  intros [_ H]. unfold outcome_of_value.
  destruct ((m σ).1) as [o|e]; [|by subst].
  destruct H as (v & -> & Ho). unfold denotes in Ho. by rewrite Ho.
Qed.

(** C10. Written over a store of tensor objects, each of the four
    functions leaves every tensor object of the state it is called in as it
    was, and the global weights table as it was, whether it returns or
    raises: it only adds objects.  What the caller observes, the exception
    or the returned value read in the final state, is the result of the pure
    function on the value of the argument; so two calls, in any two states,
    on arguments of equal value (and an equal [return_tuple]) have equal
    outcomes. *)
Theorem no_mutation_and_determinism :
  (∀ o σ, Heap.extends σ (Heap.rgb2ycbcr o σ).2)
  ∧ (∀ o σ, Heap.extends σ (Heap.ycbcr2rgb o σ).2)
  ∧ (∀ o σ, Heap.extends σ (Heap.yuv_444_to_420 o σ).2)
  ∧ (∀ o b σ, Heap.extends σ (Heap.yuv_420_to_444 o b σ).2)
  ∧ (∀ σ σ', Heap.extends σ σ' ↔
       (∀ l t, Heap.tensors σ !! l = Some t → Heap.tensors σ' !! l = Some t)
       ∧ Heap.weights_table σ' = Heap.weights_table σ)
  ∧ (∀ σ o v, denotes σ o v →
       (module_loaded σ → outcome_of_tensor (Heap.rgb2ycbcr o σ) = Some (rgb2ycbcr v))
       ∧ (module_loaded σ → outcome_of_tensor (Heap.ycbcr2rgb o σ) = Some (ycbcr2rgb v))
       ∧ outcome_of_value (Heap.yuv_444_to_420 o σ) = Some (yuv_444_to_420 v)
       ∧ ∀ b, outcome_of_value (Heap.yuv_420_to_444 o b σ) = Some (yuv_420_to_444 v b))
  ∧ (∀ σ1 σ2 o1 o2 v, denotes σ1 o1 v → denotes σ2 o2 v →
       (module_loaded σ1 → module_loaded σ2 →
        outcome_of_tensor (Heap.rgb2ycbcr o1 σ1) = outcome_of_tensor (Heap.rgb2ycbcr o2 σ2)
        ∧ outcome_of_tensor (Heap.ycbcr2rgb o1 σ1) = outcome_of_tensor (Heap.ycbcr2rgb o2 σ2))
       ∧ outcome_of_value (Heap.yuv_444_to_420 o1 σ1)
         = outcome_of_value (Heap.yuv_444_to_420 o2 σ2)
       ∧ ∀ b, outcome_of_value (Heap.yuv_420_to_444 o1 b σ1)
              = outcome_of_value (Heap.yuv_420_to_444 o2 b σ2)).
Proof.
  assert (Hout : ∀ σ o v, denotes σ o v →
       (module_loaded σ → outcome_of_tensor (Heap.rgb2ycbcr o σ) = Some (rgb2ycbcr v))
       ∧ (module_loaded σ → outcome_of_tensor (Heap.ycbcr2rgb o σ) = Some (ycbcr2rgb v))
       ∧ outcome_of_value (Heap.yuv_444_to_420 o σ) = Some (yuv_444_to_420 v)
       ∧ ∀ b, outcome_of_value (Heap.yuv_420_to_444 o b σ) = Some (yuv_420_to_444 v b)).
  { intros σ o v Ho. split_and!.
    - intros Hm. by apply refines_outcome_of_tensor, refines_rgb2ycbcr.
    - intros Hm. by apply refines_outcome_of_tensor, refines_ycbcr2rgb.
    - by apply refines_outcome_of_value, refines_yuv_444_to_420.
    - intros b. by apply refines_outcome_of_value, refines_yuv_420_to_444. }
  split_and!.
  - intros o σ. apply preserving_rgb2ycbcr.
  - intros o σ. apply preserving_ycbcr2rgb.
  - intros o σ. apply preserving_yuv_444_to_420.
  - intros o b σ. apply preserving_yuv_420_to_444.
  - intros σ σ'. unfold Heap.extends. by rewrite map_subseteq_spec.
  - exact Hout.
  - intros σ1 σ2 o1 o2 v H1 H2.
    destruct (Hout σ1 o1 v H1) as (A1 & B1 & C1 & D1).
    destruct (Hout σ2 o2 v H2) as (A2 & B2 & C2 & D2).
    split_and!.
    + intros M1 M2. rewrite A1, A2, B1, B2 by done. done.
    + by rewrite C1, C2.
    + intros b. by rewrite D1, D2.
Qed.


(** ** The statements at concrete inputs *)

Lemma example_image_valid : valid_image example_image [1%nat] 1 2.
Proof. split_and!; [reflexivity|reflexivity|simpl; lia|reflexivity]. Defined.

Lemma rgb2ycbcr_ycbcr2rgb_inverse_witness :
  valid_image example_image [1%nat] 1 2
  ∧ ∃ ycbcr, rgb2ycbcr (PyTensor example_image) = Return ycbcr
             ∧ ycbcr2rgb (PyTensor ycbcr) = Return example_image.
Proof.
  split; [exact example_image_valid|].
  exact (proj1 (rgb2ycbcr_ycbcr2rgb_inverse example_image [1%nat] 1 2 example_image_valid)).
Defined.

Lemma rgb2ycbcr_planes_witness :
  valid_image example_image [1%nat] 1 2
  ∧ ∃ out, rgb2ycbcr (PyTensor example_image) = Return out
           ∧ t_shape out = t_shape example_image.
Proof.
  split; [exact example_image_valid|].
  destruct (rgb2ycbcr_planes example_image [1%nat] 1 2 example_image_valid)
    as (_ & out & E & Hs & _).
  exists out. split; [exact E|exact Hs].
Defined.

Lemma example_image_unit : Forall unit_interval (t_data example_image).
Proof. repeat constructor; done. Defined.

Lemma rgb2ycbcr_unit_range_witness :
  valid_image example_image [1%nat] 1 2 ∧ Forall unit_interval (t_data example_image)
  ∧ ∃ out, rgb2ycbcr (PyTensor example_image) = Return out
           ∧ Forall unit_interval (t_data out).
Proof.
  split; [exact example_image_valid|]. split; [exact example_image_unit|].
  exact (proj1 (rgb2ycbcr_unit_range example_image [1%nat] 1 2
                  example_image_valid example_image_unit)).
Defined.

Lemma example_frame_valid : valid_image example_frame [1%nat] (2 * 1) (2 * 1).
Proof. split_and!; [reflexivity|reflexivity|simpl; lia|reflexivity]. Defined.

Lemma example_plane_poolable start : poolable (example_plane start) [1%nat] 1 1 1.
Proof.
  split_and!; [|reflexivity|simpl; lia|reflexivity|lia..].
  unfold tensor_wf. simpl. reflexivity.
Defined.

Lemma yuv_444_to_420_block_means_witness :
  (valid_image example_frame [1%nat] (2 * 1) (2 * 1)
   ∧ ∃ U' V', yuv_444_to_420 (PyTensor example_frame)
              = Return (PyTuple [PyTensor (plane_of example_frame [1%nat] 2 2 0);
                                 PyTensor U'; PyTensor V']))
  ∧ (poolable (example_plane 4) [1%nat] 1 1 1 ∧ poolable (example_plane 8) [1%nat] 1 1 1
     ∧ ∃ U' V', yuv_444_to_420 (PyTuple [PyNone; PyTensor (example_plane 4);
                                          PyTensor (example_plane 8)])
                = Return (PyTuple [PyNone; PyTensor U'; PyTensor V'])).
Proof.
  split.
  - split; [exact example_frame_valid|].
    destruct (proj1 yuv_444_to_420_block_means example_frame 1%nat 1%nat 1%nat
                example_frame_valid ltac:(lia) ltac:(lia)) as (_ & U' & V' & E & _).
    exists U', V'. exact E.
  - split; [apply example_plane_poolable|]. split; [apply example_plane_poolable|].
    destruct (proj1 (proj2 yuv_444_to_420_block_means) PyNone (example_plane 4)
                (example_plane 8)
                [1%nat] 1%nat 1%nat 1%nat (example_plane_poolable 4)
                (example_plane_poolable 8)) as (U' & V' & E & _).
    exists U', V'. exact E.
Defined.

Lemma example_chroma_upsamplable x : upsamplable (example_chroma x) 1 1 1 1.
Proof. split_and!; [reflexivity|reflexivity|reflexivity|lia..]. Defined.

Lemma yuv_420_to_444_results_witness :
  tensor_wf (example_plane 0)
  ∧ t_shape (example_plane 0) = [1%nat; 1%nat; (2 * 1)%nat; (2 * 1)%nat]
  ∧ upsamplable (example_chroma 1) 1 1 1 1 ∧ upsamplable (example_chroma 0) 1 1 1 1
  ∧ ∃ out, yuv_420_to_444 (PyTuple [PyTensor (example_plane 0); PyTensor (example_chroma 1);
                                     PyTensor (example_chroma 0)]) None
           = Return (PyTensor out)
           ∧ size_at out 1 = Return 3%nat.
Proof.
  split; [reflexivity|]. split; [reflexivity|].
  split; [apply example_chroma_upsamplable|]. split; [apply example_chroma_upsamplable|].
  destruct (yuv_420_to_444_results (example_plane 0) (example_chroma 1) (example_chroma 0)
              1 1 1 eq_refl eq_refl (example_chroma_upsamplable 1)
              (example_chroma_upsamplable 0))
    as (U' & V' & _ & _ & _ & out & _ & E & _ & Hc & _).
  exists out. split; [exact E|exact Hc].
Defined.

Lemma example_frame8_valid : valid_image example_frame8 [1%nat] 8 8.
Proof. split_and!; [reflexivity|reflexivity|simpl; lia|reflexivity]. Defined.

Lemma resolution_444_420_444_witness :
  valid_image example_frame8 [1%nat] 8 8
  ∧ ∃ Y U V,
      yuv_444_to_420 (PyTensor example_frame8)
      = Return (PyTuple [PyTensor Y; PyTensor U; PyTensor V])
      ∧ t_shape U = [1; 1; 4; 4]%nat ∧ t_shape V = [1; 1; 4; 4]%nat.
Proof.
  split; [exact example_frame8_valid|].
  destruct (resolution_444_420_444 example_frame8 1 example_frame8_valid)
    as (Y & U & V & E & _ & HU & HV & _).
  exists Y, U, V. split; [exact E|]. split; [exact HU|exact HV].
Defined.

(** The engine model on small inputs: a plane of one row [0 4 8 12]
    upsampled by 2 (two equal rows of eight), and a 2 by 2 plane averaged. *)
Example interpolate_row :
  t_data <$> match interpolate_bilinear example_row 2 false with
             | Return t => Some t | Raise _ => None end
  = Some (Qc_of_nat <$> [0; 1; 3; 5; 7; 9; 11; 12; 0; 1; 3; 5; 7; 9; 11; 12]%nat).
Proof. apply (bool_decide_eq_true_1 _). vm_compute. reflexivity. Qed.

Example avg_pool_plane_2x2 :
  t_data <$> match avg_pool2d (example_plane 0) 2 2 with
             | Return t => Some t | Raise _ => None end
  = Some [Q2Qc 1.5].
Proof. apply (bool_decide_eq_true_1 _). vm_compute. reflexivity. Qed.


(** * Further properties of the five functions *)

(** ** X1: the inverse transform, element by element *)

Lemma inverse_data_lookup y cb cr j Y Cb Cr :
  y !! j = Some Y → cb !! j = Some Cb → cr !! j = Some Cr →
  let R := Y + (2 - 2 * Kr) * (Cr - Q2Qc 0.5) in
  let B := Y + (2 - 2 * Kb) * (Cb - Q2Qc 0.5) in
  r_data y cb cr !! j = Some R
  ∧ b_data y cb cr !! j = Some B
  ∧ g_data y cb cr !! j = Some ((Y - Kr * R - Kb * B) / Kg).
Proof.
  intros Hy Hcb Hcr. unfold g_data, r_data, b_data.
  repeat rewrite ?list_lookup_fmap, ?lookup_zip_with.
  rewrite Hy, Hcb, Hcr. done.
Qed.

(** X1. For every valid image tensor [t] holding the planes Y, Cb, Cr,
    [ycbcr2rgb] returns a tensor of the shape and element type of [t] whose
    channels 0, 1 and 2 hold, at every batch index and pixel,
    [R = Y + (2 - 2*Kr)*(Cr - 0.5)], [G = (Y - Kr*R - Kb*B)/Kg] and
    [B = Y + (2 - 2*Kb)*(Cb - 0.5)] of the input's channels at that place. *)
Theorem ycbcr2rgb_planes t lead H W :
  valid_image t lead H W →
  ∃ out, ycbcr2rgb (PyTensor t) = Return out
    ∧ t_shape out = t_shape t ∧ t_dtype out = t_dtype t ∧ tensor_wf out
    ∧ ∀ li h w, in_bounds (t_shape t) (li ++ [0%nat; h; w]) →
        let Y := tensor_at t (li ++ [0%nat; h; w]) in
        let Cb := tensor_at t (li ++ [1%nat; h; w]) in
        let Cr := tensor_at t (li ++ [2%nat; h; w]) in
        let R := Y + (2 - 2 * Kr) * (Cr - Q2Qc 0.5) in
        let B := Y + (2 - 2 * Kb) * (Cb - Q2Qc 0.5) in
        tensor_at out (li ++ [0%nat; h; w]) = R
        ∧ tensor_at out (li ++ [1%nat; h; w]) = (Y - Kr * R - Kb * B) / Kg
        ∧ tensor_at out (li ++ [2%nat; h; w]) = B.
Proof.
  intros Hv. pose proof Hv as (Hwf & Hf & Hl & Hs).
  pose proof (λ k, channel_length t lead H W k Hv) as Hlen.
  pose proof (Hlen 0%nat ltac:(lia)) as H0.
  pose proof (Hlen 1%nat ltac:(lia)) as H1.
  pose proof (Hlen 2%nat ltac:(lia)) as H2. clear Hlen.
  set (y := channel t lead H W 0) in *.
  set (cb := channel t lead H W 1) in *.
  set (cr := channel t lead H W 2) in *.
  destruct (inverse_data_length y cb cr) as (Lr & Lg & Lb); [lia..|].
  assert (Hvo : valid_image (of_channels (t_dtype t) lead H W
                  (r_data y cb cr) (g_data y cb cr) (b_data y cb cr)) lead H W).
  { apply of_channels_valid; [done|done|lia..]. }
  eexists. split; [by apply ycbcr2rgb_channels|]. fold y cb cr.
  split_and!; [by rewrite Hs|done|apply Hvo|].
  intros li h w Hb. rewrite Hs in Hb.
  destruct (in_bounds_image _ _ _ _ _ _ _ Hb Hl) as (Hli & Ho & _ & Hh & Hw).
  set (j := (flat_index lead li * (H * W) + (h * W + w))%nat).
  pose proof (tensor_at_channel t lead H W li 0 h w Hv Hli Ho ltac:(lia) Hh Hw) as EY.
  pose proof (tensor_at_channel t lead H W li 1 h w Hv Hli Ho ltac:(lia) Hh Hw) as ECb.
  pose proof (tensor_at_channel t lead H W li 2 h w Hv Hli Ho ltac:(lia) Hh Hw) as ECr.
  fold y cb cr j in EY, ECb, ECr.
  destruct (inverse_data_lookup y cb cr j _ _ _ EY ECb ECr) as (ER & EB & EG).
  pose proof (tensor_at_channel _ lead H W li 0 h w Hvo Hli Ho ltac:(lia) Hh Hw) as OR.
  pose proof (tensor_at_channel _ lead H W li 1 h w Hvo Hli Ho ltac:(lia) Hh Hw) as OG.
  pose proof (tensor_at_channel _ lead H W li 2 h w Hvo Hli Ho ltac:(lia) Hh Hw) as OB.
  destruct (channel_of_channels (t_dtype t) lead H W
              (r_data y cb cr) (g_data y cb cr) (b_data y cb cr)) as (E0 & E1 & E2); [lia..|].
  rewrite E0 in OR. rewrite E1 in OG. rewrite E2 in OB. fold j in OR, OG, OB.
  cbn zeta in *. split_and!; congruence.
Qed.

Lemma ycbcr2rgb_planes_witness :
  valid_image example_image [1%nat] 1 2
  ∧ ∃ out, ycbcr2rgb (PyTensor example_image) = Return out
           ∧ t_shape out = t_shape example_image.
Proof.
  split; [exact example_image_valid|].
  destruct (ycbcr2rgb_planes example_image [1%nat] 1 2 example_image_valid)
    as (out & E & Hs & _).
  exists out. split; [exact E|exact Hs].
Defined.


(** ** X2: the colour transforms fail on a rejected input only *)

Lemma accepted_shape (o : pyobj) :
  _check_input_tensor o = Return () →
  ∃ t lead H W, o = PyTensor t ∧ is_floating_point t = true
                ∧ (length lead ≤ 1)%nat ∧ t_shape t = image_shape lead H W.
Proof.
  rewrite check_input_tensor_cases. destruct o as [t| | |]; try done.
  destruct (is_floating_point t) eqn:Hf; [|done]. cbn [andb].
  repeat case_bool_decide; try done. intros _. unfold dim in *.
  destruct (t_shape t) as [|a [|b [|c [|d [|e s]]]]] eqn:Hs; simpl in *; try lia.
  - simplify_eq. exists t, [], b, c. rewrite Hs. split_and!; try done. simpl. lia.
  - simplify_eq. exists t, [a], c, d. rewrite Hs. split_and!; try done.
Qed.

Lemma accepted_check t lead H W :
  is_floating_point t = true → (length lead ≤ 1)%nat → t_shape t = image_shape lead H W →
  _check_input_tensor (PyTensor t) = Return ().
Proof.
  intros Hf Hl Hs. unfold _check_input_tensor, size_at, dim.
  cbn. rewrite Hf, Hs.
  destruct lead as [|? [|? ?]]; simpl in *; [done..|lia].
Qed.

Lemma rgb2ycbcr_accepted t lead H W :
  is_floating_point t = true → (length lead ≤ 1)%nat → t_shape t = image_shape lead H W →
  ∃ out, rgb2ycbcr (PyTensor t) = Return out ∧ t_shape out = t_shape t.
Proof.
  intros Hf Hl Hs. unfold rgb2ycbcr. rewrite (accepted_check _ _ _ _ Hf Hl Hs).
  cbn [mbind result_bind as_Tensor].
  rewrite (chunk_channel _ _ _ _ Hl Hs).
  cbn [mbind result_bind unpack3]. rewrite weights_lookup. cbn [mbind result_bind].
  assert (Hsh : ∀ k, t_shape (narrow t (length lead) k 1) = plane_shape lead H W).
  { intros k. by rewrite (narrow_channel _ _ _ _ _ Hs). }
  erewrite (cat_planes _ _ _ lead H W Hl); [|apply Hsh..].
  eexists. split; [done|]. by rewrite Hs.
Qed.

Lemma ycbcr2rgb_accepted t lead H W :
  is_floating_point t = true → (length lead ≤ 1)%nat → t_shape t = image_shape lead H W →
  ∃ out, ycbcr2rgb (PyTensor t) = Return out ∧ t_shape out = t_shape t.
Proof.
  intros Hf Hl Hs. unfold ycbcr2rgb. rewrite (accepted_check _ _ _ _ Hf Hl Hs).
  cbn [mbind result_bind as_Tensor].
  rewrite (chunk_channel _ _ _ _ Hl Hs).
  cbn [mbind result_bind unpack3]. rewrite weights_lookup. cbn [mbind result_bind].
  assert (Hsh : ∀ k, t_shape (narrow t (length lead) k 1) = plane_shape lead H W).
  { intros k. by rewrite (narrow_channel _ _ _ _ _ Hs). }
  erewrite (cat_planes _ _ _ lead H W Hl); [|apply Hsh..].
  eexists. split; [done|]. by rewrite Hs.
Qed.

Lemma rejected_check (o : pyobj) :
  _check_input_tensor o ≠ Return () → _check_input_tensor o = Raise InvalidShape.
Proof.
  rewrite check_input_tensor_cases. destruct o as [t| | |]; try done.
  by destruct (_ && _).
Qed.

(** X2. Whatever Python object they are given, [rgb2ycbcr] and
    [ycbcr2rgb] return a tensor, of the shape of the argument, exactly when
    [_check_input_tensor] accepts the argument, and otherwise raise the
    validator's [ValueError] and nothing else: the splitting, the arithmetic,
    the lookup of the weights and the concatenation never fail on an
    accepted tensor, whatever its batch and spatial sizes. *)
Theorem colour_transforms_fail_only_on_rejection (o : pyobj) :
  (_check_input_tensor o = Return () →
     ∃ t out out', o = PyTensor t
       ∧ rgb2ycbcr o = Return out ∧ t_shape out = t_shape t
       ∧ ycbcr2rgb o = Return out' ∧ t_shape out' = t_shape t)
  ∧ (_check_input_tensor o ≠ Return () →
     rgb2ycbcr o = Raise InvalidShape ∧ ycbcr2rgb o = Raise InvalidShape)
  ∧ (is_Return (rgb2ycbcr o) = is_Return (_check_input_tensor o)
     ∧ is_Return (ycbcr2rgb o) = is_Return (_check_input_tensor o)).
Proof.
  assert (Hacc : _check_input_tensor o = Return () →
     ∃ t out out', o = PyTensor t
       ∧ rgb2ycbcr o = Return out ∧ t_shape out = t_shape t
       ∧ ycbcr2rgb o = Return out' ∧ t_shape out' = t_shape t).
  { intros Hc. destruct (accepted_shape o Hc) as (t & lead & H & W & -> & Hf & Hl & Hs).
    destruct (rgb2ycbcr_accepted t lead H W Hf Hl Hs) as (out & E & Hso).
    destruct (ycbcr2rgb_accepted t lead H W Hf Hl Hs) as (out' & E' & Hso').
    by exists t, out, out'. }
  assert (Hrej : _check_input_tensor o ≠ Return () →
     rgb2ycbcr o = Raise InvalidShape ∧ ycbcr2rgb o = Raise InvalidShape).
  { intros Hc. apply rejected_check in Hc. unfold rgb2ycbcr, ycbcr2rgb. by rewrite Hc. }
  split_and!; [done|done| |].
  - destruct (_check_input_tensor o) as [[]|e] eqn:Hc.
    + destruct (Hacc eq_refl) as (t & out & out' & _ & -> & _). done.
    + destruct Hrej as [-> _]; done.
  - destruct (_check_input_tensor o) as [[]|e] eqn:Hc.
    + destruct (Hacc eq_refl) as (t & out & out' & _ & _ & _ & -> & _). done.
    + destruct Hrej as [_ ->]; done.
Qed.


(** ** X3: grey pixels and neutral chroma *)

Lemma Qc_eq_Qeq (a b : Qc) : a = b ↔ (this a == this b)%Q.
Proof. split; [by intros ->|apply Qc_is_canon]. Qed.

Lemma neutral_chroma_iff_grey (R G B : Qc) :
  chroma_blue R G B = Q2Qc 0.5 ∧ chroma_red R G B = Q2Qc 0.5 ↔ R = G ∧ G = B.
Proof.
  unfold chroma_blue, chroma_red, luma.
  unfold Qcdiv. rewrite inv_one_minus_Kb, inv_one_minus_Kr. unfold Kr, Kg, Kb.
  rewrite !Qc_eq_Qeq.
  destruct R as [r Hr], G as [g Hg], B as [b Hb].
  Qc_to_Q. split; intros [H1 H2]; split; lra.
Qed.

Lemma grey_from_neutral_chroma (Y : Qc) :
  let R := Y + (2 - 2 * Kr) * (Q2Qc 0.5 - Q2Qc 0.5) in
  let B := Y + (2 - 2 * Kb) * (Q2Qc 0.5 - Q2Qc 0.5) in
  R = Y ∧ B = Y ∧ (Y - Kr * R - Kb * B) / Kg = Y.
Proof.
  cbn zeta. replace (Q2Qc 0.5 - Q2Qc 0.5) with 0 by ring.
  rewrite !Qcmult_0_r, !Qcplus_0_r. split_and!; [done|done|].
  replace (Y - Kr * Y - Kb * Y) with (Kg * Y).
  - field. apply Kg_nonzero.
  - replace Kg with (1 - Kr - Kb) by (by apply Qc_is_canon). ring.
Qed.

(** The elements of the two results at one pixel. *)
Lemma rgb2ycbcr_pixel t lead H W li h w :
  valid_image t lead H W → in_bounds (t_shape t) (li ++ [0%nat; h; w]) →
  ∃ out, rgb2ycbcr (PyTensor t) = Return out
    ∧ let R := tensor_at t (li ++ [0%nat; h; w]) in
      let G := tensor_at t (li ++ [1%nat; h; w]) in
      let B := tensor_at t (li ++ [2%nat; h; w]) in
      tensor_at out (li ++ [0%nat; h; w]) = luma R G B
      ∧ tensor_at out (li ++ [1%nat; h; w]) = chroma_blue R G B
      ∧ tensor_at out (li ++ [2%nat; h; w]) = chroma_red R G B.
Proof.
  intros Hv Hb. pose proof Hv as (Hwf & Hf & Hl & Hs). rewrite Hs in Hb.
  destruct (in_bounds_image _ _ _ _ _ _ _ Hb Hl) as (Hli & Ho & _ & Hh & Hw).
  pose proof (λ k, channel_length t lead H W k Hv) as Hlen.
  pose proof (Hlen 0%nat ltac:(lia)) as H0.
  pose proof (Hlen 1%nat ltac:(lia)) as H1.
  pose proof (Hlen 2%nat ltac:(lia)) as H2. clear Hlen.
  set (r := channel t lead H W 0) in *.
  set (g := channel t lead H W 1) in *.
  set (b := channel t lead H W 2) in *.
  destruct (forward_data_length r g b) as (Ly & Lcb & Lcr); [lia..|].
  assert (Hvo : valid_image (of_channels (t_dtype t) lead H W
                  (y_data r g b) (cb_data r g b) (cr_data r g b)) lead H W).
  { apply of_channels_valid; [done|done|lia..]. }
  eexists. split; [by apply rgb2ycbcr_channels|]. fold r g b.
  set (j := (flat_index lead li * (H * W) + (h * W + w))%nat).
  pose proof (tensor_at_channel t lead H W li 0 h w Hv Hli Ho ltac:(lia) Hh Hw) as ER.
  pose proof (tensor_at_channel t lead H W li 1 h w Hv Hli Ho ltac:(lia) Hh Hw) as EG.
  pose proof (tensor_at_channel t lead H W li 2 h w Hv Hli Ho ltac:(lia) Hh Hw) as EB.
  fold r g b j in ER, EG, EB.
  destruct (forward_data_lookup r g b j _ _ _ ER EG EB) as (EY & ECb & ECr).
  pose proof (tensor_at_channel _ lead H W li 0 h w Hvo Hli Ho ltac:(lia) Hh Hw) as OY.
  pose proof (tensor_at_channel _ lead H W li 1 h w Hvo Hli Ho ltac:(lia) Hh Hw) as OCb.
  pose proof (tensor_at_channel _ lead H W li 2 h w Hvo Hli Ho ltac:(lia) Hh Hw) as OCr.
  destruct (channel_of_channels (t_dtype t) lead H W
              (y_data r g b) (cb_data r g b) (cr_data r g b)) as (E0 & E1 & E2); [lia..|].
  rewrite E0 in OY. rewrite E1 in OCb. rewrite E2 in OCr. fold j in OY, OCb, OCr.
  cbn zeta. split_and!; congruence.
Qed.

Lemma ycbcr2rgb_pixel t lead H W li h w :
  valid_image t lead H W → in_bounds (t_shape t) (li ++ [0%nat; h; w]) →
  ∃ out, ycbcr2rgb (PyTensor t) = Return out
    ∧ let Y := tensor_at t (li ++ [0%nat; h; w]) in
      let Cb := tensor_at t (li ++ [1%nat; h; w]) in
      let Cr := tensor_at t (li ++ [2%nat; h; w]) in
      let R := Y + (2 - 2 * Kr) * (Cr - Q2Qc 0.5) in
      let B := Y + (2 - 2 * Kb) * (Cb - Q2Qc 0.5) in
      tensor_at out (li ++ [0%nat; h; w]) = R
      ∧ tensor_at out (li ++ [1%nat; h; w]) = (Y - Kr * R - Kb * B) / Kg
      ∧ tensor_at out (li ++ [2%nat; h; w]) = B.
Proof.
  intros Hv Hb. pose proof Hv as (Hwf & Hf & Hl & Hs). rewrite Hs in Hb.
  destruct (in_bounds_image _ _ _ _ _ _ _ Hb Hl) as (Hli & Ho & _ & Hh & Hw).
  pose proof (λ k, channel_length t lead H W k Hv) as Hlen.
  pose proof (Hlen 0%nat ltac:(lia)) as H0.
  pose proof (Hlen 1%nat ltac:(lia)) as H1.
  pose proof (Hlen 2%nat ltac:(lia)) as H2. clear Hlen.
  set (y := channel t lead H W 0) in *.
  set (cb := channel t lead H W 1) in *.
  set (cr := channel t lead H W 2) in *.
  destruct (inverse_data_length y cb cr) as (Lr & Lg & Lb); [lia..|].
  assert (Hvo : valid_image (of_channels (t_dtype t) lead H W
                  (r_data y cb cr) (g_data y cb cr) (b_data y cb cr)) lead H W).
  { apply of_channels_valid; [done|done|lia..]. }
  eexists. split; [by apply ycbcr2rgb_channels|]. fold y cb cr.
  set (j := (flat_index lead li * (H * W) + (h * W + w))%nat).
  pose proof (tensor_at_channel t lead H W li 0 h w Hv Hli Ho ltac:(lia) Hh Hw) as EY.
  pose proof (tensor_at_channel t lead H W li 1 h w Hv Hli Ho ltac:(lia) Hh Hw) as ECb.
  pose proof (tensor_at_channel t lead H W li 2 h w Hv Hli Ho ltac:(lia) Hh Hw) as ECr.
  fold y cb cr j in EY, ECb, ECr.
  destruct (inverse_data_lookup y cb cr j _ _ _ EY ECb ECr) as (ER & EB & EG).
  pose proof (tensor_at_channel _ lead H W li 0 h w Hvo Hli Ho ltac:(lia) Hh Hw) as OR.
  pose proof (tensor_at_channel _ lead H W li 1 h w Hvo Hli Ho ltac:(lia) Hh Hw) as OG.
  pose proof (tensor_at_channel _ lead H W li 2 h w Hvo Hli Ho ltac:(lia) Hh Hw) as OB.
  destruct (channel_of_channels (t_dtype t) lead H W
              (r_data y cb cr) (g_data y cb cr) (b_data y cb cr)) as (E0 & E1 & E2); [lia..|].
  rewrite E0 in OR. rewrite E1 in OG. rewrite E2 in OB. fold j in OR, OG, OB.
  cbn zeta in *. split_and!; congruence.
Qed.


Lemma example_image_pixel : in_bounds (t_shape example_image) ([0%nat] ++ [0%nat; 0%nat; 1%nat]).
Proof. repeat constructor. Defined.



(** ** X4: one image, with and without a batch axis *)

(** X4. A single image given as [(3,H,W)] and the same elements given as
    a batch of one, [(1,3,H,W)], are transformed alike: [rgb2ycbcr] and
    [ycbcr2rgb] return the same elements in the same order, in a tensor
    that has the batch axis exactly when the argument has it. *)
Theorem batch_of_one_agrees d H W (data : list Qc) :
  dtype_is_floating_point d = true → length data = (3 * (H * W))%nat →
  let single := {| t_dtype := d; t_shape := [3%nat; H; W]; t_data := data |} in
  let batch := {| t_dtype := d; t_shape := [1%nat; 3%nat; H; W]; t_data := data |} in
  ∃ out out',
    rgb2ycbcr (PyTensor single) = Return {| t_dtype := d; t_shape := [3%nat; H; W]; t_data := out |}
    ∧ rgb2ycbcr (PyTensor batch)
      = Return {| t_dtype := d; t_shape := [1%nat; 3%nat; H; W]; t_data := out |}
    ∧ ycbcr2rgb (PyTensor single)
      = Return {| t_dtype := d; t_shape := [3%nat; H; W]; t_data := out' |}
    ∧ ycbcr2rgb (PyTensor batch)
      = Return {| t_dtype := d; t_shape := [1%nat; 3%nat; H; W]; t_data := out' |}.
Proof.
  intros Hd Hlen single batch.
  assert (Hvs : valid_image single [] H W).
  { split_and!; [unfold tensor_wf; simpl; lia|done|simpl; lia|done]. }
  assert (Hvb : valid_image batch [1%nat] H W).
  { split_and!; [unfold tensor_wf; simpl; lia|done|simpl; lia|done]. }
  eexists _, _. split_and!.
  - by rewrite (rgb2ycbcr_channels _ _ _ _ Hvs).
  - by rewrite (rgb2ycbcr_channels _ _ _ _ Hvb).
  - by rewrite (ycbcr2rgb_channels _ _ _ _ Hvs).
  - by rewrite (ycbcr2rgb_channels _ _ _ _ Hvb).
Qed.

Lemma batch_of_one_agrees_witness :
  dtype_is_floating_point float32 = true
  ∧ length (t_data example_image) = (3 * (1 * 2))%nat
  ∧ ∃ out, rgb2ycbcr (PyTensor {| t_dtype := float32; t_shape := [3; 1; 2]%nat;
                                   t_data := t_data example_image |})
           = Return {| t_dtype := float32; t_shape := [3; 1; 2]%nat; t_data := out |}.
Proof.
  split; [reflexivity|]. split; [reflexivity|].
  destruct (batch_of_one_agrees float32 1 2 (t_data example_image) eq_refl eq_refl)
    as (out & out' & E & _).
  exists out. exact E.
Defined.


(** ** X5: [yuv_444_to_420] has no validator *)

Lemma chunk_not_ValueError t n d msg : chunk t n d ≠ Raise (ValueError msg).
Proof.
  unfold chunk. repeat case_bool_decide; try done.
  unfold wrap_dim. case_bool_decide; [|done]. cbn [mbind result_bind].
  by case_bool_decide.
Qed.

Lemma avg_pool2d_not_ValueError t k s msg : avg_pool2d t k s ≠ Raise (ValueError msg).
Proof.
  unfold avg_pool2d. case_bool_decide; [done|].
  destruct (is_floating_point t); cbn [negb]; [|done].
  destruct (negb _); [done|]. by case_bool_decide.
Qed.

Lemma downsample_not_ValueError o msg : _downsample o ≠ Raise (ValueError msg).
Proof.
  unfold _downsample. destruct o as [t| | |]; cbn; try done.
  apply avg_pool2d_not_ValueError.
Qed.

Lemma unpack3_error {A} (items : list A) e :
  unpack3 items = Raise e →
  length items ≠ 3%nat
  ∧ (e = ValueError "not enough values to unpack (expected 3)"
     ∨ e = ValueError "too many values to unpack (expected 3)").
Proof.
  unfold unpack3. destruct items as [|a [|b [|c [|d items]]]]; cbn; try done;
    intros [= <-]; split; auto.
Qed.

Lemma unpack3_wrong_length {A} (items : list A) :
  length items ≠ 3%nat →
  unpack3 items = Raise (ValueError (if (length items <? 3)%nat
                                     then "not enough values to unpack (expected 3)"
                                     else "too many values to unpack (expected 3)")).
Proof.
  intros Hlen. unfold unpack3.
  destruct items as [|a [|b [|c [|d items]]]]; cbn in *; try done.
Qed.

(** X5. [yuv_444_to_420] checks nothing itself: it never raises the
    errors of [_check_input_tensor] or of the triple check of
    [yuv_420_to_444].  A collection that does not have three elements fails
    in the unpacking, with Python's own [ValueError]; a number or [None]
    fails as not iterable, with a [TypeError]; a triple whose second element
    is not a tensor fails in the pooling call, with a [TypeError]; and a
    packed tensor [(N,C,H,W)] with 1, 2 or 4 channels fails in the unpacking
    of its chunks. *)
Theorem yuv_444_to_420_generic_errors :
  (∀ yuv, yuv_444_to_420 yuv ≠ Raise InvalidShape
          ∧ yuv_444_to_420 yuv ≠ Raise InvalidTriple)
  ∧ (∀ items, length items ≠ 3%nat →
       ∃ msg, yuv_444_to_420 (PyTuple items) = Raise (ValueError msg)
              ∧ ValueError msg ≠ InvalidTriple)
  ∧ (∀ x, ∃ msg, yuv_444_to_420 (PyFloat x) = Raise (TypeError msg))
  ∧ (∃ msg, yuv_444_to_420 PyNone = Raise (TypeError msg))
  ∧ (∀ y u v, isinstance_Tensor u = false →
       ∃ msg, yuv_444_to_420 (PyTuple [y; u; v]) = Raise (TypeError msg))
  ∧ (∀ t N C H W, t_shape t = [N; C; H; W] → C = 1%nat ∨ C = 2%nat ∨ C = 4%nat →
       yuv_444_to_420 (PyTensor t)
       = Raise (ValueError "not enough values to unpack (expected 3)")).
Proof.
  split_and!.
  - intros yuv.
    assert (H : ∀ msg, msg ≠ "not enough values to unpack (expected 3)" →
                       msg ≠ "too many values to unpack (expected 3)" →
                       yuv_444_to_420 yuv ≠ Raise (ValueError msg)).
    { intros msg Hm1 Hm2 Hraise. unfold yuv_444_to_420 in Hraise.
      destruct (if isinstance_Tensor yuv then _ else _) as [[[y u] v]|e] eqn:Hsplit.
      - cbn [mbind result_bind] in Hraise.
        destruct (_downsample u) as [u'|e] eqn:Eu.
        2:{ cbn in Hraise. injection Hraise as ->.
            by apply downsample_not_ValueError in Eu. }
        cbn [mbind result_bind] in Hraise.
        destruct (_downsample v) as [v'|e] eqn:Ev; [done|].
        cbn in Hraise. injection Hraise as ->.
        by apply downsample_not_ValueError in Ev.
      - cbn [mbind result_bind] in Hraise. injection Hraise as ->.
        destruct yuv as [t|x| |items]; cbn in Hsplit; try done.
        + destruct (chunk t 3 1) as [planes|e] eqn:Ec.
          * cbn in Hsplit. apply unpack3_error in Hsplit as [_ [[=]|[=]]]; congruence.
          * cbn in Hsplit. injection Hsplit as ->. by apply chunk_not_ValueError in Ec.
        + apply unpack3_error in Hsplit as [_ [[=]|[=]]]; congruence. }
    split; apply H; done.
  - intros items Hlen. unfold yuv_444_to_420. cbn [isinstance_Tensor py_iter mbind result_bind].
    rewrite (unpack3_wrong_length _ Hlen). cbn [mbind result_bind].
    eexists. split; [done|]. by destruct (_ <? _)%nat.
  - intros x. by eexists.
  - by eexists.
  - intros y u v Hu. unfold yuv_444_to_420, _downsample.
    destruct u as [t| | |]; try done; by eexists.
  - intros t N C H W Hs HC. unfold yuv_444_to_420, chunk, dim.
    cbn [isinstance_Tensor as_Tensor mbind result_bind]. rewrite Hs.
    destruct HC as [-> | [-> | ->]]; done.
Qed.


(** ** X6: [yuv_420_to_444] takes batched planes only *)

Lemma interpolate_bilinear_rank t k b :
  dim t ≠ 4%nat →
  interpolate_bilinear t k b = Raise (NotImplementedError "bilinear mode needs 4D input").
Proof.
  unfold interpolate_bilinear, dim.
  by destruct (t_shape t) as [|? [|? [|? [|? [|? ?]]]]].
Qed.

(** X6. [yuv_420_to_444] upsamples with the bilinear mode, which takes
    [(N,C,h,w)] only: on a triple of tensors whose U plane has another rank
    it raises [NotImplementedError], with or without [return_tuple].  So an
    unbatched triple, planes [(C,2H,2W)], goes through [yuv_444_to_420],
    which returns planes [(C,H,W)], but the triple that comes out cannot be
    given back to [yuv_420_to_444]. *)
Theorem yuv_420_to_444_unbatched_planes :
  (∀ Y U V b, dim U ≠ 4%nat →
     yuv_420_to_444 (PyTuple [PyTensor Y; PyTensor U; PyTensor V]) b
     = Raise (NotImplementedError "bilinear mode needs 4D input"))
  ∧ (∀ Y U V C H W, poolable U [] C H W → poolable V [] C H W →
     ∃ U' V',
       yuv_444_to_420 (PyTuple [PyTensor Y; PyTensor U; PyTensor V])
       = Return (PyTuple [PyTensor Y; PyTensor U'; PyTensor V'])
       ∧ t_shape U' = [C; H; W] ∧ t_shape V' = [C; H; W]
       ∧ ∀ b, yuv_420_to_444 (PyTuple [PyTensor Y; PyTensor U'; PyTensor V']) b
              = Raise (NotImplementedError "bilinear mode needs 4D input")).
Proof.
  assert (Hrank : ∀ Y U V b, dim U ≠ 4%nat →
     yuv_420_to_444 (PyTuple [PyTensor Y; PyTensor U; PyTensor V]) b
     = Raise (NotImplementedError "bilinear mode needs 4D input")).
  { intros Y U V b HU. unfold yuv_420_to_444, _upsample. cbn.
    by rewrite (interpolate_bilinear_rank U 2 false HU). }
  split; [exact Hrank|].
  intros Y U V C H W HU HV.
  destruct (yuv_444_to_420_triple (PyTensor Y) U V [] C H W HU HV)
    as (U' & V' & E & (HsU & _) & (HsV & _)).
  exists U', V'. split_and!; [done..|].
  intros b. apply Hrank. unfold dim. by rewrite HsU.
Qed.

Lemma example_plane_unbatched_poolable start :
  poolable (example_plane_unbatched start) [] 1 1 1.
Proof.
  split_and!; [|reflexivity|simpl; lia|reflexivity|lia..].
  unfold tensor_wf. simpl. reflexivity.
Defined.

Lemma yuv_420_to_444_unbatched_planes_witness :
  poolable (example_plane_unbatched 4) [] 1 1 1
  ∧ ∃ U' V', yuv_444_to_420 (PyTuple [PyTensor (example_plane_unbatched 0);
                                       PyTensor (example_plane_unbatched 4);
                                       PyTensor (example_plane_unbatched 8)])
             = Return (PyTuple [PyTensor (example_plane_unbatched 0);
                                PyTensor U'; PyTensor V'])
             ∧ yuv_420_to_444 (PyTuple [PyTensor (example_plane_unbatched 0);
                                        PyTensor U'; PyTensor V']) None
               = Raise (NotImplementedError "bilinear mode needs 4D input").
Proof.
  split; [apply example_plane_unbatched_poolable|].
  destruct (proj2 yuv_420_to_444_unbatched_planes (example_plane_unbatched 0)
              (example_plane_unbatched 4) (example_plane_unbatched 8) 1%nat 1%nat 1%nat
              (example_plane_unbatched_poolable 4) (example_plane_unbatched_poolable 8))
    as (U' & V' & E & _ & _ & Hraise).
  exists U', V'. split; [exact E|exact (Hraise None)].
Defined.


(** ** X7: the luma plane is checked by the concatenation only *)

Lemma wrap_dim_1 rank : (2 ≤ rank)%nat → wrap_dim rank 1 = Return 1%nat.
Proof.
  intros Hr. unfold wrap_dim. rewrite bool_decide_eq_true_2 by lia.
  by rewrite bool_decide_eq_false_2 by lia.
Qed.

Lemma wrap_dim_1_small rank : (rank < 2)%nat → is_Return (wrap_dim rank 1) = false.
Proof. intros Hr. unfold wrap_dim. by rewrite bool_decide_eq_false_2 by lia. Qed.

(** X7. On a triple of tensors whose chroma planes are [(N,1,h,w)],
    [yuv_420_to_444] with [return_tuple = true] returns [(Y, U', V')]
    whatever the shape of [Y]: it never compares the luma plane with the
    chroma planes.  Without [return_tuple] a luma plane that differs from
    [(N, _, 2h, 2w)] on an axis other than axis 1 makes the call raise, in
    the concatenation. *)
Theorem luma_shape_checked_by_cat_only Y U V N h w :
  upsamplable U N 1 h w → upsamplable V N 1 h w →
  (∃ U' V', yuv_420_to_444 (PyTuple [PyTensor Y; PyTensor U; PyTensor V]) (Some true)
            = Return (PyTuple [PyTensor Y; PyTensor U'; PyTensor V'])
            ∧ t_shape U' = [N; 1%nat; (2 * h)%nat; (2 * w)%nat]
            ∧ t_shape V' = [N; 1%nat; (2 * h)%nat; (2 * w)%nat])
  ∧ (t_shape Y ≠ [0%nat] →
     <[1%nat := 0%nat]> (t_shape Y) ≠ [N; 0%nat; (2 * h)%nat; (2 * w)%nat] →
     is_Return (yuv_420_to_444 (PyTuple [PyTensor Y; PyTensor U; PyTensor V]) None) = false
     ∧ is_Return (yuv_420_to_444 (PyTuple [PyTensor Y; PyTensor U; PyTensor V])
                    (Some false)) = false).
Proof.
  intros HU HV.
  destruct (interpolate_bilinear_shape U N 1 h w HU) as (U' & EU & HsU & HdU & HwfU).
  destruct (interpolate_bilinear_shape V N 1 h w HV) as (V' & EV & HsV & HdV & HwfV).
  assert (Hrun : ∀ b, yuv_420_to_444 (PyTuple [PyTensor Y; PyTensor U; PyTensor V]) b
            = if default false b
              then Return (PyTuple [PyTensor Y; PyTensor U'; PyTensor V'])
              else out ← cat [Y; U'; V'] 1; Return (PyTensor out)).
  { intros b. unfold yuv_420_to_444, _upsample. cbn. rewrite EU. cbn. rewrite EV. done. }
  split.
  { exists U', V'. by rewrite Hrun. }
  intros HY0 HY.
  assert (Hcat : is_Return (cat [Y; U'; V'] 1) = false).
  { unfold cat. rewrite !filter_cons, filter_nil.
    destruct (decide (t_shape Y ≠ [0%nat])) as [_|]; [|done].
    destruct (decide (t_shape U' ≠ [0%nat])) as [_|Hn]; [|by rewrite HsU in Hn; destruct Hn].
    destruct (decide (t_shape V' ≠ [0%nat])) as [_|Hn]; [|by rewrite HsV in Hn; destruct Hn].
    destruct (decide (dim Y < 2)%nat) as [Hr|Hr].
    - pose proof (wrap_dim_1_small _ Hr) as Hw.
      by destruct (wrap_dim (dim Y) 1).
    - rewrite wrap_dim_1 by lia. cbn [mbind result_bind forallb].
      unfold same_shape_except at 1. rewrite HsU. cbn [list_insert].
      rewrite bool_decide_eq_false_2; [done|].
      intros Heq. apply HY. rewrite Heq. done. }
  rewrite !Hrun. cbn [default from_option id].
  by destruct (cat [Y; U'; V'] 1).
Qed.

Lemma luma_shape_checked_by_cat_only_witness :
  upsamplable (example_chroma 1) 1 1 1 1 ∧ upsamplable (example_chroma 0) 1 1 1 1
  ∧ ∃ U' V', yuv_420_to_444 (PyTuple [PyTensor example_row; PyTensor (example_chroma 1);
                                       PyTensor (example_chroma 0)]) (Some true)
             = Return (PyTuple [PyTensor example_row; PyTensor U'; PyTensor V'])
  ∧ is_Return (yuv_420_to_444 (PyTuple [PyTensor example_row; PyTensor (example_chroma 1);
                                        PyTensor (example_chroma 0)]) None) = false.
Proof.
  split; [apply example_chroma_upsamplable|]. split; [apply example_chroma_upsamplable|].
  destruct (luma_shape_checked_by_cat_only example_row (example_chroma 1) (example_chroma 0)
              1 1 1 (example_chroma_upsamplable 1) (example_chroma_upsamplable 0))
    as ((U' & V' & E & _) & Hbad).
  exists U', V'. split; [exact E|].
  exact (proj1 (Hbad ltac:(discriminate) ltac:(discriminate))).
Defined.


(** ** X8, X9: resampling keeps the range of the samples *)

Lemma mean4_range (lo hi a b c d : Qc) :
  lo ≤ a ≤ hi → lo ≤ b ≤ hi → lo ≤ c ≤ hi → lo ≤ d ≤ hi →
  lo ≤ (a + b + c + d) / Q2Qc 4 ≤ hi.
Proof.
  intros [? ?] [? ?] [? ?] [? ?].
  replace ((a + b + c + d) / Q2Qc 4) with (Q2Qc (1 # 4) * (a + b + c + d)).
  2:{ unfold Qcdiv. replace (/ Q2Qc 4) with (Q2Qc (1 # 4)) by (by apply Qc_is_canon). ring. }
  destruct lo as [lo ?], hi as [hi ?], a as [a ?], b as [b ?], c as [c ?], d as [d ?].
  Qc_to_Q. split; lra.
Qed.

Lemma convex2_range (lo hi a b l : Qc) :
  lo ≤ a ≤ hi → lo ≤ b ≤ hi → 0 ≤ l ≤ 1 →
  lo ≤ (1 - l) * a + l * b ≤ hi.
Proof.
  intros [? ?] [? ?] [? ?].
  destruct lo as [lo ?], hi as [hi ?], a as [a ?], b as [b ?], l as [l ?].
  Qc_to_Q. split; nra.
Qed.

Lemma clamp_unit (x : Qc) : 0 ≤ Qc_min (Qc_max x 0) 1 ≤ 1.
Proof.
  unfold Qc_min, Qc_max.
  destruct (bool_decide_reflect (x ≤ 0)) as [Hx|Hx].
  - rewrite bool_decide_eq_true_2 by done. done.
  - apply Qcnot_le_lt in Hx.
    destruct (bool_decide_reflect (x ≤ 1)) as [Hx1|Hx1].
    + split; [by apply Qclt_le_weak|done].
    + done.
Qed.

(** The two source indices lie inside the input and the two weights are
    the complementary parts of a weight between 0 and 1. *)
Lemma compute_source_index_and_lambda_inside ratio idx n m b :
  n ≠ 0%nat → (idx < m)%nat →
  ∃ i0 i1 l, compute_source_index_and_lambda ratio idx n m b = (i0, i1, 1 - l, l)
             ∧ (i0 < n)%nat ∧ (i1 < n)%nat ∧ 0 ≤ l ≤ 1.
Proof.
  intros Hn Hidx. unfold compute_source_index_and_lambda.
  destruct (bool_decide_reflect (m = n)) as [->|Hne].
  - exists idx, idx, 0. split_and!; done.
  - eexists _, _, _. split; [reflexivity|].
    split_and!; try apply clamp_unit; [lia|].
    destruct (Nat.ltb_spec (Nat.min (Z.to_nat (Qfloor
       (area_pixel_compute_source_index ratio idx b))) (n - 1)) (n - 1)); lia.
Qed.

Lemma plane_at_inside (P : Qc → Prop) H W pl h w :
  length pl = (H * W)%nat → Forall P pl → (h < H)%nat → (w < W)%nat →
  P (plane_at W pl h w).
Proof.
  intros Hlen HP Hh Hw. unfold plane_at.
  assert (Hlt : (h * W + w < length pl)%nat).
  { rewrite Hlen. assert ((h + 1) * W ≤ H * W)%nat by (apply Nat.mul_le_mono_r; lia). lia. }
  destruct (lookup_lt_is_Some_2 pl _ Hlt) as [x Hx].
  rewrite (nth_lookup_Some _ _ _ _ Hx).
  by eapply Forall_lookup_1.
Qed.

Lemma Forall_map_planes (P Q : Qc → Prop) n sz f l :
  length l = (n * sz)%nat → Forall P l →
  (∀ pl, length pl = sz → Forall P pl → Forall Q (f pl)) →
  Forall Q (map_planes n sz f l).
Proof.
  intros Hlen HP Hf. revert l Hlen HP.
  induction n as [|n IH]; intros l Hlen HP; cbn [map_planes]; [done|].
  apply Forall_app. split.
  - apply Hf; [rewrite length_take; simpl in Hlen; lia|by apply Forall_take].
  - apply IH; [rewrite length_drop; simpl in Hlen; lia|by apply Forall_drop].
Qed.

Lemma avg_pool_plane_range lo hi H W pl :
  H ≠ 0%nat → W ≠ 0%nat →
  length pl = (2 * H * (2 * W))%nat → Forall (λ x, lo ≤ x ≤ hi) pl →
  Forall (λ x, lo ≤ x ≤ hi) (avg_pool_plane (2 * H) (2 * W) 2 2 pl).
Proof.
  intros HH HW Hlen Hpl. unfold avg_pool_plane. rewrite !pool_out_even by done.
  apply Forall_forall. intros x Hx.
  apply list_elem_of_In, in_flat_map in Hx as (oh & Hoh & Hx).
  apply in_map_iff in Hx as (ow & <- & How).
  apply in_seq in Hoh, How. rewrite avg_window_2.
  apply mean4_range;
    apply (plane_at_inside (λ x, lo ≤ x ≤ hi) (2 * H) (2 * W)); try done; lia.
Qed.

Lemma upsample_bilinear_plane_range lo hi H W OH OW b scale pl :
  H ≠ 0%nat → W ≠ 0%nat →
  length pl = (H * W)%nat → Forall (λ x, lo ≤ x ≤ hi) pl →
  Forall (λ x, lo ≤ x ≤ hi) (upsample_bilinear_plane H W OH OW b scale pl).
Proof.
  intros HH HW Hlen Hpl. unfold upsample_bilinear_plane.
  apply Forall_forall. intros x Hx.
  apply list_elem_of_In, in_flat_map in Hx as (oh & Hoh & Hx).
  apply in_seq in Hoh.
  destruct (compute_source_index_and_lambda_inside
              (area_pixel_compute_scale H OH b scale) oh H OH b HH)
    as (h0 & h1 & lh & Eh & Hh0 & Hh1 & Hlh); [lia|].
  rewrite Eh in Hx.
  apply in_map_iff in Hx as (ow & <- & How).
  apply in_seq in How.
  destruct (compute_source_index_and_lambda_inside
              (area_pixel_compute_scale W OW b scale) ow W OW b HW)
    as (w0 & w1 & lw & Ew & Hw0 & Hw1 & Hlw); [lia|].
  rewrite Ew.
  apply convex2_range; [| |done];
    (apply convex2_range; [| |done]);
    apply (plane_at_inside (λ x, lo ≤ x ≤ hi) H W); done.
Qed.

Lemma avg_pool2d_even_data u lead C H W :
  poolable u lead C H W →
  avg_pool2d u 2 2
  = Return {| t_dtype := t_dtype u;
              t_shape := (lead ++ [C]) ++ [H; W];
              t_data := map_planes (numel_of (lead ++ [C])) (2 * H * (2 * W))
                          (avg_pool_plane (2 * H) (2 * W) 2 2) (t_data u) |}.
Proof.
  intros (Hwf & Hf & Hl & Hs & HC & HH & HW).
  assert (Hdim : dim u = (length lead + 3)%nat).
  { unfold dim. rewrite Hs, !length_app. simpl. lia. }
  assert (Hlead : take (dim u - 2) (t_shape u) = lead ++ [C]).
  { rewrite Hs, Hdim. rewrite take_app_length'; [done|]. rewrite length_app. simpl. lia. }
  assert (HnH : nth (dim u - 2) (t_shape u) 0%nat = (2 * H)%nat).
  { rewrite Hs, Hdim. destruct lead as [|? [|? ?]]; simpl in *; try done; lia. }
  assert (HnW : nth (dim u - 1) (t_shape u) 0%nat = (2 * W)%nat).
  { rewrite Hs, Hdim. destruct lead as [|? [|? ?]]; simpl in *; try done; lia. }
  unfold avg_pool2d.
  rewrite bool_decide_eq_false_2 by lia.
  rewrite Hf. cbn [negb].
  rewrite Hlead, HnH, HnW, !pool_out_even by done.
  replace (match t_shape u with
           | [c; h; w] => bool_decide (c ≠ 0 ∧ h ≠ 0 ∧ w ≠ 0)%nat
           | [_; c; h; w] => bool_decide (c ≠ 0 ∧ h ≠ 0 ∧ w ≠ 0)%nat
           | _ => false
           end) with true.
  2:{ rewrite Hs. destruct lead as [|? [|? ?]]; simpl in *; try lia;
        symmetry; apply bool_decide_eq_true_2; lia. }
  cbn [negb]. by rewrite bool_decide_eq_false_2 by lia.
Qed.

Lemma downsample_range lo hi u lead C H W :
  poolable u lead C H W → Forall (λ x, lo ≤ x ≤ hi) (t_data u) →
  ∃ u', _downsample (PyTensor u) = Return u'
        ∧ t_shape u' = (lead ++ [C]) ++ [H; W]
        ∧ Forall (λ x, lo ≤ x ≤ hi) (t_data u').
Proof.
  intros Hu Hr. eexists. split; [apply (avg_pool2d_even_data _ _ _ _ _ Hu)|].
  split; [done|]. cbn [t_data].
  destruct Hu as (Hwf & Hf & Hl & Hs & HC & HH & HW).
  apply (Forall_map_planes (λ x, lo ≤ x ≤ hi)); [|done|].
  - unfold tensor_wf in Hwf. rewrite Hwf, Hs, numel_of_app. simpl. lia.
  - intros pl Hlen Hpl. by apply avg_pool_plane_range.
Qed.

Lemma upsample_range lo hi u N C h w :
  upsamplable u N C h w → Forall (λ x, lo ≤ x ≤ hi) (t_data u) →
  ∃ u', _upsample (PyTensor u) = Return u'
        ∧ t_shape u' = [N; C; (2 * h)%nat; (2 * w)%nat]
        ∧ Forall (λ x, lo ≤ x ≤ hi) (t_data u').
Proof.
  intros (Hwf & Hf & Hs & HC & Hh & Hw) Hr.
  unfold _upsample, interpolate_bilinear. cbn [as_Tensor mbind result_bind].
  rewrite Hs, Hf. cbn [negb].
  rewrite !bool_decide_eq_false_2 by lia.
  eexists. split; [done|]. cbn [t_shape t_data].
  split; [by rewrite (Nat.mul_comm h), (Nat.mul_comm w)|].
  apply (Forall_map_planes (λ x, lo ≤ x ≤ hi)); [|done|].
  - unfold tensor_wf in Hwf. rewrite Hwf, Hs. simpl. lia.
  - intros pl Hlen Hpl. by apply upsample_bilinear_plane_range.
Qed.

(** X8. [yuv_444_to_420] keeps the range of the chroma samples: on a
    triple whose chroma planes are [(C,2H,2W)] or [(N,C,2H,2W)] with every
    element between [lo] and [hi], it returns the first item as it is and
    two planes [(.., C, H, W)] all of whose elements lie between [lo] and
    [hi]. *)
Theorem yuv_444_to_420_keeps_range (lo hi : Qc) y U V lead C H W :
  poolable U lead C H W → poolable V lead C H W →
  Forall (λ x, lo ≤ x ≤ hi) (t_data U) → Forall (λ x, lo ≤ x ≤ hi) (t_data V) →
  ∃ U' V', yuv_444_to_420 (PyTuple [y; PyTensor U; PyTensor V])
           = Return (PyTuple [y; PyTensor U'; PyTensor V'])
           ∧ t_shape U' = (lead ++ [C]) ++ [H; W] ∧ t_shape V' = (lead ++ [C]) ++ [H; W]
           ∧ Forall (λ x, lo ≤ x ≤ hi) (t_data U')
           ∧ Forall (λ x, lo ≤ x ≤ hi) (t_data V').
Proof.
  intros HU HV HrU HrV.
  destruct (downsample_range lo hi U lead C H W HU HrU) as (U' & EU & HsU & HU').
  destruct (downsample_range lo hi V lead C H W HV HrV) as (V' & EV & HsV & HV').
  exists U', V'. split; [|done].
  unfold yuv_444_to_420. cbn -[_downsample]. rewrite EU. cbn -[_downsample]. by rewrite EV.
Qed.

Lemma example_plane_range start :
  Forall (λ x, Qc_of_nat start ≤ x ≤ Qc_of_nat (start + 3)) (t_data (example_plane start)).
Proof.
  unfold example_plane. cbn [t_data seq fmap list_fmap].
  assert (Hmono : ∀ a b, (a ≤ b)%nat → Qc_of_nat a ≤ Qc_of_nat b).
  { intros a b Hab. unfold Qc_of_nat, Qcle. cbn [this Q2Qc].
    rewrite !Qred_correct. rewrite <- Zle_Qle. lia. }
  repeat (apply Forall_cons_2; [split; apply Hmono; lia|]). apply Forall_nil_2.
Defined.

Lemma yuv_444_to_420_keeps_range_witness :
  poolable (example_plane 4) [1%nat] 1 1 1 ∧ poolable (example_plane 4) [1%nat] 1 1 1
  ∧ Forall (λ x, Qc_of_nat 4 ≤ x ≤ Qc_of_nat (4 + 3)) (t_data (example_plane 4))
  ∧ ∃ U' V', yuv_444_to_420 (PyTuple [PyNone; PyTensor (example_plane 4);
                                       PyTensor (example_plane 4)])
             = Return (PyTuple [PyNone; PyTensor U'; PyTensor V'])
             ∧ Forall (λ x, Qc_of_nat 4 ≤ x ≤ Qc_of_nat (4 + 3)) (t_data U').
Proof.
  split; [apply example_plane_poolable|]. split; [apply example_plane_poolable|].
  split; [apply example_plane_range|].
  destruct (yuv_444_to_420_keeps_range (Qc_of_nat 4) (Qc_of_nat (4 + 3)) PyNone
              (example_plane 4) (example_plane 4) [1%nat] 1 1 1
              (example_plane_poolable 4) (example_plane_poolable 4)
              (example_plane_range 4) (example_plane_range 4))
    as (U' & V' & E & _ & _ & HU & _).
  exists U', V'. split; [exact E|exact HU].
Defined.

(** X9. [yuv_420_to_444] keeps the range of the chroma samples: on a
    triple of tensors whose chroma planes are [(N,C,h,w)] with every element
    between [lo] and [hi], the call with [return_tuple = true] returns the
    luma plane as it is and two planes [(N,C,2h,2w)] all of whose elements
    lie between [lo] and [hi]: the bilinear upsampling never overshoots. *)
Theorem yuv_420_to_444_keeps_range (lo hi : Qc) Y U V N C h w :
  upsamplable U N C h w → upsamplable V N C h w →
  Forall (λ x, lo ≤ x ≤ hi) (t_data U) → Forall (λ x, lo ≤ x ≤ hi) (t_data V) →
  ∃ U' V', yuv_420_to_444 (PyTuple [PyTensor Y; PyTensor U; PyTensor V]) (Some true)
           = Return (PyTuple [PyTensor Y; PyTensor U'; PyTensor V'])
           ∧ t_shape U' = [N; C; (2 * h)%nat; (2 * w)%nat]
           ∧ t_shape V' = [N; C; (2 * h)%nat; (2 * w)%nat]
           ∧ Forall (λ x, lo ≤ x ≤ hi) (t_data U')
           ∧ Forall (λ x, lo ≤ x ≤ hi) (t_data V').
Proof.
  intros HU HV HrU HrV.
  destruct (upsample_range lo hi U N C h w HU HrU) as (U' & EU & HsU & HU').
  destruct (upsample_range lo hi V N C h w HV HrV) as (V' & EV & HsV & HV').
  exists U', V'. split; [|done].
  unfold yuv_420_to_444. cbn -[_upsample]. rewrite EU. cbn -[_upsample]. by rewrite EV.
Qed.

Lemma example_chroma_unit : Forall (λ x, 0 ≤ x ≤ 1) (t_data (example_chroma 1)).
Proof. apply Forall_cons_2; [split; discriminate|apply Forall_nil_2]. Defined.

Lemma yuv_420_to_444_keeps_range_witness :
  upsamplable (example_chroma 1) 1 1 1 1
  ∧ Forall (λ x, 0 ≤ x ≤ 1) (t_data (example_chroma 1))
  ∧ ∃ U' V', yuv_420_to_444 (PyTuple [PyTensor example_row; PyTensor (example_chroma 1);
                                       PyTensor (example_chroma 1)]) (Some true)
             = Return (PyTuple [PyTensor example_row; PyTensor U'; PyTensor V'])
             ∧ Forall (λ x, 0 ≤ x ≤ 1) (t_data U').
Proof.
  split; [apply example_chroma_upsamplable|]. split; [apply example_chroma_unit|].
  destruct (yuv_420_to_444_keeps_range 0 1 example_row (example_chroma 1) (example_chroma 1)
              1 1 1 1 (example_chroma_upsamplable 1) (example_chroma_upsamplable 1)
              example_chroma_unit example_chroma_unit)
    as (U' & V' & E & _ & _ & HU & _).
  exists U', V'. split; [exact E|exact HU].
Defined.


(** ** X10: spatial sizes that are odd or too small *)

Lemma pool_out_half H : (2 ≤ H)%nat → pool_out H 2 2 = (H / 2)%nat.
Proof.
  intros HH. unfold pool_out.
  destruct (Nat.ltb_spec H 2) as [Hlt|Hge]; [lia|].
  replace H with (H - 2 + 1 * 2)%nat at 2 by lia.
  by rewrite Nat.div_add.
Qed.

Lemma pool_out_small H : (H < 2)%nat → pool_out H 2 2 = 0%nat.
Proof. intros HH. unfold pool_out. by destruct (Nat.ltb_spec H 2) as [Hlt|Hge]; [|lia]. Qed.

Lemma plane_stack_axes u lead C H W :
  plane_stack u lead C H W →
  take (dim u - 2) (t_shape u) = lead ++ [C]
  ∧ nth (dim u - 2) (t_shape u) 0%nat = H
  ∧ nth (dim u - 1) (t_shape u) 0%nat = W
  ∧ match t_shape u with
    | [c; h; w] => bool_decide (c ≠ 0 ∧ h ≠ 0 ∧ w ≠ 0)%nat
    | [_; c; h; w] => bool_decide (c ≠ 0 ∧ h ≠ 0 ∧ w ≠ 0)%nat
    | _ => false
    end = bool_decide (H ≠ 0 ∧ W ≠ 0)%nat.
Proof.
  intros (Hwf & Hf & Hl & Hs & HC).
  assert (Hdim : dim u = (length lead + 3)%nat).
  { unfold dim. rewrite Hs, !length_app. simpl. lia. }
  split_and!.
  - rewrite Hs, Hdim. rewrite take_app_length'; [done|]. rewrite length_app. simpl. lia.
  - rewrite Hs, Hdim. destruct lead as [|? [|? ?]]; simpl in *; try done; lia.
  - rewrite Hs, Hdim. destruct lead as [|? [|? ?]]; simpl in *; try done; lia.
  - rewrite Hs. destruct lead as [|? [|? ?]]; simpl in *; try lia;
      apply bool_decide_ext; tauto.
Qed.

Lemma avg_pool2d_floor u lead C H W :
  plane_stack u lead C H W → (2 ≤ H)%nat → (2 ≤ W)%nat →
  ∃ u', avg_pool2d u 2 2 = Return u' ∧ block_mean u u' (lead ++ [C]) (H / 2) (W / 2).
Proof.
  intros Hu HH HW.
  destruct (plane_stack_axes _ _ _ _ _ Hu) as (Hlead & HnH & HnW & Hne).
  destruct Hu as (Hwf & Hf & Hl & Hs & HC).
  assert (H2 : (H / 2 ≠ 0 ∧ 2 * (H / 2) ≤ H)%nat).
  { pose proof (Nat.div_str_pos H 2 ltac:(lia)).
    pose proof (Nat.Div0.mul_div_le H 2). lia. }
  assert (W2 : (W / 2 ≠ 0 ∧ 2 * (W / 2) ≤ W)%nat).
  { pose proof (Nat.div_str_pos W 2 ltac:(lia)).
    pose proof (Nat.Div0.mul_div_le W 2). lia. }
  unfold avg_pool2d.
  rewrite bool_decide_eq_false_2 by lia.
  rewrite Hf. cbn [negb].
  rewrite Hlead, HnH, HnW, Hne, !pool_out_half by done.
  rewrite (bool_decide_eq_true_2 (H ≠ 0 ∧ W ≠ 0)%nat) by lia.
  cbn [negb]. rewrite bool_decide_eq_false_2 by lia.
  eexists. split; [done|].
  unfold tensor_wf in Hwf. rewrite Hs, numel_of_app in Hwf.
  change (numel_of [H; W]) with (H * (W * 1))%nat in Hwf.
  assert (Hlenf : ∀ x, length (avg_pool_plane H W 2 2 x) = (H / 2 * (W / 2))%nat).
  { intros x. by rewrite avg_pool_plane_length, !pool_out_half. }
  split_and!; [done|done| |].
  - unfold tensor_wf. cbn [t_data t_shape].
    rewrite (map_planes_length _ _ (H / 2 * (W / 2))) by done.
    rewrite !numel_of_app. simpl. lia.
  - intros I i j HI Hi Hj.
    pose proof (Forall2_length _ _ _ HI) as HlenI.
    pose proof (flat_index_lt _ _ HI) as Hp.
    set (p := flat_index (lead ++ [C]) I) in *.
    assert (Hq : (i * (W / 2) + j < H / 2 * (W / 2))%nat).
    { assert ((i + 1) * (W / 2) ≤ H / 2 * (W / 2))%nat by (apply Nat.mul_le_mono_r; lia). lia. }
    unfold tensor_at at 1. cbn [t_data t_shape].
    rewrite flat_index_plane by done. fold p.
    rewrite nth_lookup, (lookup_map_planes _ _ (H / 2 * (W / 2))) by done.
    unfold avg_pool_plane. rewrite !pool_out_half by done.
    rewrite lookup_grid by done. cbn [default from_option id].
    rewrite avg_window_2. unfold plane_at, tensor_at.
    rewrite Hs, !flat_index_plane by done. fold p.
    assert (Hrow : ∀ a b, (a < 2)%nat → (b < 2)%nat →
              ((i * 2 + a) * W + (j * 2 + b) < H * W)%nat).
    { intros a b Ha Hb.
      assert ((i * 2 + a + 1) * W ≤ H * W)%nat
        by (apply Nat.mul_le_mono_r; lia). lia. }
    rewrite !nth_take_drop.
    + do 2 f_equal; [do 2 f_equal|]; f_equal; lia.
    + pose proof (Hrow 1 1)%nat. lia.
    + pose proof (Hrow 1 0)%nat. lia.
    + pose proof (Hrow 0 1)%nat. lia.
    + pose proof (Hrow 0 0)%nat. lia.
Qed.

Lemma avg_pool2d_too_small u lead C H W :
  plane_stack u lead C H W → (H < 2 ∨ W < 2)%nat →
  ∃ msg, avg_pool2d u 2 2 = Raise (RuntimeError msg).
Proof.
  intros Hu Hsmall.
  destruct (plane_stack_axes _ _ _ _ _ Hu) as (Hlead & HnH & HnW & Hne).
  destruct Hu as (Hwf & Hf & Hl & Hs & HC).
  unfold avg_pool2d.
  rewrite bool_decide_eq_false_2 by lia.
  rewrite Hf. cbn [negb].
  rewrite Hlead, HnH, HnW, Hne.
  destruct (bool_decide (H ≠ 0 ∧ W ≠ 0)%nat); cbn [negb]; [|by eexists].
  rewrite bool_decide_eq_true_2; [by eexists|].
  destruct Hsmall; [left|right]; by apply pool_out_small.
Qed.

(** X10. [yuv_444_to_420] on a triple whose chroma planes are floating
    point, [(C,H,W)] or [(N,C,H,W)], with any spatial sizes.  When [H] and
    [W] are at least 2, it returns the first item as it is and chroma planes
    of spatial sizes [H / 2] and [W / 2] rounded down, holding the means of
    the disjoint 2 by 2 blocks: the last row of an odd [H] and the last
    column of an odd [W] are dropped.  When [H] or [W] of the second item is
    below 2 the call raises [RuntimeError], whatever the third item is. *)
Theorem yuv_444_to_420_odd_and_small_sizes y U lead C H W :
  plane_stack U lead C H W →
  ((2 ≤ H)%nat → (2 ≤ W)%nat → ∀ V, plane_stack V lead C H W →
     ∃ U' V', yuv_444_to_420 (PyTuple [y; PyTensor U; PyTensor V])
              = Return (PyTuple [y; PyTensor U'; PyTensor V'])
              ∧ block_mean U U' (lead ++ [C]) (H / 2) (W / 2)
              ∧ block_mean V V' (lead ++ [C]) (H / 2) (W / 2))
  ∧ ((H < 2 ∨ W < 2)%nat → ∀ v,
     ∃ msg, yuv_444_to_420 (PyTuple [y; PyTensor U; v]) = Raise (RuntimeError msg)).
Proof.
  intros HU. split.
  - intros HH HW V HV.
    destruct (avg_pool2d_floor U lead C H W HU HH HW) as (U' & EU & BU).
    destruct (avg_pool2d_floor V lead C H W HV HH HW) as (V' & EV & BV).
    exists U', V'. split; [|done].
    unfold yuv_444_to_420, _downsample. cbn. by rewrite EU, EV.
  - intros Hsmall v.
    destruct (avg_pool2d_too_small U lead C H W HU Hsmall) as (msg & E).
    exists msg. unfold yuv_444_to_420, _downsample. cbn. by rewrite E.
Qed.

Lemma example_plane33_stack start : plane_stack (example_plane33 start) [1%nat] 1 3 3.
Proof. split_and!; [reflexivity|reflexivity|simpl; lia|reflexivity|lia]. Defined.

Lemma yuv_444_to_420_odd_and_small_sizes_witness :
  plane_stack (example_plane33 0) [1%nat] 1 3 3
  ∧ ∃ U' V', yuv_444_to_420 (PyTuple [PyNone; PyTensor (example_plane33 0);
                                       PyTensor (example_plane33 9)])
             = Return (PyTuple [PyNone; PyTensor U'; PyTensor V'])
             ∧ t_shape U' = [1; 1; 1; 1]%nat
             ∧ tensor_at U' [0; 0; 0; 0]%nat = Q2Qc 2.
Proof.
  split; [apply example_plane33_stack|].
  destruct (proj1 (yuv_444_to_420_odd_and_small_sizes PyNone (example_plane33 0)
                     [1%nat] 1 3 3 (example_plane33_stack 0))
              ltac:(lia) ltac:(lia) (example_plane33 9) (example_plane33_stack 9))
    as (U' & V' & E & (HsU & _ & _ & HU) & _).
  exists U', V'. split; [exact E|]. split; [exact HsU|].
  change [0; 0; 0; 0]%nat with ([0; 0] ++ [0; 0])%nat.
  rewrite (HU [0; 0]%nat 0%nat 0%nat); [by apply Qc_is_canon| |simpl; lia..].
  repeat constructor.
Defined.


(** ** X11: the four functions in sequence *)

Lemma rgb2ycbcr_returns_valid t lead H W :
  valid_image t lead H W →
  ∃ ycc, rgb2ycbcr (PyTensor t) = Return ycc ∧ valid_image ycc lead H W
         ∧ t_dtype ycc = t_dtype t.
Proof.
  intros Hv. pose proof Hv as (Hwf & Hf & Hl & Hs).
  pose proof (channel_length t lead H W 0 Hv ltac:(lia)) as H0.
  pose proof (channel_length t lead H W 1 Hv ltac:(lia)) as H1.
  pose proof (channel_length t lead H W 2 Hv ltac:(lia)) as H2.
  destruct (forward_data_length (channel t lead H W 0) (channel t lead H W 1)
              (channel t lead H W 2)) as (Ly & Lcb & Lcr); [lia..|].
  eexists. split; [by apply rgb2ycbcr_channels|]. split; [|done].
  apply of_channels_valid; [done|done|lia..].
Qed.

Lemma ycbcr2rgb_then_rgb2ycbcr t lead H W :
  valid_image t lead H W →
  ∃ rgb, ycbcr2rgb (PyTensor t) = Return rgb ∧ valid_image rgb lead H W
         ∧ t_dtype rgb = t_dtype t
         ∧ rgb2ycbcr (PyTensor rgb) = Return t.
Proof.
  intros Hv. pose proof Hv as (Hwf & Hf & Hl & Hs).
  pose proof (channel_length t lead H W 0 Hv ltac:(lia)) as H0.
  pose proof (channel_length t lead H W 1 Hv ltac:(lia)) as H1.
  pose proof (channel_length t lead H W 2 Hv ltac:(lia)) as H2.
  set (p0 := channel t lead H W 0) in *.
  set (p1 := channel t lead H W 1) in *.
  set (p2 := channel t lead H W 2) in *.
  destruct (inverse_data_length p0 p1 p2) as (Lr & Lg & Lb); [lia..|].
  assert (Hvr : valid_image (of_channels (t_dtype t) lead H W (r_data p0 p1 p2)
                               (g_data p0 p1 p2) (b_data p0 p1 p2)) lead H W)
    by (apply of_channels_valid; [done|done|lia..]).
  eexists. split; [by apply ycbcr2rgb_channels|]. fold p0 p1 p2.
  split; [done|]. split; [done|].
  destruct (channel_of_channels (t_dtype t) lead H W
              (r_data p0 p1 p2) (g_data p0 p1 p2) (b_data p0 p1 p2))
    as (E0 & E1 & E2); [lia..|].
  rewrite (rgb2ycbcr_channels _ lead H W) by done.
  cbn zeta. rewrite E0, E1, E2.
  destruct (roundtrip_data_rev p0 p1 p2) as (-> & -> & ->); [lia..|].
  f_equal. change (t_dtype (of_channels _ _ _ _ _ _ _)) with (t_dtype t).
  subst p0 p1 p2. by apply of_channels_channel.
Qed.

Lemma yuv_420_to_444_packs Y U V N h w :
  tensor_wf Y → is_floating_point Y = true →
  t_shape Y = [N; 1%nat; (2 * h)%nat; (2 * w)%nat] →
  upsamplable U N 1 h w → upsamplable V N 1 h w →
  t_dtype U = t_dtype Y → t_dtype V = t_dtype Y →
  ∃ out, yuv_420_to_444 (PyTuple [PyTensor Y; PyTensor U; PyTensor V]) None
         = Return (PyTensor out)
         ∧ valid_image out [N] (2 * h) (2 * w)
         ∧ t_dtype out = t_dtype Y
         ∧ channel out [N] (2 * h) (2 * w) 0 = t_data Y.
Proof.
  intros HwfY HfY HsY HU HV HdU HdV.
  destruct (interpolate_bilinear_shape U N 1 h w HU) as (U' & EU & HsU & HdU' & HwfU).
  destruct (interpolate_bilinear_shape V N 1 h w HV) as (V' & EV & HsV & HdV' & HwfV).
  assert (Hrun : yuv_420_to_444 (PyTuple [PyTensor Y; PyTensor U; PyTensor V]) None
            = (out ← cat [Y; U'; V'] 1; Return (PyTensor out))).
  { unfold yuv_420_to_444, _upsample. cbn. rewrite EU. cbn. rewrite EV. done. }
  rewrite Hrun, (cat_planes_axis1 Y U' V' N (2 * h) (2 * w)) by done.
  rewrite HdU', HdV', HdU, HdV, !promote_types_idemp.
  unfold tensor_wf in HwfY, HwfU, HwfV. rewrite HsY in HwfY. rewrite HsU in HwfU.
  rewrite HsV in HwfV.
  assert (Hn : numel_of [N; 1%nat; (2 * h)%nat; (2 * w)%nat]
               = (numel_of [N] * (2 * h * (2 * w)))%nat) by (simpl; lia).
  rewrite Hn in HwfY, HwfU, HwfV.
  eexists. split; [done|]. split_and!.
  - apply of_channels_valid; [done|simpl; lia|done..].
  - done.
  - by apply channel_of_channels.
Qed.




(** ** X12: [yuv_420_to_444] on an argument that is not a tuple *)

Lemma select0_upsamplable t N C h w k :
  tensor_wf t → is_floating_point t = true → t_shape t = [3%nat; N; C; h; w] →
  C ≠ 0%nat → h ≠ 0%nat → w ≠ 0%nat → (k < 3)%nat →
  upsamplable (select0 t k) N C h w.
Proof.
  intros Hwf Hf Hs HC Hh Hw Hk. unfold tensor_wf in Hwf. rewrite Hs in Hwf.
  change (numel_of [3%nat; N; C; h; w]) with (3 * numel_of [N; C; h; w])%nat in Hwf.
  unfold select0. rewrite Hs. cbn [tail].
  split_and!; try done.
  unfold tensor_wf. cbn [t_data t_shape].
  rewrite length_take, length_drop, Hwf.
  assert (k * numel_of [N; C; h; w] ≤ 2 * numel_of [N; C; h; w])%nat
    by (apply Nat.mul_le_mono_r; lia).
  lia.
Qed.

(** X12. The triple check of [yuv_420_to_444] asks only for a length of
    3 and for tensors as items, so a single tensor passes it when its first
    axis has size 3: the call then treats the three sub-tensors along that
    axis as [Y], [U] and [V], exactly as if they had come in a tuple; on a
    floating-point tensor [(3,N,C,h,w)] with [return_tuple = true] it
    returns sub-tensor 0 and the two others upsampled to [(N,C,2h,2w)].  A
    tensor whose first axis has another size raises [InvalidTriple]; a
    tensor with no axis, a number and [None] have no length and raise
    [TypeError], not [InvalidTriple]. *)
Theorem yuv_420_to_444_on_a_tensor :
  (∀ t rest b, t_shape t = 3%nat :: rest →
     yuv_420_to_444 (PyTensor t) b
     = yuv_420_to_444 (PyTuple [PyTensor (select0 t 0); PyTensor (select0 t 1);
                                PyTensor (select0 t 2)]) b)
  ∧ (∀ t N C h w, tensor_wf t → is_floating_point t = true →
       t_shape t = [3%nat; N; C; h; w] → C ≠ 0%nat → h ≠ 0%nat → w ≠ 0%nat →
       ∃ U' V', yuv_420_to_444 (PyTensor t) (Some true)
                = Return (PyTuple [PyTensor (select0 t 0); PyTensor U'; PyTensor V'])
                ∧ t_shape (select0 t 0) = [N; C; h; w]
                ∧ t_shape U' = [N; C; (2 * h)%nat; (2 * w)%nat]
                ∧ t_shape V' = [N; C; (2 * h)%nat; (2 * w)%nat])
  ∧ (∀ t n rest b, t_shape t = n :: rest → n ≠ 3%nat →
       yuv_420_to_444 (PyTensor t) b = Raise InvalidTriple)
  ∧ (∀ t b, t_shape t = [] →
       ∃ msg, yuv_420_to_444 (PyTensor t) b = Raise (TypeError msg))
  ∧ (∀ x b, ∃ msg, yuv_420_to_444 (PyFloat x) b = Raise (TypeError msg))
  ∧ (∀ b, ∃ msg, yuv_420_to_444 PyNone b = Raise (TypeError msg)).
Proof.
  split_and!.
  - intros t rest b Hs. unfold yuv_420_to_444. cbn [py_len py_iter]. by rewrite Hs.
  - intros t N C h w Hwf Hf Hs HC Hh Hw.
    destruct (interpolate_bilinear_shape (select0 t 1) N C h w) as (U' & EU & HsU & _);
      [apply select0_upsamplable; done || lia|].
    destruct (interpolate_bilinear_shape (select0 t 2) N C h w) as (V' & EV & HsV & _);
      [apply select0_upsamplable; done || lia|].
    exists U', V'. split_and!; [|by unfold select0; rewrite Hs|done..].
    unfold yuv_420_to_444. cbn [py_len py_iter]. rewrite Hs.
    unfold _upsample. cbn. rewrite EU. cbn. by rewrite EV.
  - intros t n rest b Hs Hn. unfold yuv_420_to_444. cbn [py_len py_iter]. rewrite Hs.
    cbn [lazy_or mbind result_bind]. by rewrite (bool_decide_eq_false_2 (n = 3%nat)).
  - intros t b Hs. unfold yuv_420_to_444. cbn [py_len py_iter]. rewrite Hs. by eexists.
  - intros x b. by eexists.
  - intros b. by eexists.
Qed.


(** ** X13: a packed tensor without a batch axis *)

Lemma chunk_rows t C H W s :
  t_shape t = [C; H; W] → H = (3 * s)%nat → s ≠ 0%nat →
  chunk t 3 1 = Return [narrow t 1 0 s; narrow t 1 s s; narrow t 1 (2 * s) s].
Proof.
  intros Hs -> Hne. unfold chunk, dim. rewrite Hs.
  cbn [length]. rewrite !bool_decide_eq_false_2 by done.
  change (wrap_dim 3 1) with (Return (A:=nat) 1%nat).
  cbn [mbind result_bind nth].
  rewrite bool_decide_eq_false_2 by lia.
  assert (E1 : ((3 * s + 3 - 1) / 3 = s)%nat).
  { symmetry. apply (Nat.div_unique _ _ _ 2); lia. }
  rewrite E1.
  assert (E2 : ((3 * s + s - 1) / s = 3)%nat).
  { symmetry. apply (Nat.div_unique _ _ _ (s - 1)); lia. }
  rewrite E2. cbn [seq map].
  do 2 f_equal; [|f_equal; [|f_equal]]; f_equal; lia.
Qed.

Lemma narrow_rows_poolable t C h w k :
  tensor_wf t → is_floating_point t = true →
  t_shape t = [C; (6 * h)%nat; (2 * w)%nat] → C ≠ 0%nat → h ≠ 0%nat → w ≠ 0%nat →
  (k < 3)%nat →
  poolable (narrow t 1 (k * (2 * h)) (2 * h)) [] C h w.
Proof.
  intros Hwf Hf Hs HC Hh Hw Hk.
  unfold tensor_wf in Hwf. rewrite Hs in Hwf.
  split_and!; try done; [|simpl; lia|by unfold narrow; rewrite Hs].
  unfold tensor_wf, narrow. rewrite Hs. cbn [t_data t_shape take drop nth list_insert].
  rewrite narrow_data_length.
  - cbn -[Nat.mul]. lia.
  - rewrite Hwf. cbn -[Nat.mul]. lia.
  - destruct k as [|[|[|k]]]; [| | |lia]; cbn -[Nat.mul]; lia.
Qed.

(** X13. [yuv_444_to_420] splits a packed tensor along axis 1, which is
    the channel axis only when there is a batch axis.  On a valid image
    without one, [(3,6h,2w)], the call returns, and what it returns are
    three bands of rows, each with all three channels: the first item is
    rows [0 .. 2h-1] of every channel, of shape [(3,2h,2w)], and the two
    others are the 2 by 2 block means of rows [2h .. 4h-1] and of rows
    [4h .. 6h-1], of shape [(3,h,w)]. *)
Theorem yuv_444_to_420_unbatched_rows t h w :
  valid_image t [] (6 * h) (2 * w) → h ≠ 0%nat → w ≠ 0%nat →
  ∃ U V, yuv_444_to_420 (PyTensor t)
         = Return (PyTuple [PyTensor (narrow t 1 0 (2 * h)); PyTensor U; PyTensor V])
    ∧ t_shape (narrow t 1 0 (2 * h)) = [3%nat; (2 * h)%nat; (2 * w)%nat]
    ∧ (∀ c i j, (c < 3)%nat → (i < 2 * h)%nat → (j < 2 * w)%nat →
         tensor_at (narrow t 1 0 (2 * h)) [c; i; j] = tensor_at t [c; i; j])
    ∧ block_mean (narrow t 1 (2 * h) (2 * h)) U [3%nat] h w
    ∧ block_mean (narrow t 1 (4 * h) (2 * h)) V [3%nat] h w.
Proof.
  intros (Hwf & Hf & _ & Hs) Hh Hw. cbn [image_shape app] in Hs.
  pose proof (narrow_rows_poolable t 3 h w 1 Hwf Hf Hs ltac:(done) Hh Hw ltac:(lia)) as HU.
  pose proof (narrow_rows_poolable t 3 h w 2 Hwf Hf Hs ltac:(done) Hh Hw ltac:(lia)) as HV.
  replace (1 * (2 * h))%nat with (2 * h)%nat in HU by lia.
  replace (2 * (2 * h))%nat with (4 * h)%nat in HV by lia.
  destruct (yuv_444_to_420_triple (PyTensor (narrow t 1 0 (2 * h)))
              _ _ [] 3 h w HU HV) as (U & V & E & BU & BV).
  exists U, V. split_and!; [| |  |exact BU|exact BV].
  - rewrite <- E. unfold yuv_444_to_420.
    cbn [isinstance_Tensor as_Tensor mbind result_bind].
    rewrite (chunk_rows t 3 (6 * h) (2 * w) (2 * h) Hs) by lia.
    replace (2 * (2 * h))%nat with (4 * h)%nat by lia. done.
  - unfold narrow. by rewrite Hs.
  - intros c i j Hc Hi Hj. unfold tensor_at, narrow. rewrite Hs.
    change (<[1%nat:=(2 * h)%nat]> [3%nat; (6 * h)%nat; (2 * w)%nat])
      with [3%nat; (2 * h)%nat; (2 * w)%nat].
    cbn [t_data t_shape take drop nth list_insert flat_index zip zip_with fold_left fst snd].
    unfold tensor_wf in Hwf. rewrite Hs in Hwf.
    change (numel_of [3%nat]) with 3%nat.
    change (numel_of [(2 * w)%nat]) with (2 * w * 1)%nat.
    assert (Hp : (i * (2 * w) + j < 2 * h * (2 * w * 1))%nat).
    { assert ((i + 1) * (2 * w) ≤ 2 * h * (2 * w))%nat by (apply Nat.mul_le_mono_r; lia). lia. }
    rewrite !nth_lookup.
    replace ((0 * 3 + c) * (2 * h) + i)%nat with (c * (2 * h) + i)%nat by lia.
    replace ((c * (2 * h) + i) * (2 * w) + j)%nat
      with (c * (2 * h * (2 * w * 1)) + (i * (2 * w) + j))%nat by lia.
    rewrite lookup_narrow_data; [|rewrite Hwf; simpl; lia|lia|lia|done].
    do 2 f_equal. lia.
Qed.

Lemma example_image_unbatched_valid : valid_image example_image_unbatched [] (6 * 1) (2 * 1).
Proof. split_and!; [reflexivity|reflexivity|simpl; lia|reflexivity]. Defined.

Lemma yuv_444_to_420_unbatched_rows_witness :
  valid_image example_image_unbatched [] (6 * 1) (2 * 1)
  ∧ ∃ U V, yuv_444_to_420 (PyTensor example_image_unbatched)
           = Return (PyTuple [PyTensor (narrow example_image_unbatched 1 0 (2 * 1));
                              PyTensor U; PyTensor V])
           ∧ t_shape U = [3; 1; 1]%nat.
Proof.
  split; [exact example_image_unbatched_valid|].
  destruct (yuv_444_to_420_unbatched_rows example_image_unbatched 1 1
              example_image_unbatched_valid ltac:(lia) ltac:(lia))
    as (U & V & E & _ & _ & (HsU & _) & _).
  exists U, V. split; [exact E|exact HsU].
Defined.


(** ** X14: which objects the results are *)

Lemma returns_new_alloc t : returns_new (Heap.alloc t).
Proof.
  intros σ l [= <-]. split; [apply fresh_loc_unused|].
  cbn. rewrite lookup_insert_eq. by eexists.
Qed.

Lemma returns_new_raise e : returns_new (Heap.raise e).
Proof. by intros σ l. Qed.

Lemma returns_new_bind {A} (m : Heap.M A) (f : A → Heap.M Heap.loc) :
  preserving m → (∀ a, returns_new (f a)) → returns_new (m ≫= f).
Proof.
  intros Hm Hf σ l. unfold mbind, Heap.M_bind.
  specialize (Hm σ). destruct (m σ) as [[a|e] σ']; [|done].
  intros Hl. destruct (Hf a σ' l Hl) as [Hnone Hsome]. split; [|done].
  destruct Hm as [Hsub _]. by eapply lookup_weaken_None.
Qed.

Ltac returns_new_step :=
  match goal with
  | |- returns_new (Heap.alloc _) => apply returns_new_alloc
  | |- returns_new (Heap.raise _) => apply returns_new_raise
  | |- returns_new (_ ≫= _) => apply returns_new_bind; [repeat preserving_step|intros ?]
  | |- returns_new (match ?x with _ => _ end) => destruct x
  | |- returns_new (let '_ := ?x in _) => destruct x
  end.

Lemma returns_new_rgb2ycbcr o : returns_new (Heap.rgb2ycbcr o).
Proof. preserving_unfold. repeat returns_new_step. Qed.

Lemma returns_new_ycbcr2rgb o : returns_new (Heap.ycbcr2rgb o).
Proof. preserving_unfold. repeat returns_new_step. Qed.

Lemma returns_new_downsample o : returns_new (Heap._downsample o).
Proof. preserving_unfold. repeat returns_new_step. Qed.

Lemma returns_new_upsample o : returns_new (Heap._upsample o).
Proof. preserving_unfold. repeat returns_new_step. Qed.

Lemma returns_new_cat ls d : returns_new (Heap.cat ls d).
Proof. preserving_unfold. repeat returns_new_step. Qed.

(** Two calls in sequence that each create their result: the two objects
    are different, and both are new to the state the first call starts
    from. *)
Lemma two_new_objects (m1 m2 : Heap.M Heap.loc) σ l1 σ1 l2 σ2 :
  returns_new m1 → returns_new m2 → preserving m1 → preserving m2 →
  m1 σ = (Return l1, σ1) → m2 σ1 = (Return l2, σ2) →
  new_object σ σ2 l1 ∧ new_object σ σ2 l2 ∧ l1 ≠ l2.
Proof.
  intros H1 H2 Hp1 Hp2 E1 E2.
  pose proof (H1 σ l1) as [N1 S1]; [by rewrite E1|]. rewrite E1 in S1. cbn in S1.
  pose proof (H2 σ1 l2) as [N2 S2]; [by rewrite E2|]. rewrite E2 in S2. cbn in S2.
  pose proof (Hp1 σ) as [Hsub1 _]. rewrite E1 in Hsub1. cbn in Hsub1.
  pose proof (Hp2 σ1) as [Hsub2 _]. rewrite E2 in Hsub2. cbn in Hsub2.
  destruct S1 as [t1 S1].
  split_and!.
  - split; [done|]. exists t1. by eapply lookup_weaken.
  - split; [|done]. by eapply lookup_weaken_None.
  - intros ->. by rewrite S1 in N2.
Qed.

Lemma preserving_downsample o : preserving (Heap._downsample o).
Proof. preserving_unfold. repeat preserving_step. Qed.

Lemma preserving_upsample o : preserving (Heap._upsample o).
Proof. preserving_unfold. repeat preserving_step. Qed.

Lemma returns_new_tensor_raise e : returns_new_tensor (Heap.raise e).
Proof. by intros σ r. Qed.

Lemma returns_new_tensor_bind {A} (m : Heap.M A) (f : A → Heap.M Heap.pyref) :
  preserving m → (∀ a, returns_new_tensor (f a)) → returns_new_tensor (m ≫= f).
Proof.
  intros Hm Hf σ r. unfold mbind, Heap.M_bind.
  specialize (Hm σ). destruct (m σ) as [[a|e] σ']; [|done].
  intros Hr. destruct (Hf a σ' r Hr) as (l & -> & Hnone & Hsome).
  exists l. split; [done|]. split; [|done].
  destruct Hm as [Hsub _]. by eapply lookup_weaken_None.
Qed.

Lemma returns_new_tensor_wrap (m : Heap.M Heap.loc) :
  returns_new m → returns_new_tensor (l ← m; mret (Heap.RTensor l)).
Proof.
  intros Hm σ r. specialize (Hm σ). unfold mbind, mret, Heap.M_bind, Heap.M_ret.
  destruct (m σ) as [[l|e] σ']; [|done].
  cbn. intros [= <-]. exists l. split; [done|]. by apply Hm.
Qed.

Lemma returns_new_tensor_yuv_420_to_444 o b :
  default false b = false → returns_new_tensor (Heap.yuv_420_to_444 o b).
Proof.
  intros Hb. unfold Heap.yuv_420_to_444. rewrite Hb.
  apply returns_new_tensor_bind; [preserving_unfold; repeat preserving_step|].
  intros [|]; [apply returns_new_tensor_raise|].
  apply returns_new_tensor_bind; [preserving_unfold; repeat preserving_step|]. intros items.
  apply returns_new_tensor_bind; [preserving_unfold; repeat preserving_step|].
  intros [[y u] v].
  apply returns_new_tensor_bind; [preserving_unfold; repeat preserving_step|]. intros u'.
  apply returns_new_tensor_bind; [preserving_unfold; repeat preserving_step|]. intros v'.
  apply returns_new_tensor_bind; [preserving_unfold; repeat preserving_step|]. intros ts.
  apply returns_new_tensor_wrap, returns_new_cat.
Qed.

(** X14. Which objects the results are, over the store of tensor
    objects.  The tensor [rgb2ycbcr] or [ycbcr2rgb] returns is an object
    the call created, never the argument or another object of the caller.
    On a tuple [(y, u, v)], [yuv_444_to_420] and, with [return_tuple =
    true], [yuv_420_to_444] return a tuple whose first item is the caller's
    own reference [y], not a copy, and whose two other items are two
    different objects the call created.  Without [return_tuple],
    [yuv_420_to_444] returns one object the call created, whatever the
    argument. *)
Theorem result_objects :
  (∀ o, returns_new (Heap.rgb2ycbcr o))
  ∧ (∀ o, returns_new (Heap.ycbcr2rgb o))
  ∧ (∀ y u v σ r, (Heap.yuv_444_to_420 (Heap.RTuple [y; u; v]) σ).1 = Return r →
       ∃ lu lv, r = Heap.RTuple [y; Heap.RTensor lu; Heap.RTensor lv]
                ∧ new_object σ (Heap.yuv_444_to_420 (Heap.RTuple [y; u; v]) σ).2 lu
                ∧ new_object σ (Heap.yuv_444_to_420 (Heap.RTuple [y; u; v]) σ).2 lv
                ∧ lu ≠ lv)
  ∧ (∀ y u v σ r,
       (Heap.yuv_420_to_444 (Heap.RTuple [y; u; v]) (Some true) σ).1 = Return r →
       ∃ lu lv, r = Heap.RTuple [y; Heap.RTensor lu; Heap.RTensor lv]
                ∧ new_object σ (Heap.yuv_420_to_444 (Heap.RTuple [y; u; v]) (Some true) σ).2 lu
                ∧ new_object σ (Heap.yuv_420_to_444 (Heap.RTuple [y; u; v]) (Some true) σ).2 lv
                ∧ lu ≠ lv)
  ∧ (∀ o b, default false b = false → returns_new_tensor (Heap.yuv_420_to_444 o b)).
Proof.
  split_and!.
  - apply returns_new_rgb2ycbcr.
  - apply returns_new_ycbcr2rgb.
  - intros y u v σ r. unfold Heap.yuv_444_to_420.
    cbn [Heap.isinstance_Tensor Heap.py_iter].
    unfold mbind, mret, Heap.M_bind, Heap.M_ret, Heap.lift. cbn [unpack3].
    destruct (Heap._downsample u σ) as [[lu|e] σ1] eqn:E1; [|by cbn].
    destruct (Heap._downsample v σ1) as [[lv|e] σ2] eqn:E2; [|by cbn].
    cbn. intros [= <-]. exists lu, lv. split; [done|].
    apply (two_new_objects (Heap._downsample u) (Heap._downsample v) σ lu σ1 lv σ2);
      auto using returns_new_downsample, preserving_downsample.
  - intros y u v σ r. unfold Heap.yuv_420_to_444.
    cbn [Heap.py_len Heap.py_iter default from_option id].
    unfold Heap.lazy_or, mbind, mret, Heap.M_bind, Heap.M_ret, Heap.lift, Heap.raise.
    cbn [length unpack3].
    rewrite (bool_decide_eq_true_2 (3 = 3)%nat) by done. cbn [negb].
    destruct (existsb _ _); [by cbn|]. cbn beta iota.
    destruct (Heap._upsample u σ) as [[lu|e] σ1] eqn:E1; [|by cbn].
    destruct (Heap._upsample v σ1) as [[lv|e] σ2] eqn:E2; [|by cbn].
    cbn. intros [= <-]. exists lu, lv. split; [done|].
    apply (two_new_objects (Heap._upsample u) (Heap._upsample v) σ lu σ1 lv σ2);
      auto using returns_new_upsample, preserving_upsample.
  - apply returns_new_tensor_yuv_420_to_444.
Qed.

Lemma result_objects_witness :
  (Heap.yuv_444_to_420 example_refs example_store).1
  = Return (Heap.RTuple [Heap.RTensor 1; Heap.RTensor 4; Heap.RTensor 5]%positive)
  ∧ ∃ lu lv,
      (Heap.yuv_444_to_420 example_refs example_store).1
      = Return (Heap.RTuple [Heap.RTensor 1%positive; Heap.RTensor lu; Heap.RTensor lv])
      ∧ new_object example_store (Heap.yuv_444_to_420 example_refs example_store).2 lu
      ∧ lu ≠ lv.
Proof.
  assert (E : (Heap.yuv_444_to_420 example_refs example_store).1
              = Return (Heap.RTuple [Heap.RTensor 1; Heap.RTensor 4; Heap.RTensor 5]%positive))
    by (vm_compute; reflexivity).
  split; [exact E|].
  destruct (proj1 (proj2 (proj2 result_objects)) (Heap.RTensor 1%positive)
              (Heap.RTensor 2%positive) (Heap.RTensor 3%positive) example_store _ E)
    as (lu & lv & Hr & Hu & _ & Hne).
  exists lu, lv. split; [|split; [exact Hu|exact Hne]].
  rewrite E. exact (f_equal Return Hr).
Defined.


(** ** X15: the weights of the upsampling *)

Lemma Qc_of_nat_this n : this (Qc_of_nat n) = inject_Z (Z.of_nat n).
Proof. unfold Qc_of_nat. cbn [this Q2Qc]. apply Qred_identity. simpl. apply Z.gcd_1_r. Qed.

Lemma source_coordinate (o : nat) :
  Q2Qc (1 # 2) * (Qc_of_nat o + Q2Qc 0.5) - Q2Qc 0.5 = Q2Qc ((2 * Z.of_nat o - 1) # 4).
Proof.
  apply Qc_is_canon. 
  unfold Qcminus, Qcopp, Qcplus, Qcmult. cbn [this Q2Qc].
  rewrite !Qred_correct. rewrite Qc_of_nat_this.
  unfold Qeq, inject_Z. cbn [Qnum Qden Qplus Qmult Qopp Qminus]. lia.
Qed.

Lemma area_pixel_compute_scale_2 n m :
  area_pixel_compute_scale n m false (Qc_of_nat 2) = Q2Qc (1 # 2).
Proof. unfold area_pixel_compute_scale. by apply Qc_is_canon. Qed.

Lemma Qfloor_quarters (z : Z) : Qfloor (this (Q2Qc (z # 4))) = (z / 4)%Z.
Proof. cbn [this Q2Qc]. by rewrite Qred_correct. Qed.

Lemma quarters_minus_nat (z : Z) (k : nat) :
  Q2Qc (z # 4) - Qc_of_nat k = Q2Qc ((z - 4 * Z.of_nat k) # 4).
Proof.
  apply Qc_is_canon.
  unfold Qcminus, Qcopp, Qcplus. cbn [this Q2Qc].
  rewrite !Qred_correct, Qc_of_nat_this.
  unfold Qeq, inject_Z. cbn [Qnum Qden Qplus Qmult Qopp Qminus]. lia.
Qed.

Lemma source_index_first n :
  n ≠ 0%nat →
  ∃ i1, compute_source_index_and_lambda (Q2Qc (1 # 2)) 0 n (n * 2) false = (0%nat, i1, 1, 0)
        ∧ (i1 < n)%nat.
Proof.
  intros Hn. unfold compute_source_index_and_lambda.
  rewrite bool_decide_eq_false_2 by lia.
  unfold area_pixel_compute_source_index. rewrite source_coordinate.
  change (Z.of_nat 0) with 0%Z. cbn [Z.mul Z.sub Z.add Z.opp Z.pos_sub].
  rewrite (bool_decide_eq_true_2 (Q2Qc (-1 # 4) < 0)) by done.
  change (Z.to_nat (Qfloor 0)) with 0%nat.
  rewrite Nat.min_0_l.
  eexists. split; [reflexivity|].
  destruct (Nat.ltb_spec 0 (n - 1)); lia.
Qed.

Lemma source_index_even n i :
  (1 ≤ i)%nat → (i < n)%nat →
  compute_source_index_and_lambda (Q2Qc (1 # 2)) (2 * i) n (n * 2) false
  = ((i - 1)%nat, i, Q2Qc (1 # 4), Q2Qc (3 # 4)).
Proof.
  intros Hi Hn. unfold compute_source_index_and_lambda.
  rewrite bool_decide_eq_false_2 by lia.
  unfold area_pixel_compute_source_index. rewrite source_coordinate.
  rewrite (bool_decide_eq_false_2 (Q2Qc (_ # 4) < 0)).
  2:{ unfold Qclt. cbn [this Q2Qc]. rewrite Qred_correct.
      unfold Qlt. change (Qred 0) with (0 # 1)%Q. cbn [Qnum Qden]. lia. }
  rewrite Qfloor_quarters.
  replace (2 * Z.of_nat (2 * i) - 1)%Z with (3 + (Z.of_nat i - 1) * 4)%Z by lia.
  rewrite Z.div_add by done. change (3 / 4)%Z with 0%Z.
  replace (Z.to_nat (0 + (Z.of_nat i - 1))) with (i - 1)%nat by lia.
  rewrite Nat.min_l by lia.
  rewrite quarters_minus_nat.
  replace (3 + (Z.of_nat i - 1) * 4 - 4 * Z.of_nat (i - 1))%Z with 3%Z by lia.
  destruct (Nat.ltb_spec (i - 1) (n - 1)); [|lia].
  replace (i - 1 + 1)%nat with i by lia.
  assert (E : Qc_min (Qc_max (Q2Qc (3 # 4)) 0) 1 = Q2Qc (3 # 4)) by (by apply Qc_is_canon).
  rewrite E. by replace (1 - Q2Qc (3 # 4)) with (Q2Qc (1 # 4)) by (by apply Qc_is_canon).
Qed.

Lemma source_index_odd n i :
  (i < n)%nat →
  compute_source_index_and_lambda (Q2Qc (1 # 2)) (2 * i + 1) n (n * 2) false
  = (i, Nat.min (i + 1) (n - 1), Q2Qc (3 # 4), Q2Qc (1 # 4)).
Proof.
  intros Hn. unfold compute_source_index_and_lambda.
  rewrite bool_decide_eq_false_2 by lia.
  unfold area_pixel_compute_source_index. rewrite source_coordinate.
  rewrite (bool_decide_eq_false_2 (Q2Qc (_ # 4) < 0)).
  2:{ unfold Qclt. cbn [this Q2Qc]. rewrite Qred_correct.
      unfold Qlt. change (Qred 0) with (0 # 1)%Q. cbn [Qnum Qden]. lia. }
  rewrite Qfloor_quarters.
  replace (2 * Z.of_nat (2 * i + 1) - 1)%Z with (1 + Z.of_nat i * 4)%Z by lia.
  rewrite Z.div_add by done. change (1 / 4)%Z with 0%Z.
  replace (Z.to_nat (0 + Z.of_nat i)) with i by lia.
  rewrite Nat.min_l by lia.
  rewrite quarters_minus_nat.
  replace (1 + Z.of_nat i * 4 - 4 * Z.of_nat i)%Z with 1%Z by lia.
  replace (i + (if (i <? n - 1)%nat then 1 else 0))%nat with (Nat.min (i + 1) (n - 1))
    by (destruct (Nat.ltb_spec i (n - 1)); lia).
  assert (E : Qc_min (Qc_max (Q2Qc (1 # 4)) 0) 1 = Q2Qc (1 # 4)) by (by apply Qc_is_canon).
  rewrite E. by replace (1 - Q2Qc (1 # 4)) with (Q2Qc (3 # 4)) by (by apply Qc_is_canon).
Qed.

Lemma near_far_inside n o :
  n ≠ 0%nat → (o < n * 2)%nat → (near_index o < n)%nat ∧ (far_index n o < n)%nat.
Proof.
  intros Hn Ho. unfold near_index, far_index.
  assert (o / 2 < n)%nat by (apply Nat.Div0.div_lt_upper_bound; lia).
  destruct (Nat.even o); lia.
Qed.

(** The two samples and weights the engine uses for output index [o] are
    3/4 of the nearest sample and 1/4 of the next nearest. *)
Lemma source_index_near_far n o i0 i1 l0 l1 (f : nat → Qc) :
  n ≠ 0%nat → (o < n * 2)%nat →
  compute_source_index_and_lambda (Q2Qc (1 # 2)) o n (n * 2) false = (i0, i1, l0, l1) →
  l0 * f i0 + l1 * f i1
  = Q2Qc (3 # 4) * f (near_index o) + Q2Qc (1 # 4) * f (far_index n o).
Proof.
  intros Hn Ho. unfold near_index, far_index.
  destruct (Nat.Even_or_Odd o) as [[i ->]|[i ->]].
  - replace (2 * i / 2)%nat with i by (by rewrite Nat.mul_comm, Nat.div_mul).
    replace (Nat.even (2 * i)) with true by (symmetry; apply Nat.even_spec; by exists i).
    destruct (decide (i = 0%nat)) as [->|Hi].
    + destruct (source_index_first n Hn) as (i1' & E & _).
      change (2 * 0)%nat with 0%nat. rewrite E. intros [= <- <- <- <-].
      change (0 - 1)%nat with 0%nat.
      replace (Q2Qc (3 # 4)) with (1 - Q2Qc (1 # 4)) by (by apply Qc_is_canon). ring.
    + rewrite source_index_even by lia. intros [= <- <- <- <-]. ring.
  - replace ((2 * i + 1) / 2)%nat with i.
    2:{ apply (Nat.div_unique _ _ _ 1); lia. }
    replace (Nat.even (2 * i + 1)) with false.
    2:{ symmetry. rewrite <- Nat.negb_odd. apply negb_false_iff, Nat.odd_spec. by exists i. }
    rewrite source_index_odd by lia. by intros [= <- <- <- <-].
Qed.

Lemma upsample_bilinear_plane_weights h w pl oh ow :
  h ≠ 0%nat → w ≠ 0%nat → (oh < h * 2)%nat → (ow < w * 2)%nat →
  upsample_bilinear_plane h w (h * 2) (w * 2) false (Qc_of_nat 2) pl
    !! (oh * (w * 2) + ow)%nat
  = Some ((Q2Qc 9 * plane_at w pl (near_index oh) (near_index ow)
           + Q2Qc 3 * plane_at w pl (near_index oh) (far_index w ow)
           + Q2Qc 3 * plane_at w pl (far_index h oh) (near_index ow)
           + plane_at w pl (far_index h oh) (far_index w ow)) / Q2Qc 16).
Proof.
  intros Hh Hw Hoh How. unfold upsample_bilinear_plane.
  rewrite !area_pixel_compute_scale_2.
  set (csl := compute_source_index_and_lambda (Q2Qc (1 # 2))).
  set (g := λ oh ow : nat,
         let '(h0, h1, h0l, h1l) := csl oh h (h * 2)%nat false in
         let '(w0, w1, w0l, w1l) := csl ow w (w * 2)%nat false in
         h0l * (w0l * plane_at w pl h0 w0 + w1l * plane_at w pl h0 w1)
         + h1l * (w0l * plane_at w pl h1 w0 + w1l * plane_at w pl h1 w1)).
  rewrite (flat_map_ext _ (λ oh, map (g oh) (seq 0 (w * 2)))).
  2:{ intros a. unfold g. by destruct (csl a h (h * 2)%nat false) as [[[? ?] ?] ?]. }
  rewrite lookup_grid by done. f_equal. unfold g, csl.
  destruct (compute_source_index_and_lambda _ oh h _ false) as [[[h0 h1] h0l] h1l] eqn:Eh.
  destruct (compute_source_index_and_lambda _ ow w _ false) as [[[w0 w1] w0l] w1l] eqn:Ew.
  rewrite (source_index_near_far w ow w0 w1 w0l w1l (plane_at w pl h0) Hw How Ew).
  rewrite (source_index_near_far w ow w0 w1 w0l w1l (plane_at w pl h1) Hw How Ew).
  rewrite (source_index_near_far h oh h0 h1 h0l h1l
             (λ a, Q2Qc (3 # 4) * plane_at w pl a (near_index ow)
                   + Q2Qc (1 # 4) * plane_at w pl a (far_index w ow)) Hh Hoh Eh).
  replace (Q2Qc (3 # 4)) with (Q2Qc 3 / Q2Qc 4) by (by apply Qc_is_canon).
  replace (Q2Qc (1 # 4)) with (1 / Q2Qc 4) by (by apply Qc_is_canon).
  replace (Q2Qc 16) with (Q2Qc 4 * Q2Qc 4) by (by apply Qc_is_canon).
  replace (Q2Qc 9) with (Q2Qc 3 * Q2Qc 3) by (by apply Qc_is_canon).
  field. done.
Qed.

Lemma interpolate_bilinear_weights u N C h w :
  upsamplable u N C h w →
  ∃ u', interpolate_bilinear u 2 false = Return u' ∧ bilinear_2x u u' N C h w.
Proof.
  intros Hu.
  destruct (interpolate_bilinear_shape u N C h w Hu) as (u' & E & Hs' & Hd' & Hwf').
  exists u'. split; [done|]. split_and!; try done.
  destruct Hu as (Hwf & Hf & Hs & HC & Hh & Hw).
  intros I i j HI Hi Hj.
  pose proof (Forall2_length _ _ _ HI) as HlenI.
  pose proof (flat_index_lt _ _ HI) as Hp.
  set (p := flat_index [N; C] I) in *.
  change (numel_of [N; C]) with (N * (C * 1))%nat in Hp.
  assert (Hu' : t_data u' = map_planes (N * C) (h * w)
                  (upsample_bilinear_plane h w (h * 2) (w * 2) false (Qc_of_nat 2))
                  (t_data u)).
  { unfold interpolate_bilinear in E. rewrite Hs, Hf in E. cbn [negb] in E.
    rewrite !bool_decide_eq_false_2 in E by lia. by injection E as <-. }
  destruct (near_far_inside h i Hh ltac:(lia)) as [Hni Hfi].
  destruct (near_far_inside w j Hw ltac:(lia)) as [Hnj Hfj].
  assert (Hq : (i * (w * 2) + j < h * 2 * (w * 2))%nat).
  { assert ((i + 1) * (w * 2) ≤ h * 2 * (w * 2))%nat by (apply Nat.mul_le_mono_r; lia). lia. }
  assert (Hin : ∀ a b, (a < h)%nat → (b < w)%nat → (a * w + b < h * w)%nat).
  { intros a b Ha Hb.
    assert ((a + 1) * w ≤ h * w)%nat by (apply Nat.mul_le_mono_r; lia). lia. }
  unfold tensor_at at 1. rewrite Hs', Hu'.
  change ([N; C; (2 * h)%nat; (2 * w)%nat]) with ([N; C] ++ [(2 * h)%nat; (2 * w)%nat]).
  rewrite flat_index_plane by done. fold p.
  replace (p * (2 * h * (2 * w)) + (i * (2 * w) + j))%nat
    with (p * (h * 2 * (w * 2)) + (i * (w * 2) + j))%nat by lia.
  rewrite nth_lookup,
    (lookup_map_planes _ _ (h * 2 * (w * 2))); [| |lia|done].
  2:{ intros x. apply upsample_bilinear_plane_length. }
  rewrite upsample_bilinear_plane_weights by (done || lia).
  cbn [default from_option id].
  unfold plane_at, tensor_at. rewrite Hs.
  change ([N; C; h; w]) with ([N; C] ++ [h; w]).
  rewrite !flat_index_plane by done. fold p.
  rewrite !nth_take_drop by (by apply Hin).
  done.
Qed.

(** X15. What [yuv_420_to_444] computes: on a triple of tensors whose
    chroma planes are [(N,C,h,w)] (floating point, no empty channel or
    spatial axis) it returns, with [return_tuple = true], the luma plane as
    it is and chroma planes [(N,C,2h,2w)] in which the element at [(i, j)]
    is [(9*a + 3*b + 3*c + d) / 16], where [a] is the input element nearest
    to it, at [(i / 2, j / 2)], [b] and [c] are the neighbours of [a] along
    the row and along the column on the side of [(i, j)], and [d] is the
    diagonal one; at the border of the plane the missing neighbour is the
    border element itself. *)
Theorem yuv_420_to_444_weights Y U V N C h w :
  upsamplable U N C h w → upsamplable V N C h w →
  ∃ U' V', yuv_420_to_444 (PyTuple [PyTensor Y; PyTensor U; PyTensor V]) (Some true)
           = Return (PyTuple [PyTensor Y; PyTensor U'; PyTensor V'])
           ∧ bilinear_2x U U' N C h w ∧ bilinear_2x V V' N C h w.
Proof.
  intros HU HV.
  destruct (interpolate_bilinear_weights U N C h w HU) as (U' & EU & BU).
  destruct (interpolate_bilinear_weights V N C h w HV) as (V' & EV & BV).
  exists U', V'. split; [|done].
  unfold yuv_420_to_444, _upsample. cbn. rewrite EU. cbn. by rewrite EV.
Qed.

Lemma example_row_upsamplable : upsamplable example_row 1 1 1 4.
Proof. split_and!; [reflexivity|reflexivity|reflexivity|lia..]. Defined.

Lemma yuv_420_to_444_weights_witness :
  upsamplable example_row 1 1 1 4
  ∧ ∃ U' V', yuv_420_to_444 (PyTuple [PyTensor example_row; PyTensor example_row;
                                       PyTensor example_row]) (Some true)
             = Return (PyTuple [PyTensor example_row; PyTensor U'; PyTensor V'])
             ∧ tensor_at U' [0; 0; 0; 3]%nat = Q2Qc 5.
Proof.
  split; [exact example_row_upsamplable|].
  destruct (yuv_420_to_444_weights example_row example_row example_row 1 1 1 4
              example_row_upsamplable example_row_upsamplable)
    as (U' & V' & E & (_ & _ & _ & HU) & _).
  exists U', V'. split; [exact E|].
  change [0; 0; 0; 3]%nat with ([0; 0] ++ [0; 3])%nat.
  rewrite (HU [0; 0]%nat 0%nat 3%nat); [by apply Qc_is_canon| |simpl; lia..].
  repeat constructor.
Defined.
